(** * CME prediction notebook: inference, classification and evaluation

    A shallow embedding of the code cells of [ccsc_CMEpredict.ipynb]:
    the prediction grid (cell 2.4.1), the ROC analysis (cell 2.4.2) and
    the model dispatch of the training cell (2.5).

    Conventions of the embedding.
    - Python floats (probabilities, thresholds, rates, AUROC) are exact
      rationals [Q]; every rate the model produces is kept in lowest
      terms ([Qred]) so that results compare with [=].
    - Class labels are [nat] (the loader emits 0 for N and 1 for P).
    - A call that may raise returns a [result]; the cells thread the
      notebook's global names through a state-and-exception monad. *)

From Stdlib Require Import String Ascii DecimalString.
From Stdlib Require Import List Bool Arith ZArith QArith Qabs Lia Lqa.
From Stdlib Require Import Permutation Sorted DecimalNat.
Import ListNotations.

Close Scope Q_scope.
Open Scope nat_scope.

Set Implicit Arguments.

(** ** Python values the notebook manipulates *)

Module Py.

Inductive exception : Type :=
| ValueError (msg : string)
| IndexError (msg : string)
| NameError (name : string)
| TypeError (msg : string)
| OSError (msg : string).

Inductive result (A : Type) : Type :=
| Ok (a : A)
| Raise (e : exception).

Arguments Ok {A} a.
Arguments Raise {A} e.

Definition bind {A B} (r : result A) (k : A -> result B) : result B :=
  match r with
  | Ok a => k a
  | Raise e => Raise e
  end.

(** A float that may be [nan]; finite values are exact rationals. *)
Inductive pyfloat : Type :=
| nan
| fin (q : Q).

(** [str(n)] for a non-negative int. *)
Definition str (n : nat) : string := NilEmpty.string_of_uint (Nat.to_uint n).

(** [c.upper()] on one ASCII character. *)
Definition upper_ascii (c : ascii) : ascii :=
  let n := nat_of_ascii c in
  if (97 <=? n) && (n <=? 122) then ascii_of_nat (n - 32) else c.

(** [s.upper()] *)
Fixpoint upper (s : string) : string :=
  match s with
  | EmptyString => EmptyString
  | String c s' => String (upper_ascii c) (upper s')
  end.

(** The decimal digit [d] (0..9) as a character. *)
Definition digit (d : nat) : ascii := ascii_of_nat (48 + d).

(** Nearest integer to [q * 1000] for [q >= 0], ties to even: the
    correctly rounded scaling that a fixed-point conversion with
    precision 3 performs. *)
Definition round_milli (q : Q) : Z :=
  let num := (1000 * Qnum q)%Z in
  let den := Zpos (Qden q) in
  let k := (num / den)%Z in
  let r := (num mod den)%Z in
  if (2 * r <? den)%Z then k
  else if (den <? 2 * r)%Z then (k + 1)%Z
  else if Z.even k then k else (k + 1)%Z.

(** ["%0.3f" % x]: sign, integer part, a point, three decimals. *)
Definition format_0_3f (x : pyfloat) : string :=
  match x with
  | nan => "nan"
  | fin q =>
      let m := Z.to_nat (round_milli (Qabs q)) in
      let sign := if Qle_bool 0 q then EmptyString else "-"%string in
      let frac := m mod 1000 in
      (sign ++ str (m / 1000) ++ "." ++
       String (digit (frac / 100))
         (String (digit ((frac / 10) mod 10))
            (String (digit (frac mod 10)) EmptyString)))%string
  end.

(** [fmt % x] with a single float argument.  Only the conversions the
    notebook uses are modelled: [%%] and [%0.3f]; the model raises on
    any other conversion.  [arg] is the argument still to be
    consumed. *)
Fixpoint percent_format (fmt : string) (arg : option pyfloat) : result string :=
  match fmt with
  | EmptyString =>
      match arg with
      | None => Ok EmptyString
      | Some _ => Raise (TypeError "not all arguments converted during string formatting")
      end
  | String c rest =>
      if Ascii.eqb c "%" then
        match rest with
        | String "%" rest' =>
            match percent_format rest' arg with
            | Ok s => Ok (String "%" s)
            | Raise e => Raise e
            end
        | String "0" (String "." (String "3" (String "f" rest'))) =>
            match arg with
            | None => Raise (TypeError "not enough arguments for format string")
            | Some x =>
                match percent_format rest' None with
                | Ok s => Ok (format_0_3f x ++ s)%string
                | Raise e => Raise e
                end
            end
        | _ => Raise (ValueError "unsupported format character")
        end
      else
        match percent_format rest arg with
        | Ok s => Ok (String c s)
        | Raise e => Raise e
        end
  end.

(** Whether the character [%] occurs in [s]. *)
Fixpoint has_percent (s : string) : bool :=
  match s with
  | EmptyString => false
  | String c s' => Ascii.eqb c "%" || has_percent s'
  end.

(** [xs[i]] on a list: out of range raises [IndexError]. *)
Definition getitem {A} (xs : list A) (i : nat) : result A :=
  match nth_error xs i with
  | Some x => Ok x
  | None => Raise (IndexError "list index out of range")
  end.

(** A [dict] with string keys, in insertion order: [d[k] = v]
    replaces the value of an existing key in place and appends a new
    key at the end. *)
Fixpoint setitem {V} (d : list (string * V)) (k : string) (v : V) : list (string * V) :=
  match d with
  | [] => [(k, v)]
  | (k', v') :: d' =>
      if String.eqb k' k then (k, v) :: d' else (k', v') :: setitem d' k v
  end.

(** [d.get(k)] *)
Fixpoint get {V} (d : list (string * V)) (k : string) : option V :=
  match d with
  | [] => None
  | (k', v') :: d' => if String.eqb k' k then Some v' else get d' k
  end.

(** A string object: [is] compares identities, [==] compares values. *)
Record pystr : Type := { oid : nat; value : string }.

Definition is_ (a b : pystr) : bool := oid a =? oid b.

End Py.

Import Py.

Declare Scope py_scope.
Delimit Scope py_scope with py.
Notation "x <- c1 ;; c2" := (Py.bind c1 (fun x => c2))
  (at level 61, c1 at next level, right associativity) : py_scope.
Notation "' pat <- c1 ;; c2" := (Py.bind c1 (fun x => match x with pat => c2 end))
  (at level 61, pat pattern, c1 at next level, right associativity) : py_scope.

(** ** Generic list helpers *)

Section Sorting.
Variable A : Type.
Variable leb : A -> A -> bool.

(** Stable insertion: [x] goes in front of the first element it is
    not greater than. *)
Fixpoint insert (x : A) (l : list A) : list A :=
  match l with
  | [] => [x]
  | y :: l' => if leb x y then x :: l else y :: insert x l'
  end.

(** Ascending stable sort (the order [np.argsort(kind="mergesort")]
    and [sorted] deliver). *)
Fixpoint sort (l : list A) : list A :=
  match l with
  | [] => []
  | x :: l' => insert x (sort l')
  end.
End Sorting.

(** Number of elements satisfying a boolean test. *)
Definition count {A} (f : A -> bool) (l : list A) : nat := length (filter f l).

(** Sum of a list of naturals / of a matrix of naturals. *)
Definition sum (l : list nat) : nat := fold_right Nat.add 0 l.
Definition sum_cells (m : list (list nat)) : nat := sum (map sum m).

(** ** The part of scikit-learn's [metrics] the notebook calls *)

Module Sklearn.

Definition inconsistent_length : exception :=
  ValueError "Found input variables with inconsistent numbers of samples".

(** [np.unique]: the distinct labels in ascending order. *)
Definition unique (y : list nat) : list nat :=
  sort Nat.leb (nodup Nat.eq_dec y).

(** [unique_labels(y_true, y_pred)]: the distinct labels occurring in
    either sequence, ascending. *)
Definition unique_labels (y_true y_pred : list nat) : list nat :=
  unique (y_true ++ y_pred).

(** How many samples have true label [a] and predicted label [b]. *)
Definition count_pairs (a b : nat) (pairs : list (nat * nat)) : nat :=
  count (fun tp => (fst tp =? a) && (snd tp =? b)) pairs.

(** Modelled from the spec: [confusion_matrix] is scikit-learn code,
    not under src/.  Rows are true labels and columns predicted labels,
    each cell counting the exact matches (spec 4.1).  The notebook
    passes no [labels] argument, so the rows and columns are the labels
    that occur in the two sequences, [unique_labels(y_true, y_pred)]:
    the matrix is 2x2 only when two distinct labels occur.  Sequences
    of different lengths raise [ValueError]. *)
Definition confusion_matrix (y_true y_pred : list nat) : result (list (list nat)) :=
  if length y_true =? length y_pred then
    let labels := unique_labels y_true y_pred in
    let pairs := combine y_true y_pred in
    Ok (map (fun a => map (fun b => count_pairs a b pairs) labels) labels)
  else Raise inconsistent_length.

(** *** ROC curve *)

Definition multiclass_unsupported : exception :=
  ValueError "multiclass format is not supported".
Definition pos_label_unspecified : exception :=
  ValueError "y_true takes value outside {0, 1} and pos_label is not specified".
Definition only_one_class : exception :=
  ValueError "Only one class present in y_true. ROC AUC score is not defined in that case.".
Definition multi_class_unset : exception :=
  ValueError "multi_class must be in ('ovo', 'ovr')".
Definition empty_array : exception :=
  ValueError "Found array with 0 sample(s) while a minimum of 1 is required.".
Definition too_few_points : exception :=
  ValueError "At least 2 points are needed to compute area under curve".
Definition not_monotone : exception :=
  ValueError "x is neither increasing nor decreasing".

(** Ascending order on (score, is-positive) pairs, by score only. *)
Definition score_leb (a b : Q * bool) : bool := Qle_bool (fst a) (fst b).

(** The samples in decreasing score order:
    [np.argsort(y_score, kind="mergesort")[::-1]]. *)
Definition by_decreasing_score (samples : list (Q * bool)) : list (Q * bool) :=
  rev (sort score_leb samples).

(** One pass over the samples in decreasing score order, accumulating
    the false and true positives ([stable_cumsum]) and emitting
    (fps, tps, threshold) at the last sample of every run of equal
    scores ([distinct_value_indices] followed by the last index). *)
Fixpoint clf_walk (fp tp : nat) (l : list (Q * bool)) : list (nat * nat * Q) :=
  match l with
  | [] => []
  | (s, b) :: l' =>
      let fp' := if b then fp else S fp in
      let tp' := if b then S tp else tp in
      match l' with
      | [] => [(fp', tp', s)]
      | (s', _) :: _ =>
          if Qeq_bool s s' then clf_walk fp' tp' l'
          else (fp', tp', s) :: clf_walk fp' tp' l'
      end
  end.

(** With [pos_label=None] the classes must be {0,1}, {0} or {1}
    (the signed variants cannot occur with [nat] labels). *)
Definition pos_label_consistent (classes : list nat) : bool :=
  match classes with
  | [0; 1] | [0] | [1] => true
  | _ => false
  end.

(** [_binary_clf_curve(y_true, y_score)] with [pos_label=None] and no
    sample weights. *)
Definition binary_clf_curve (y_true : list nat) (y_score : list Q)
  : result (list (nat * nat * Q)) :=
  let classes := unique y_true in
  if 2 <? length classes then Raise multiclass_unsupported
  else if negb (length y_true =? length y_score) then Raise inconsistent_length
  else if negb (pos_label_consistent classes) then Raise pos_label_unspecified
  else Ok (clf_walk 0 0
             (by_decreasing_score (combine y_score (map (fun l => l =? 1) y_true)))).

(** Second difference of fps or of tps not zero at the middle point. *)
Definition bends (a b c : nat * nat * Q) : bool :=
  negb (fst (fst a) + fst (fst c) =? 2 * fst (fst b)) ||
  negb (snd (fst a) + snd (fst c) =? 2 * snd (fst b)).

(** Keeps the points at which the curve bends, and the last one;
    [prev] is the point before the head in the full curve. *)
Fixpoint drop_mid (prev : nat * nat * Q) (l : list (nat * nat * Q))
  : list (nat * nat * Q) :=
  match l with
  | [] => []
  | cur :: l' =>
      match l' with
      | [] => [cur]
      | next :: _ =>
          if bends prev cur next then cur :: drop_mid cur l' else drop_mid cur l'
      end
  end.

(** [drop_intermediate=True]: applied when there are more than two
    thresholds; first and last points are always kept. *)
Definition drop_intermediate (pts : list (nat * nat * Q)) : list (nat * nat * Q) :=
  match pts with
  | [] => []
  | first :: rest => if 2 <? length pts then first :: drop_mid first rest else pts
  end.

(** An array of rates: finite values, or [np.repeat(np.nan, n)]. *)
Inductive rates : Type :=
| Rates (r : list Q)
| AllNaN (n : nat).

Definition rates_len (r : rates) : nat :=
  match r with
  | Rates l => length l
  | AllNaN n => n
  end.

(** [k / total] in lowest terms. *)
Definition rate (k total : nat) : Q := Qred (Z.of_nat k # Pos.of_nat total).

(** [counts / counts[-1]], or all [nan] (with an
    [UndefinedMetricWarning]) when the last count is not positive. *)
Definition normalise (counts : list nat) : rates :=
  let total := last counts 0 in
  if total =? 0 then AllNaN (length counts)
  else Rates (map (fun k => rate k total) counts).

(** Modelled from the spec: [roc_curve] is scikit-learn code, not under
    src/.  It is the standard construction of spec 4.2: the samples are
    ranked by decreasing score, one (fps, tps) point is taken per
    distinct score value, points on a straight segment are dropped
    (the default [drop_intermediate=True]), the origin is put in front
    and the counts are divided by their totals.  The third component
    (thresholds) is discarded by the notebook and left out. *)
Definition roc_curve (y_true : list nat) (y_score : list Q) : result (rates * rates) :=
  (pts <- binary_clf_curve y_true y_score ;;
   let pts := drop_intermediate pts in
   let fps := 0 :: map (fun p => fst (fst p)) pts in
   let tps := 0 :: map (fun p => snd (fst p)) pts in
   Ok (normalise fps, normalise tps))%py.

(** [np.diff(x)] *)
Fixpoint diff (x : list Q) : list Q :=
  match x with
  | a :: (b :: _) as t => (b - a)%Q :: diff t
  | _ => []
  end.

(** [np.trapz(y, x)] *)
Fixpoint trapz (y x : list Q) : Q :=
  match x, y with
  | x0 :: (x1 :: _) as xs, y0 :: (y1 :: _) as ys =>
      ((x1 - x0) * ((y1 + y0) / 2) + trapz ys xs)%Q
  | _, _ => 0%Q
  end.

Definition Qneg_bool (d : Q) : bool := negb (Qle_bool 0 d).

(** [auc(x, y)]: trapezoidal area, after the checks on the number of
    points and on the direction of [x]. *)
Definition auc (x y : rates) : result pyfloat :=
  if negb (rates_len x =? rates_len y) then Raise inconsistent_length
  else if rates_len x <? 2 then Raise too_few_points
  else
    match x, y with
    | Rates xs, Rates ys =>
        let dx := diff xs in
        if existsb Qneg_bool dx then
          if forallb (fun d => Qle_bool d 0) dx
          then Ok (fin (Qred (- trapz ys xs)))
          else Raise not_monotone
        else Ok (fin (Qred (trapz ys xs)))
    | Rates xs, AllNaN _ =>
        let dx := diff xs in
        if existsb Qneg_bool dx && negb (forallb (fun d => Qle_bool d 0) dx)
        then Raise not_monotone else Ok nan
    | AllNaN _, _ => Ok nan
    end.

(** [label_binarize(y_true, classes=labels)[:, 0]]: the larger of two
    classes becomes 1; a single class becomes all 0. *)
Definition label_binarize (classes : list nat) (y : list nat) : list nat :=
  map (fun l => if (length classes =? 1) then 0
                else if l =? last classes 0 then 1 else 0) y.

(** Modelled from the spec: [roc_auc_score] is scikit-learn code, not
    under src/.  It is the area under the ROC curve (spec 4.2) by the
    trapezoidal rule; ground truth with a single class raises
    [ValueError: Only one class present in y_true] before any curve
    is computed (an empty ground truth is rejected before that, and more
    than two classes need a [multi_class] argument). *)
Definition roc_auc_score (y_true : list nat) (y_score : list Q) : result pyfloat :=
  let labels := unique y_true in
  if length y_true =? 0 then Raise empty_array
  else if 2 <? length labels then Raise multi_class_unset
  else
    let y_bin := label_binarize labels y_true in
    if negb (length (unique y_bin) =? 2) then Raise only_one_class
    else
      ('(fpr, tpr) <- roc_curve y_bin y_score ;;
       auc fpr tpr)%py.

(** *** The ROC curve as the spec words it *)

(** One representative per run of equal values. *)
Fixpoint squeeze (l : list Q) : list Q :=
  match l with
  | [] => []
  | a :: l' =>
      match l' with
      | [] => [a]
      | b :: _ => if Qeq_bool a b then squeeze l' else a :: squeeze l'
      end
  end.

(** All distinct score values, from the largest down. *)
Definition distinct_scores (y_score : list Q) : list Q :=
  squeeze (rev (sort Qle_bool y_score)).

(** Spec 4.2, ROC curve: "the ordered sequence of
    (false-positive-rate, true-positive-rate) pairs obtained by
    sweeping the decision threshold over all distinct probability
    values present (standard ROC construction)": the origin, then for
    each distinct score [t], from the largest down, the rates of the
    rule "positive when score >= t". *)
Definition roc_sweep (y_true : list nat) (y_score : list Q) : list (Q * Q) :=
  let samples := combine y_score (map (fun l => l =? 1) y_true) in
  let neg := count (fun sb => negb (snd sb)) samples in
  let pos := count (fun sb => snd sb) samples in
  (0%Q, 0%Q) ::
  map (fun t =>
         (rate (count (fun sb => Qle_bool t (fst sb) && negb (snd sb)) samples) neg,
          rate (count (fun sb => Qle_bool t (fst sb) && snd sb) samples) pos))
      (distinct_scores y_score).

End Sklearn.

(** ** Cell 2.4.1: thresholding *)

(** [1 if p >= threshold else 0] *)
Definition classify (p threshold : Q) : nat :=
  if Qle_bool threshold p then 1 else 0.

(** [bc = [1 if p >= threshold else 0 for p in prob]] *)
Definition bc (threshold : Q) (prob : list Q) : list nat :=
  map (fun p => classify p threshold) prob.

(** [y_score] as the notebook passes it to the metrics: the 0/1
    predictions themselves. *)
Definition as_scores (bc : list nat) : list Q :=
  map (fun b => inject_Z (Z.of_nat b)) bc.

(** ** What [from CMEpredict import *] brings in

    The helper module (and, through it, Keras and [class_weight]) is not
    part of the notebook: its functions are parameters, each of which
    may raise. *)

Class CMEpredict : Type := {
  Model : Type;
  Tensor : Type;
  get_n_features_thresh : string -> nat -> result (nat * Q);
  load_model : string -> result Model;
  (** datafile, series_len, start_feature, n_features, mask_value, type,
      time_window; returns (X, y, nb) *)
  load_data : string -> nat -> nat -> nat -> nat -> string -> nat ->
              result (Tensor * list nat * nat);
  (** [model.predict(X, batch_size=..., verbose=False, steps=None)] *)
  predict : Model -> Tensor -> nat -> result (list Q);
  lstm : nat -> nat -> result Model;
  gru : nat -> nat -> result Model;
  (** [class_weight.compute_class_weight('balanced', np.unique(y), y)] *)
  compute_class_weight : list nat -> result (list Q);
  (** [model.compile(loss=..., optimizer=..., metrics=...)] *)
  compile : Model -> result Model;
  (** [model.fit(X, y, epochs=..., batch_size=..., verbose=False,
      shuffle=True, class_weight=...)]: the fitted model *)
  fit : Model -> Tensor -> list nat -> nat -> nat -> Q * Q -> result Model;
  (** [model.save(model_file)] *)
  save : Model -> string -> result unit
}.

(** ** The notebook *)

Module Notebook.

Import Sklearn.

Section Cells.

Context {helper : CMEpredict}.

(** Cell 2.1 *)
Definition mask_value : nat := 0.
Definition series_len : nat := 20.
Definition epochs : nat := 20.
Definition batch_size : nat := 256.
Definition nclass : nat := 2.
Definition start_feature : nat := 4.

(** The global names the cells share, and what they have drawn. *)
Record globals : Type := {
  results : list (string * (list nat * list nat));
  model : option Model;
  (** confusion-matrix figures shown: title and the four cell texts *)
  figures : list (string * list string);
  (** lines plotted on the ROC axes: fpr, tpr, legend label *)
  roc_lines : list (rates * rates * string)
}.

(** A fresh kernel. *)
Definition fresh : globals :=
  {| results := []; model := None; figures := []; roc_lines := [] |}.

(** Statements: they update the globals and may raise; an exception
    leaves the globals as they are at that point. *)
Definition M (A : Type) : Type := globals -> globals * result A.

Definition ret {A} (a : A) : M A := fun g => (g, Ok a).

Definition bindM {A B} (c : M A) (k : A -> M B) : M B :=
  fun g =>
    match c g with
    | (g', Ok a) => k a g'
    | (g', Raise e) => (g', Raise e)
    end.

(** A call into a library: no effect on the notebook's names. *)
Definition call {A} (r : result A) : M A := fun g => (g, r).

Definition set_results (d : list (string * (list nat * list nat))) : M unit :=
  fun g => ({| results := d; model := model g;
               figures := figures g; roc_lines := roc_lines g |}, Ok tt).

Definition set_model (m : Model) : M unit :=
  fun g => ({| results := results g; model := Some m;
               figures := figures g; roc_lines := roc_lines g |}, Ok tt).

(** Reading the name [model]. *)
Definition name_model : M Model :=
  fun g =>
    match model g with
    | Some m => (g, Ok m)
    | None => (g, Raise (NameError "model"))
    end.

(** [results[k] = v] *)
Definition results_setitem (k : string) (v : list nat * list nat) : M unit :=
  fun g => ({| results := setitem (results g) k v; model := model g;
               figures := figures g; roc_lines := roc_lines g |}, Ok tt).

(** [plt.show()] of a confusion-matrix figure. *)
Definition show (title : string) (texts : list string) : M unit :=
  fun g => ({| results := results g; model := model g;
               figures := figures g ++ [(title, texts)];
               roc_lines := roc_lines g |}, Ok tt).

(** [plt.plot(fpr, tpr, label=...)] *)
Definition plot (fpr tpr : rates) (label : string) : M unit :=
  fun g => ({| results := results g; model := model g;
               figures := figures g;
               roc_lines := roc_lines g ++ [(fpr, tpr, label)] |}, Ok tt).

Declare Scope nb_scope.
Delimit Scope nb_scope with nb.
Notation "x <- c1 ;; c2" := (bindM c1 (fun x => c2))
  (at level 61, c1 at next level, right associativity) : nb_scope.
Notation "' pat <- c1 ;; c2" := (bindM c1 (fun x => match x with pat => c2 end))
  (at level 61, pat pattern, c1 at next level, right associativity) : nb_scope.
Notation "c1 ;; c2" := (bindM c1 (fun _ => c2))
  (at level 61, right associativity) : nb_scope.

(** [for x in xs: body] *)
Fixpoint for_each {A} (xs : list A) (body : A -> M unit) : M unit :=
  match xs with
  | [] => ret tt
  | x :: xs' => (body x ;; for_each xs' body)%nb
  end.

(** *** Cell 2.4.1: predicting with the pre-trained models *)

Definition time_windows : list nat := [12; 36; 60].
Definition rnn_types : list string := ["gru"; "lstm"]%string.
Definition cm_grid : list (list string) := [["TN"; "FP"]; ["FN"; "TP"]]%string.

(** [from sklearn.metrics import confusion_matrix as cm] *)
Definition cm := confusion_matrix.

(** [f'{type} {time_window}'] *)
Definition config_name (type : string) (time_window : nat) : string :=
  (type ++ " " ++ str time_window)%string.

(** [f'{cm_grid[i][j]} = {confmat[i][j]}'] *)
Definition cell_text (confmat : list (list nat)) (i j : nat) : result string :=
  (names <- getitem cm_grid i ;;
   name <- getitem names j ;;
   row <- getitem confmat i ;;
   v <- getitem row j ;;
   Ok (name ++ " = " ++ str v)%string)%py.

(** The texts of the two nested [range(2)] loops, in drawing order. *)
Definition cell_texts (confmat : list (list nat)) : result (list string) :=
  (t00 <- cell_text confmat 0 0 ;;
   t01 <- cell_text confmat 0 1 ;;
   t10 <- cell_text confmat 1 0 ;;
   t11 <- cell_text confmat 1 1 ;;
   Ok [t00; t01; t10; t11])%py.

(** The body of the loop over the grid, for one configuration. *)
Definition predict_one (time_window : nat) (type : string) : M unit :=
  (let model_file := ("CMEpredict/" ++ type ++ "-" ++ str time_window ++ "-model.h5")%string in
   ' (n_features, threshold) <- call (get_n_features_thresh type time_window) ;;
   m <- call (load_model model_file) ;;
   set_model m ;;
   let test_data_file :=
     ("CMEpredict/normalized_testing_" ++ str time_window ++ ".csv")%string in
   ' (X_test, y_test, nb_test) <-
       call (load_data test_data_file series_len start_feature n_features
                       mask_value type time_window) ;;
   prob <- call (predict m X_test batch_size) ;;
   let bc := bc threshold prob in
   confmat <- call (cm y_test bc) ;;
   results_setitem (config_name type time_window) (y_test, bc) ;;
   texts <- call (cell_texts confmat) ;;
   show (upper type ++ " " ++ str time_window ++ " Hour Confusion Matrix")%string texts)%nb.

(** The key under which the loop stores configuration [c]. *)
Definition config_key (c : nat * string) : string := config_name (snd c) (fst c).

(** [itertools.product(time_windows, rnn_types)] *)
Definition grid : list (nat * string) := list_prod time_windows rnn_types.

(** The loop over a list of configurations. *)
Definition predict_all (configs : list (nat * string)) : M unit :=
  for_each configs (fun c => predict_one (fst c) (snd c)).

Definition prediction_cell : M unit :=
  (set_results [] ;; predict_all grid)%nb.

(** *** Cell 2.4.2: analysis of the predictions *)

(** [f'{name.upper()} Hour (AUROC = %0.3f)' % r_auc] *)
Definition legend (name : string) (r_auc : pyfloat) : result string :=
  percent_format (upper name ++ " Hour (AUROC = %0.3f)")%string (Some r_auc).

(** The body of the loop over [results.items()]. *)
Definition analyse_one (item : string * (list nat * list nat)) : M unit :=
  (let '(name, (y_test, bc)) := item in
   r_auc <- call (roc_auc_score y_test (as_scores bc)) ;;
   ' (r_fpr, r_tpr) <- call (roc_curve y_test (as_scores bc)) ;;
   label <- call (legend name r_auc) ;;
   plot r_fpr r_tpr label)%nb.

(** The loop, over the items in a given order. *)
Definition analyse (items : list (string * (list nat * list nat))) : M unit :=
  for_each items analyse_one.

Definition analysis_cell : M unit :=
  fun g => analyse (results g) g.

(** *** Cell 2.5: training *)

(** The dispatch on the algorithm:
    [if type is 'lstm': model = lstm(...) elif type is 'gru': model = gru(...)].
    [lit_lstm] and [lit_gru] are the objects of the literals ['lstm']
    and ['gru'] in the two [is] tests; [type] is the object bound to
    the name [type] at the top of the cell. *)
Definition build_model (lit_lstm lit_gru type : pystr) (n_features : nat) : M unit :=
  (if is_ type lit_lstm then
     (m <- call (lstm n_features series_len) ;; set_model m)
   else if is_ type lit_gru then
     (m <- call (gru n_features series_len) ;; set_model m)
   else ret tt)%nb.

(** From [model.compile] to [model.save], on the model [m] that the
    name [model] refers to.  Keras fits the model object in place; the
    embedding rebinds [model] to the fitted model. *)
Definition fit_and_save (m : Model) (time_window : nat) (type : pystr)
           (X_train : Tensor) (y_train : list nat) (class_weight_ : Q * Q) : M unit :=
  (m <- call (compile m) ;;
   m <- call (fit m X_train y_train epochs batch_size class_weight_) ;;
   set_model m ;;
   let model_file :=
     ("CMEpredict/" ++ value type ++ "-" ++ str time_window ++ "-model.h5")%string in
   call (save m model_file))%nb.

(** The statements after the dispatch: the first use of the name
    [model] is [model.compile(...)]. *)
Definition train_and_save (time_window : nat) (type : pystr)
           (X_train : Tensor) (y_train : list nat) (class_weight_ : Q * Q) : M unit :=
  (m <- name_model ;;
   fit_and_save m time_window type X_train y_train class_weight_)%nb.

Definition training_cell (lit_lstm lit_gru : pystr)
           (time_window : nat) (type : pystr) : M unit :=
  (let train_data_file :=
     ("CMEpredict/normalized_training_" ++ str time_window ++ ".csv")%string in
   ' (n_features, thresh) <- call (get_n_features_thresh (value type) time_window) ;;
   ' (X_train, y_train, nb_train) <-
       call (load_data train_data_file series_len start_feature n_features
                       mask_value (value type) time_window) ;;
   class_weights <- call (compute_class_weight y_train) ;;
   w0 <- call (getitem class_weights 0) ;;
   w1 <- call (getitem class_weights 1) ;;
   build_model lit_lstm lit_gru type n_features ;;
   train_and_save time_window type X_train y_train (w0, w1))%nb.

(** *** What the cells compute for one configuration *)

(** The pair the prediction loop stores for a configuration, when every
    call up to the confusion matrix succeeds. *)
Definition stored_value (time_window : nat) (type : string)
  : result (list nat * list nat) :=
  (let model_file := ("CMEpredict/" ++ type ++ "-" ++ str time_window ++ "-model.h5")%string in
   ' (n_features, threshold) <- get_n_features_thresh type time_window ;;
   m <- load_model model_file ;;
   let test_data_file :=
     ("CMEpredict/normalized_testing_" ++ str time_window ++ ".csv")%string in
   ' (X_test, y_test, nb_test) <-
       load_data test_data_file series_len start_feature n_features
                 mask_value type time_window ;;
   prob <- predict m X_test batch_size ;;
   confmat <- cm y_test (bc threshold prob) ;;
   Ok (y_test, bc threshold prob))%py.

(** The AUROC and the plotted line (fpr, tpr, legend label) of one
    stored result. *)
Definition metrics (item : string * (list nat * list nat))
  : result (pyfloat * (rates * rates * string)) :=
  (let '(name, (y_test, bc)) := item in
   r_auc <- roc_auc_score y_test (as_scores bc) ;;
   ' (r_fpr, r_tpr) <- roc_curve y_test (as_scores bc) ;;
   label <- legend name r_auc ;;
   Ok (r_auc, (r_fpr, r_tpr, label)))%py.

(** The line alone. *)
Definition line_of (item : string * (list nat * list nat))
  : result (rates * rates * string) :=
  match metrics item with
  | Ok (_, line) => Ok line
  | Raise e => Raise e
  end.

End Cells.

End Notebook.

(** ** Two small helper modules to run the cells on

    Models are named by their file, and a "tensor" is simply the list of
    probabilities a model will output for it. *)

Module Demo.

Definition labels : list nat := [0; 1; 0; 1].
Definition probabilities : list Q := [1 # 10; 9 # 10; 6 # 10; 4 # 10]%Q.

(** Every model file of the grid is present. *)
Definition complete : CMEpredict := {|
  Model := string;
  Tensor := list Q;
  get_n_features_thresh := fun _ _ => Ok (18, (1 # 2)%Q);
  load_model := fun file => Ok file;
  load_data := fun _ _ _ _ _ _ _ => Ok (probabilities, labels, 4);
  predict := fun _ X _ => Ok X;
  lstm := fun _ _ => Ok "lstm"%string;
  gru := fun _ _ => Ok "gru"%string;
  compute_class_weight := fun _ => Ok [1%Q; 1%Q];
  compile := fun m => Ok m;
  fit := fun m _ _ _ _ _ => Ok m;
  save := fun _ _ => Ok tt
|}.

Definition no_such_file : exception := OSError "No such file or directory".

(** The same, with the file of the LSTM model for 36 hours missing. *)
Definition lstm_36_missing : CMEpredict := {|
  Model := string;
  Tensor := list Q;
  get_n_features_thresh := fun _ _ => Ok (18, (1 # 2)%Q);
  load_model := fun file =>
    if String.eqb file "CMEpredict/lstm-36-model.h5" then Raise no_such_file
    else Ok file;
  load_data := fun _ _ _ _ _ _ _ => Ok (probabilities, labels, 4);
  predict := fun _ X _ => Ok X;
  lstm := fun _ _ => Ok "lstm"%string;
  gru := fun _ _ => Ok "gru"%string;
  compute_class_weight := fun _ => Ok [1%Q; 1%Q];
  compile := fun m => Ok m;
  fit := fun m _ _ _ _ _ => Ok m;
  save := fun _ _ => Ok tt
|}.

(** A testing file with negative samples only, all predicted
    negative. *)
Definition all_negative : CMEpredict := {|
  Model := string;
  Tensor := list Q;
  get_n_features_thresh := fun _ _ => Ok (18, (1 # 2)%Q);
  load_model := fun file => Ok file;
  load_data := fun _ _ _ _ _ _ _ => Ok ([1 # 10; 2 # 10]%Q, [0; 0], 2);
  predict := fun _ X _ => Ok X;
  lstm := fun _ _ => Ok "lstm"%string;
  gru := fun _ _ => Ok "gru"%string;
  compute_class_weight := fun _ => Ok [1%Q];
  compile := fun m => Ok m;
  fit := fun m _ _ _ _ _ => Ok m;
  save := fun _ _ => Ok tt
|}.

End Demo.

(** ** Notions used to state the properties *)

(** False and true positives of a curve point. *)
Definition fps_of (p : nat * nat * Q) : nat := fst (fst p).
Definition tps_of (p : nat * nat * Q) : nat := snd (fst p).

(** [q] has at least the false and the true positives of [p]. *)
Definition below (p q : nat * nat * Q) : Prop :=
  fps_of p <= fps_of q /\ tps_of p <= tps_of q.

(** Negative and positive samples of a batch of (score, is-positive)
    pairs. *)
Definition negatives (l : list (Q * bool)) : nat := count (fun sb => negb (snd sb)) l.
Definition positives (l : list (Q * bool)) : nat := count (fun sb => snd sb) l.

(** ** Further notions *)

(** Whether the character [c] occurs in [s]. *)
Fixpoint occurs (c : ascii) (s : string) : bool :=
  match s with
  | EmptyString => false
  | String c' s' => Ascii.eqb c' c || occurs c s'
  end.

(** The counts behind the operating point of a batch: false and true
    positives among the predictions, negatives and positives among the
    ground truth. *)
Definition false_positives (y_test bc : list nat) : nat :=
  Sklearn.count_pairs 0 1 (combine y_test bc).
Definition true_positives (y_test bc : list nat) : nat :=
  Sklearn.count_pairs 1 1 (combine y_test bc).
Definition actual_negatives (y_test : list nat) : nat :=
  count (fun l => negb (l =? 1)) y_test.
Definition actual_positives (y_test : list nat) : nat :=
  count (fun l => l =? 1) y_test.

(** The operating point of the stored predictions. *)
Definition false_positive_rate (y_test bc : list nat) : Q :=
  Sklearn.rate (false_positives y_test bc) (actual_negatives y_test).
Definition true_positive_rate (y_test bc : list nat) : Q :=
  Sklearn.rate (true_positives y_test bc) (actual_positives y_test).

(** The title of the figure of configuration [c]:
    [f'{type.upper()} {time_window} Hour Confusion Matrix']. *)
Definition figure_title (c : nat * string) : string :=
  (upper (snd c) ++ " " ++ str (fst c) ++ " Hour Confusion Matrix")%string.

(** [line] is the line the analysis cell plots for the stored result
    [item]: its legend label is the upper-cased key, then the AUROC of
    the item, a number between 0 and 1, with three decimals. *)
Definition plotted_for (item : string * (list nat * list nat))
           (line : Sklearn.rates * Sklearn.rates * string) : Prop :=
  exists a,
    Sklearn.roc_auc_score (fst (snd item)) (as_scores (snd (snd item))) = Ok (fin a) /\
    (0 <= a /\ a <= 1)%Q /\
    Sklearn.roc_curve (fst (snd item)) (as_scores (snd (snd item)))
      = Ok (fst (fst line), snd (fst line)) /\
    snd line = (upper (fst item) ++ " Hour (AUROC = " ++ format_0_3f (fin a) ++ ")")%string.

(** Number of samples predicted positive. *)
Definition predicted_positives (bc : list nat) : nat := sum bc.

(** The two nested [range(2)] loops of the prediction cell, text by
    text: [plt.text(j, i, f'{cm_grid[i][j]} = {confmat[i][j]}')] for
    each cell in turn.  The result is the texts drawn on the figure
    before the loops end, and how they end: an exception stops the
    loops and leaves the texts drawn so far on the figure. *)
Fixpoint draw_cells (confmat : list (list nat)) (cells : list (nat * nat))
  : list string * result unit :=
  match cells with
  | [] => ([], Ok tt)
  | (i, j) :: rest =>
      match Notebook.cell_text confmat i j with
      | Ok text =>
          let (texts, r) := draw_cells confmat rest in (text :: texts, r)
      | Raise e => ([], Raise e)
      end
  end.

Definition draw_texts (confmat : list (list nat)) : list string * result unit :=
  draw_cells confmat (list_prod (seq 0 2) (seq 0 2)).

(** * Properties *)

Import Sklearn.

(** ** Sorting *)

Section SortingFacts.
Variable A : Type.
Variable leb : A -> A -> bool.
Hypothesis leb_total : forall a b, leb a b = true \/ leb b a = true.
Hypothesis leb_trans : forall a b c, leb a b = true -> leb b c = true -> leb a c = true.

Lemma insert_perm (x : A) (l : list A) : Permutation (insert leb x l) (x :: l).
Proof.
  induction l as [| y l IH]; simpl.
  - apply Permutation_refl.
  - destruct (leb x y).
    + apply Permutation_refl.
    + apply perm_trans with (y :: x :: l).
      * now apply perm_skip.
      * apply perm_swap.
Qed.

Lemma sort_perm (l : list A) : Permutation (sort leb l) l.
Proof.
  induction l as [| x l IH]; simpl.
  - apply perm_nil.
  - apply perm_trans with (x :: sort leb l).
    + apply insert_perm.
    + now apply perm_skip.
Qed.

Lemma insert_sorted (x : A) (l : list A) :
  StronglySorted (fun a b => leb a b = true) l ->
  StronglySorted (fun a b => leb a b = true) (insert leb x l).
Proof.
  induction 1 as [| y l Hs IH Hall]; simpl.
  - constructor; [constructor | constructor].
  - destruct (leb x y) eqn:E.
    + constructor.
      * now constructor.
      * constructor; [exact E |].
        eapply Forall_impl; [| exact Hall].
        intros z Hz. now apply leb_trans with y.
    + constructor; [exact IH |].
      apply (Permutation_Forall (Permutation_sym (insert_perm x l))).
      constructor; [| exact Hall].
      destruct (leb_total x y) as [H | H]; [congruence | exact H].
Qed.

Lemma sort_sorted (l : list A) :
  StronglySorted (fun a b => leb a b = true) (sort leb l).
Proof.
  induction l as [| x l IH]; simpl.
  - constructor.
  - now apply insert_sorted.
Qed.

End SortingFacts.

(** Reversal turns an ascending list into a descending one. *)
Lemma StronglySorted_rev (A : Type) (R : A -> A -> Prop) (l : list A) :
  StronglySorted R l -> StronglySorted (fun a b => R b a) (rev l).
Proof.
  induction 1 as [| x l Hs IH Hall]; simpl.
  - constructor.
  - clear Hs. revert IH. generalize (Forall_rev Hall). clear Hall.
    generalize (rev l) as r. induction r as [| y r IHr]; simpl; intros Hall IH.
    + constructor; constructor.
    + inversion Hall; subst. inversion IH; subst.
      constructor.
      * now apply IHr.
      * apply Forall_app. split; [assumption |]. constructor; [assumption | constructor].
Qed.

(** ** Sums and counts *)

Lemma count_cons (A : Type) (f : A -> bool) (x : A) (l : list A) :
  count f (x :: l) = (if f x then 1 else 0) + count f l.
Proof. unfold count. simpl. now destruct (f x). Qed.

Lemma count_perm (A : Type) (f : A -> bool) (l l' : list A) :
  Permutation l l' -> count f l = count f l'.
Proof.
  induction 1; rewrite ?count_cons; lia.
Qed.

(** ** Thresholding *)

Lemma classify_iff (p t : Q) :
  (classify p t = 1 <-> (t <= p)%Q) /\ (classify p t = 0 <-> ~ (t <= p)%Q).
Proof.
  unfold classify. destruct (Qle_bool t p) eqn:E.
  - apply Qle_bool_iff in E. repeat split; auto; try discriminate.
    intros H. contradiction.
  - assert (Hn : ~ (t <= p)%Q) by (intros H; apply Qle_bool_iff in H; congruence).
    repeat split; auto; try discriminate. intros H. contradiction.
Qed.

(** C1: the binary classification of [p] at threshold [t] is 1 exactly
    when [p >= t], the boundary [p = t] included, and 0 otherwise; the
    list [bc] holds that classification of every probability, in
    order. *)
Theorem classify_inclusive :
  forall (p t : Q) (prob : list Q),
    (classify p t = 1 <-> (t <= p)%Q) /\
    (classify p t = 0 <-> ~ (t <= p)%Q) /\
    classify t t = 1 /\
    Forall2 (fun q b => (b = 1 <-> (t <= q)%Q) /\ (b = 0 <-> ~ (t <= q)%Q))
            prob (bc t prob).
Proof.
  intros p t prob.
  destruct (classify_iff p t) as [H1 H0].
  split; [exact H1 |]. split; [exact H0 |]. split.
  - apply (proj1 (classify_iff t t)). apply Qle_refl.
  - induction prob as [| q prob IH]; simpl; constructor.
    + apply classify_iff.
    + exact IH.
Qed.

(** ** The confusion matrix *)

Lemma count_pairs_cons (a b x y : nat) (ps : list (nat * nat)) :
  count_pairs a b ((x, y) :: ps) =
  (if (x =? a) && (y =? b) then 1 else 0) + count_pairs a b ps.
Proof. unfold count_pairs. now rewrite count_cons. Qed.

Lemma row_sum_cons (a x y : nat) (ps : list (nat * nat)) (cols : list nat) :
  sum (map (fun b => count_pairs a b ((x, y) :: ps)) cols) =
  (if x =? a then count_occ Nat.eq_dec cols y else 0) +
  sum (map (fun b => count_pairs a b ps) cols).
Proof.
  induction cols as [| b cols IH]; simpl sum at 1; simpl map.
  - now destruct (x =? a).
  - rewrite count_pairs_cons. simpl sum. rewrite IH. simpl count_occ.
    destruct (x =? a); simpl.
    + destruct (Nat.eq_dec b y) as [-> | Hne].
      * rewrite Nat.eqb_refl. lia.
      * assert (E : (y =? b) = false) by (apply Nat.eqb_neq; congruence).
        rewrite E. lia.
    + lia.
Qed.

Lemma cells_sum_cons (x y : nat) (ps : list (nat * nat)) (rows cols : list nat) :
  sum_cells (map (fun a => map (fun b => count_pairs a b ((x, y) :: ps)) cols) rows) =
  count_occ Nat.eq_dec rows x * count_occ Nat.eq_dec cols y +
  sum_cells (map (fun a => map (fun b => count_pairs a b ps) cols) rows).
Proof.
  unfold sum_cells. rewrite !map_map.
  induction rows as [| a rows IH]; simpl.
  - reflexivity.
  - rewrite IH, row_sum_cons.
    destruct (Nat.eq_dec a x) as [-> | Hne].
    + rewrite Nat.eqb_refl. lia.
    + assert (E : (x =? a) = false) by (apply Nat.eqb_neq; congruence).
      rewrite E. lia.
Qed.

Lemma count_occ_once (l : list nat) (x : nat) :
  NoDup l -> In x l -> count_occ Nat.eq_dec l x = 1.
Proof.
  intros Hnd Hin.
  pose proof (proj1 (NoDup_count_occ Nat.eq_dec l) Hnd x) as Hle.
  pose proof (proj1 (count_occ_In Nat.eq_dec l x) Hin) as Hpos.
  lia.
Qed.

Lemma cells_sum_nil (rows cols : list nat) :
  sum_cells (map (fun a => map (fun b => count_pairs a b []) cols) rows) = 0.
Proof.
  unfold sum_cells. rewrite map_map.
  induction rows as [| a rows IH]; simpl; [reflexivity |].
  rewrite IH, Nat.add_0_r.
  induction cols as [| b cols IHc]; simpl; auto.
Qed.

(** Over labels that are pairwise distinct and cover both sequences,
    the cells add up to the number of pairs. *)
Lemma cells_sum_total (labels : list nat) (ps : list (nat * nat)) :
  NoDup labels ->
  (forall x y, In (x, y) ps -> In x labels /\ In y labels) ->
  sum_cells (map (fun a => map (fun b => count_pairs a b ps) labels) labels) = length ps.
Proof.
  intros Hnd. induction ps as [| [x y] ps IH]; intros Hin.
  - apply cells_sum_nil.
  - rewrite cells_sum_cons.
    destruct (Hin x y (or_introl eq_refl)) as [Hx Hy].
    rewrite !count_occ_once by assumption.
    rewrite IH; [reflexivity |].
    intros x' y' H'. apply Hin. now right.
Qed.

Lemma unique_perm (y : list nat) : Permutation (unique y) (nodup Nat.eq_dec y).
Proof. apply sort_perm. Qed.

Lemma unique_NoDup (y : list nat) : NoDup (unique y).
Proof.
  apply (Permutation_NoDup (Permutation_sym (unique_perm y))). apply NoDup_nodup.
Qed.

Lemma unique_In (y : list nat) (x : nat) : In x (unique y) <-> In x y.
Proof.
  split; intros H.
  - apply (Permutation_in _ (unique_perm y)) in H. now apply nodup_In in H.
  - apply (Permutation_in _ (Permutation_sym (unique_perm y))). now apply nodup_In.
Qed.

Lemma nat_leb_total (a b : nat) : (a <=? b) = true \/ (b <=? a) = true.
Proof. destruct (Nat.leb_spec a b); [now left | right; apply Nat.leb_le; lia]. Qed.

Lemma nat_leb_trans (a b c : nat) :
  (a <=? b) = true -> (b <=? c) = true -> (a <=? c) = true.
Proof. rewrite !Nat.leb_le. lia. Qed.

Lemma unique_sorted (y : list nat) : StronglySorted lt (unique y).
Proof.
  pose proof (sort_sorted Nat.leb nat_leb_total nat_leb_trans (nodup Nat.eq_dec y)) as Hs.
  pose proof (unique_NoDup y) as Hnd. unfold unique in *.
  induction Hs as [| x l Hs IH Hall].
  - constructor.
  - inversion Hnd; subst. constructor; [now apply IH |].
    apply Forall_forall. intros z Hz.
    rewrite Forall_forall in Hall. specialize (Hall z Hz).
    apply Nat.leb_le in Hall.
    assert (x <> z) by (intros ->; contradiction). lia.
Qed.

(** Labels drawn from {0, 1} with both present: the label list is
    [0; 1]. *)
Lemma unique_binary (y : list nat) :
  Forall (fun l => l <= 1) y -> In 0 y -> In 1 y -> unique y = [0; 1].
Proof.
  intros Hb H0 H1.
  pose proof (unique_sorted y) as Hs.
  assert (Hin : forall x, In x (unique y) <-> x = 0 \/ x = 1).
  { intros x. rewrite unique_In. split.
    - intros Hx. rewrite Forall_forall in Hb. specialize (Hb x Hx). lia.
    - intros [-> | ->]; assumption. }
  destruct (unique y) as [| a [| b [| c l]]].
  - exfalso. apply (proj2 (Hin 0)); auto.
  - pose proof (proj2 (Hin 0) (or_introl eq_refl)) as Ha.
    pose proof (proj2 (Hin 1) (or_intror eq_refl)) as Hb'.
    simpl in *. lia.
  - inversion Hs as [| ? ? _ Hall]; subst. inversion Hall; subst.
    pose proof (proj1 (Hin a) (or_introl eq_refl)).
    pose proof (proj1 (Hin b) (or_intror (or_introl eq_refl))).
    f_equal; [| f_equal]; lia.
  - exfalso.
    inversion Hs as [| ? ? Hs' Hall]; subst.
    inversion Hall as [| ? ? Hab Hall']; subst. inversion Hall' as [| ? ? Hac _]; subst.
    inversion Hs' as [| ? ? _ Hall'']; subst. inversion Hall'' as [| ? ? Hbc _]; subst.
    pose proof (proj1 (Hin c) (or_intror (or_intror (or_introl eq_refl)))).
    lia.
Qed.

Lemma bc_length (threshold : Q) (prob : list Q) : length (bc threshold prob) = length prob.
Proof. apply length_map. Qed.

Lemma bc_binary (threshold : Q) (prob : list Q) : Forall (fun l => l <= 1) (bc threshold prob).
Proof.
  apply Forall_forall. intros l Hl. apply in_map_iff in Hl.
  destruct Hl as [p [<- _]]. unfold classify. destruct (Qle_bool threshold p); lia.
Qed.

Lemma in_combine_both (A B : Type) (l : list A) (l' : list B) (x : A) (y : B) :
  In (x, y) (combine l l') -> In x l /\ In y l'.
Proof. intros H. split; [eapply in_combine_l | eapply in_combine_r]; exact H. Qed.

(** Whatever labels occur, the cells of the matrix add up to the number
    of samples. *)
Lemma confusion_matrix_total (y_true y_pred : list nat) :
  length y_true = length y_pred ->
  exists confmat,
    confusion_matrix y_true y_pred = Ok confmat /\
    sum_cells confmat = length y_true.
Proof.
  intros Hlen. unfold confusion_matrix. rewrite Hlen, Nat.eqb_refl.
  eexists. split; [reflexivity |].
  rewrite cells_sum_total.
  - rewrite length_combine. lia.
  - apply unique_NoDup.
  - intros x y H. apply in_combine_both in H. destruct H as [Hx Hy].
    unfold unique_labels. rewrite !unique_In, !in_app_iff. auto.
Qed.

(** With labels in {0, 1} and both of them occurring among the true and
    predicted labels, the matrix is [[TN, FP], [FN, TP]], each cell the
    number of samples with that (true, predicted) pair. *)
Lemma confusion_matrix_binary (y_true y_pred : list nat) :
  length y_true = length y_pred ->
  Forall (fun l => l <= 1) y_true ->
  Forall (fun l => l <= 1) y_pred ->
  In 0 (y_true ++ y_pred) ->
  In 1 (y_true ++ y_pred) ->
  confusion_matrix y_true y_pred =
  Ok [[count_pairs 0 0 (combine y_true y_pred); count_pairs 0 1 (combine y_true y_pred)];
      [count_pairs 1 0 (combine y_true y_pred); count_pairs 1 1 (combine y_true y_pred)]].
Proof.
  intros Hlen Ht Hp H0 H1. unfold confusion_matrix, unique_labels.
  rewrite Hlen, Nat.eqb_refl.
  rewrite unique_binary; [reflexivity | | assumption | assumption].
  apply Forall_app. now split.
Qed.

(** The scenario of the spec: ground truth [0,1,0,1], probabilities
    [0.1, 0.9, 0.6, 0.4], threshold 0.5. *)
Example scenario_confusion_matrix :
  bc (1 # 2) [1 # 10; 9 # 10; 6 # 10; 4 # 10]%Q = [0; 1; 1; 0] /\
  Notebook.cm [0; 1; 0; 1] [0; 1; 1; 0] = Ok [[1; 1]; [1; 1]] /\
  Notebook.cell_texts [[1; 1]; [1; 1]] = Ok ["TN = 1"; "FP = 1"; "FN = 1"; "TP = 1"]%string.
Proof. repeat split. Qed.

(** C4: on a batch in which a single label occurs among ground truth and
    predictions, [cm(y_test, bc)] is a 1x1 matrix, and reading its four
    cells for the TN/FP/FN/TP texts raises [IndexError]: the iteration
    stores its result and stops before the figure is shown. *)
Theorem single_label_batch_matrix :
  let g := fst (Notebook.predict_one (helper := Demo.all_negative) 12 "gru" Notebook.fresh) in
  bc (1 # 2) [1 # 10; 2 # 10]%Q = [0; 0] /\
  Notebook.cm [0; 0] (bc (1 # 2) [1 # 10; 2 # 10]%Q) = Ok [[2]] /\
  Notebook.cell_texts [[2]] = Raise (IndexError "list index out of range") /\
  Notebook.predict_one (helper := Demo.all_negative) 12 "gru" Notebook.fresh =
    (g, Raise (IndexError "list index out of range")) /\
  Notebook.results g = [("gru 12"%string, ([0; 0], [0; 0]))] /\
  Notebook.figures g = [].
Proof. vm_compute. repeat split. Qed.

(** C5: the cells of the confusion matrix of a batch of N samples add up
    to N; whenever the matrix is [[TN, FP], [FN, TP]], as it is when both
    labels of {0, 1} occur in the batch, TN + FP + FN + TP = N. *)
Theorem confusion_counts_sum :
  forall (y_test : list nat) (threshold : Q) (prob : list Q),
    length y_test = length prob ->
    exists confmat,
      Notebook.cm y_test (bc threshold prob) = Ok confmat /\
      sum_cells confmat = length y_test /\
      (forall tn fp fn tp,
          confmat = [[tn; fp]; [fn; tp]] -> tn + fp + fn + tp = length y_test) /\
      (Forall (fun l => l <= 1) y_test ->
       In 0 (y_test ++ bc threshold prob) ->
       In 1 (y_test ++ bc threshold prob) ->
       exists tn fp fn tp, confmat = [[tn; fp]; [fn; tp]]).
Proof.
  intros y_test threshold prob Hlen.
  assert (Hlen' : length y_test = length (bc threshold prob)) by now rewrite bc_length.
  destruct (confusion_matrix_total y_test (bc threshold prob) Hlen')
    as [confmat [Hcm Hsum]].
  exists confmat. split; [exact Hcm |]. split; [exact Hsum |]. split.
  - intros tn fp fn tp ->. rewrite <- Hsum. unfold sum_cells. simpl. lia.
  - intros Hy H0 H1.
    pose proof (confusion_matrix_binary Hlen' Hy (bc_binary threshold prob) H0 H1)
      as Hbin.
    unfold Notebook.cm in Hcm. rewrite Hbin in Hcm. injection Hcm as <-.
    do 4 eexists. reflexivity.
Qed.

Lemma confusion_counts_sum_witness :
  exists confmat,
    Notebook.cm [0; 1; 0; 1] (bc (1 # 2) [1 # 10; 9 # 10; 6 # 10; 4 # 10]%Q) = Ok confmat /\
    sum_cells confmat = 4 /\
    (forall tn fp fn tp,
        confmat = [[tn; fp]; [fn; tp]] -> tn + fp + fn + tp = 4) /\
    (Forall (fun l => l <= 1) [0; 1; 0; 1] ->
     In 0 ([0; 1; 0; 1] ++ bc (1 # 2) [1 # 10; 9 # 10; 6 # 10; 4 # 10]%Q) ->
     In 1 ([0; 1; 0; 1] ++ bc (1 # 2) [1 # 10; 9 # 10; 6 # 10; 4 # 10]%Q) ->
     exists tn fp fn tp, confmat = [[tn; fp]; [fn; tp]]).
Proof.
  apply (@confusion_counts_sum [0; 1; 0; 1] (1 # 2) [1 # 10; 9 # 10; 6 # 10; 4 # 10]%Q).
  reflexivity.
Defined.

(** ** Rates *)

Lemma rate_eq (k total : nat) : (rate k total == Z.of_nat k # Pos.of_nat total)%Q.
Proof. apply Qred_correct. Qed.

Lemma rate_le (k k' total : nat) : k <= k' -> (rate k total <= rate k' total)%Q.
Proof.
  intros H. rewrite !rate_eq. unfold Qle. simpl.
  apply Z.mul_le_mono_nonneg_r; lia.
Qed.

Lemma rate_nonneg (k total : nat) : (0 <= rate k total)%Q.
Proof. rewrite rate_eq. unfold Qle. simpl. lia. Qed.

Lemma Zpos_of_nat (n : nat) : 0 < n -> Zpos (Pos.of_nat n) = Z.of_nat n.
Proof.
  intros H. rewrite <- positive_nat_Z. f_equal. apply Nat2Pos.id. lia.
Qed.

Lemma rate_le_1 (k total : nat) : 0 < total -> k <= total -> (rate k total <= 1)%Q.
Proof.
  intros Hpos H. rewrite rate_eq. unfold Qle. simpl.
  rewrite Zpos_of_nat by assumption. lia.
Qed.

Lemma rate_zero (total : nat) : rate 0 total = 0%Q.
Proof.
  unfold rate. change 0%Q with (Qred 0). apply Qred_complete.
  unfold Qeq. simpl. reflexivity.
Qed.

Lemma rate_full (total : nat) : 0 < total -> rate total total = 1%Q.
Proof.
  intros H. unfold rate. change 1%Q with (Qred 1). apply Qred_complete.
  unfold Qeq. simpl. rewrite Zpos_of_nat by assumption. lia.
Qed.

(** ** Trapezoidal area *)

Lemma trapz_bounds (xs ys : list Q) :
  length xs = length ys ->
  StronglySorted Qle xs ->
  Forall (fun y => 0 <= y /\ y <= 1)%Q ys ->
  (0 <= trapz ys xs /\ trapz ys xs <= last xs 0 - hd 0 xs)%Q.
Proof.
  revert ys. induction xs as [| x0 xs IH]; intros ys Hlen Hs Hy.
  - destruct ys; simpl; lra.
  - destruct ys as [| y0 ys]; [discriminate |].
    destruct xs as [| x1 xs].
    + simpl. lra.
    + destruct ys as [| y1 ys]; [discriminate |].
      inversion Hs as [| ? ? Hs' Hall]; subst.
      inversion Hall as [| ? ? Hx01 _]; subst.
      inversion Hy as [| ? ? Hy0 Hy']; subst.
      pose proof Hy' as Hy''. inversion Hy'' as [| ? ? Hy1 _]; subst.
      assert (Hlen' : length (x1 :: xs) = length (y1 :: ys)) by (simpl in *; lia).
      destruct (IH (y1 :: ys) Hlen' Hs' Hy') as [IHlo IHhi].
      change (trapz (y0 :: y1 :: ys) (x0 :: x1 :: xs))
        with ((x1 - x0) * ((y1 + y0) / 2) + trapz (y1 :: ys) (x1 :: xs))%Q.
      change (last (x0 :: x1 :: xs) 0%Q) with (last (x1 :: xs) 0%Q).
      simpl hd in *.
      assert (Hm : (0 <= (y1 + y0) / 2 /\ (y1 + y0) / 2 <= 1)%Q).
      { unfold Qdiv. change (/ 2)%Q with (1 # 2)%Q. lra. }
      set (m := ((y1 + y0) / 2)%Q) in *.
      split; nra.
Qed.

Lemma diff_sorted (xs : list Q) :
  StronglySorted Qle xs -> existsb Qneg_bool (diff xs) = false.
Proof.
  induction 1 as [| x xs Hs IH Hall]; [reflexivity |].
  destruct xs as [| x' xs]; [reflexivity |].
  change (existsb Qneg_bool (diff (x :: x' :: xs)))
    with (Qneg_bool (x' - x) || existsb Qneg_bool (diff (x' :: xs))).
  rewrite IH, orb_false_r.
  inversion Hall; subst. unfold Qneg_bool.
  assert (H : Qle_bool 0 (x' - x) = true) by (apply Qle_bool_iff; lra).
  now rewrite H.
Qed.

Lemma StronglySorted_map (A B : Type) (R : A -> A -> Prop) (S : B -> B -> Prop)
      (f : A -> B) (l : list A) :
  (forall a b, R a b -> S (f a) (f b)) ->
  StronglySorted R l -> StronglySorted S (map f l).
Proof.
  intros Hf. induction 1 as [| x l Hs IH Hall]; simpl; constructor.
  - assumption.
  - apply Forall_map. eapply Forall_impl; [| exact Hall]. intros a Ha. now apply Hf.
Qed.

(** ** The threshold walk *)

Lemma clf_walk_cons2 (fp tp : nat) (s s' : Q) (b b' : bool) (l : list (Q * bool)) :
  clf_walk fp tp ((s, b) :: (s', b') :: l) =
  if Qeq_bool s s'
  then clf_walk (if b then fp else S fp) (if b then S tp else tp) ((s', b') :: l)
  else ((if b then fp else S fp), (if b then S tp else tp), s)
         :: clf_walk (if b then fp else S fp) (if b then S tp else tp) ((s', b') :: l).
Proof. reflexivity. Qed.

Lemma clf_walk_lower (l : list (Q * bool)) :
  forall fp tp,
    Forall (fun p => fp <= fps_of p /\ tp <= tps_of p) (clf_walk fp tp l).
Proof.
  induction l as [| [s b] l IH]; intros fp tp.
  - constructor.
  - destruct l as [| [s' b'] l].
    + simpl. constructor; [| constructor].
      unfold fps_of, tps_of. simpl. destruct b; lia.
    + rewrite clf_walk_cons2.
      assert (Hrest : Forall (fun p => fp <= fps_of p /\ tp <= tps_of p)
                        (clf_walk (if b then fp else S fp) (if b then S tp else tp)
                                  ((s', b') :: l))).
      { eapply Forall_impl; [| apply IH]. intros p [H1 H2]. destruct b; lia. }
      destruct (Qeq_bool s s'); [exact Hrest |].
      constructor; [| exact Hrest].
      unfold fps_of, tps_of. simpl. destruct b; lia.
Qed.

Lemma clf_walk_sorted (l : list (Q * bool)) :
  forall fp tp, StronglySorted below (clf_walk fp tp l).
Proof.
  induction l as [| [s b] l IH]; intros fp tp.
  - constructor.
  - destruct l as [| [s' b'] l].
    + simpl. constructor; constructor.
    + rewrite clf_walk_cons2.
      destruct (Qeq_bool s s'); [apply IH |].
      constructor; [apply IH |].
      eapply Forall_impl; [| apply clf_walk_lower].
      intros p [H1 H2]. split; assumption.
Qed.

Lemma clf_walk_nonempty (l : list (Q * bool)) :
  l <> [] -> forall fp tp, clf_walk fp tp l <> [].
Proof.
  induction l as [| [s b] l IH]; intros Hne fp tp; [congruence |].
  destruct l as [| [s' b'] l].
  - simpl. discriminate.
  - rewrite clf_walk_cons2. destruct (Qeq_bool s s'); [| discriminate].
    apply IH. discriminate.
Qed.

Lemma clf_walk_last (l : list (Q * bool)) :
  l <> [] ->
  forall fp tp d,
    fst (last (clf_walk fp tp l) d) = (fp + negatives l, tp + positives l).
Proof.
  induction l as [| [s b] l IH]; intros Hne fp tp d; [congruence |].
  destruct l as [| [s' b'] l].
  - unfold negatives, positives, count. simpl. destruct b; simpl; f_equal; lia.
  - rewrite clf_walk_cons2.
    assert (Hrest : fst (last (clf_walk (if b then fp else S fp) (if b then S tp else tp)
                                        ((s', b') :: l)) d)
                    = (fp + negatives ((s, b) :: (s', b') :: l),
                       tp + positives ((s, b) :: (s', b') :: l))).
    { rewrite IH by discriminate.
      unfold negatives, positives.
      rewrite (count_cons _ (s, b)), (count_cons (fun sb => snd sb) (s, b)).
      simpl. destruct b; simpl; f_equal; lia. }
    destruct (Qeq_bool s s'); [exact Hrest |].
    rewrite <- Hrest.
    pose proof (@clf_walk_nonempty ((s', b') :: l) ltac:(discriminate)
                  (if b then fp else S fp) (if b then S tp else tp)) as Hw.
    destruct (clf_walk (if b then fp else S fp) (if b then S tp else tp) ((s', b') :: l));
      [congruence | reflexivity].
Qed.

Lemma clf_walk_upper (l : list (Q * bool)) :
  forall fp tp,
    Forall (fun p => fps_of p <= fp + negatives l /\ tps_of p <= tp + positives l)
           (clf_walk fp tp l).
Proof.
  induction l as [| [s b] l IH]; intros fp tp.
  - constructor.
  - assert (Hn : negatives ((s, b) :: l) = (if b then 0 else 1) + negatives l).
    { unfold negatives. rewrite count_cons. simpl. now destruct b. }
    assert (Hp : positives ((s, b) :: l) = (if b then 1 else 0) + positives l).
    { unfold positives. rewrite count_cons. simpl. now destruct b. }
    destruct l as [| [s' b'] l].
    + simpl. constructor; [| constructor].
      unfold fps_of, tps_of. simpl. destruct b; lia.
    + rewrite clf_walk_cons2, Hn, Hp.
      assert (Hrest : Forall (fun p => fps_of p <= fp + ((if b then 0 else 1)
                                                         + negatives ((s', b') :: l)) /\
                                       tps_of p <= tp + ((if b then 1 else 0)
                                                         + positives ((s', b') :: l)))
                        (clf_walk (if b then fp else S fp) (if b then S tp else tp)
                                  ((s', b') :: l))).
      { eapply Forall_impl; [| apply IH]. intros p [H1 H2]. destruct b; lia. }
      destruct (Qeq_bool s s'); [exact Hrest |].
      constructor; [| exact Hrest].
      unfold fps_of, tps_of. simpl. destruct b; lia.
Qed.

(** ** Dropping intermediate points *)

Lemma drop_mid_cons2 (prev cur next : nat * nat * Q) (l : list (nat * nat * Q)) :
  drop_mid prev (cur :: next :: l) =
  if bends prev cur next then cur :: drop_mid cur (next :: l)
  else drop_mid cur (next :: l).
Proof. reflexivity. Qed.

Lemma drop_mid_Forall (P : nat * nat * Q -> Prop) (l : list (nat * nat * Q)) :
  forall prev, Forall P l -> Forall P (drop_mid prev l).
Proof.
  induction l as [| cur l IH]; intros prev H; [constructor |].
  destruct l as [| next l]; [exact H |].
  rewrite drop_mid_cons2. inversion H; subst.
  destruct (bends prev cur next); [constructor; [assumption |] |]; now apply IH.
Qed.

Lemma drop_mid_sorted (R : nat * nat * Q -> nat * nat * Q -> Prop)
      (l : list (nat * nat * Q)) :
  forall prev, StronglySorted R l -> StronglySorted R (drop_mid prev l).
Proof.
  induction l as [| cur l IH]; intros prev H; [constructor |].
  destruct l as [| next l]; [exact H |].
  rewrite drop_mid_cons2. inversion H; subst.
  destruct (bends prev cur next); [| now apply IH].
  constructor; [now apply IH | now apply drop_mid_Forall].
Qed.

Lemma drop_mid_last (l : list (nat * nat * Q)) :
  forall prev d, last (drop_mid prev l) d = last l d.
Proof.
  induction l as [| cur l IH]; intros prev d; [reflexivity |].
  destruct l as [| next l]; [reflexivity |].
  rewrite drop_mid_cons2.
  change (last (cur :: next :: l) d) with (last (next :: l) d).
  rewrite <- (IH cur d).
  destruct (bends prev cur next); [| reflexivity].
  destruct (drop_mid cur (next :: l)) eqn:E; [| reflexivity].
  exfalso. revert E. clear. revert cur next.
  induction l as [| x l IHl]; intros cur next; [discriminate |].
  rewrite drop_mid_cons2. destruct (bends cur next x); [discriminate | apply IHl].
Qed.

Lemma drop_intermediate_Forall (P : nat * nat * Q -> Prop) (pts : list (nat * nat * Q)) :
  Forall P pts -> Forall P (drop_intermediate pts).
Proof.
  intros H. unfold drop_intermediate. destruct pts as [| first rest]; [constructor |].
  destruct (2 <? length (first :: rest)); [| exact H].
  inversion H; subst. constructor; [assumption | now apply drop_mid_Forall].
Qed.

Lemma drop_intermediate_sorted (R : nat * nat * Q -> nat * nat * Q -> Prop)
      (pts : list (nat * nat * Q)) :
  StronglySorted R pts -> StronglySorted R (drop_intermediate pts).
Proof.
  intros H. unfold drop_intermediate. destruct pts as [| first rest]; [constructor |].
  destruct (2 <? length (first :: rest)); [| exact H].
  inversion H; subst.
  constructor; [now apply drop_mid_sorted | now apply drop_mid_Forall].
Qed.

Lemma drop_intermediate_last (pts : list (nat * nat * Q)) (d : nat * nat * Q) :
  last (drop_intermediate pts) d = last pts d.
Proof.
  unfold drop_intermediate. destruct pts as [| first rest]; [reflexivity |].
  destruct (2 <? length (first :: rest)); [| reflexivity].
  destruct rest as [| x rest]; [reflexivity |].
  change (last (first :: x :: rest) d) with (last (x :: rest) d).
  rewrite <- (drop_mid_last (x :: rest) first d).
  destruct (drop_mid first (x :: rest)) eqn:E; [| reflexivity].
  exfalso. revert E. clear. revert first x.
  induction rest as [| y l IHl]; intros first x; [discriminate |].
  rewrite drop_mid_cons2. destruct (bends first x y); [discriminate | apply IHl].
Qed.

Lemma drop_intermediate_nonempty (pts : list (nat * nat * Q)) :
  pts <> [] -> drop_intermediate pts <> [].
Proof.
  unfold drop_intermediate. destruct pts as [| first rest]; [congruence |].
  intros _. destruct (2 <? length (first :: rest)); discriminate.
Qed.

Lemma drop_intermediate_short (pts : list (nat * nat * Q)) :
  length pts <= 2 -> drop_intermediate pts = pts.
Proof.
  intros H. unfold drop_intermediate. destruct pts as [| first rest]; [reflexivity |].
  assert (E : (2 <? length (first :: rest)) = false) by (apply Nat.ltb_ge; exact H).
  now rewrite E.
Qed.

(** ** Samples *)

Lemma by_decreasing_score_perm (l : list (Q * bool)) :
  Permutation (by_decreasing_score l) l.
Proof.
  unfold by_decreasing_score.
  apply perm_trans with (sort score_leb l).
  - apply Permutation_sym, Permutation_rev.
  - apply sort_perm.
Qed.

Lemma map_snd_combine (A B : Type) (l : list A) (l' : list B) :
  length l = length l' -> map snd (combine l l') = l'.
Proof.
  revert l'. induction l as [| a l IH]; intros [| b l'] H; simpl in *; try congruence.
  f_equal. apply IH. lia.
Qed.

Lemma map_fst_combine (A B : Type) (l : list A) (l' : list B) :
  length l = length l' -> map fst (combine l l') = l.
Proof.
  revert l'. induction l as [| a l IH]; intros [| b l'] H; simpl in *; try congruence.
  f_equal. apply IH. lia.
Qed.

Lemma count_map (A B : Type) (g : A -> B) (f : B -> bool) (l : list A) :
  count f (map g l) = count (fun a => f (g a)) l.
Proof.
  induction l as [| a l IH]; [reflexivity |].
  simpl map. rewrite !count_cons. now rewrite IH.
Qed.

Lemma count_positive (A : Type) (f : A -> bool) (l : list A) (x : A) :
  In x l -> f x = true -> 0 < count f l.
Proof.
  induction l as [| a l IH]; intros Hin Hf; [contradiction |].
  rewrite count_cons. destruct Hin as [-> | Hin].
  - rewrite Hf. lia.
  - specialize (IH Hin Hf). lia.
Qed.

Lemma negatives_samples (y_true : list nat) (y_score : list Q) :
  length y_true = length y_score ->
  negatives (combine y_score (map (fun l => l =? 1) y_true)) =
  count (fun l => negb (l =? 1)) y_true.
Proof.
  intros H. unfold negatives.
  rewrite <- (count_map snd negb), map_snd_combine by (rewrite length_map; lia).
  now rewrite count_map.
Qed.

Lemma positives_samples (y_true : list nat) (y_score : list Q) :
  length y_true = length y_score ->
  positives (combine y_score (map (fun l => l =? 1) y_true)) =
  count (fun l => l =? 1) y_true.
Proof.
  intros H. unfold positives.
  rewrite <- (count_map snd (fun b => b)), map_snd_combine by (rewrite length_map; lia).
  now rewrite count_map.
Qed.

Lemma last_cons_map (A B : Type) (f : A -> B) (l : list A) (b0 : B) (d : A) :
  l <> [] -> last (b0 :: map f l) b0 = f (last l d).
Proof.
  intros H. destruct l as [| a l]; [congruence |].
  change (last (b0 :: map f (a :: l)) b0) with (last (map f (a :: l)) b0).
  clear H. revert a. induction l as [| x l IH]; intros a; [reflexivity |].
  change (last (map f (a :: x :: l)) b0) with (last (map f (x :: l)) b0).
  change (last (a :: x :: l) d) with (last (x :: l) d).
  apply IH.
Qed.

(** ** The ROC curve of a batch with both classes *)

Lemma roc_curve_binary (y_true : list nat) (y_score : list Q) :
  length y_true = length y_score ->
  Forall (fun l => l <= 1) y_true ->
  In 0 y_true -> In 1 y_true ->
  let N := count (fun l => negb (l =? 1)) y_true in
  let P := count (fun l => l =? 1) y_true in
  let pts := drop_intermediate
               (clf_walk 0 0 (by_decreasing_score
                                (combine y_score (map (fun l => l =? 1) y_true)))) in
  roc_curve y_true y_score =
    Ok (Rates (map (fun k => rate k N) (0 :: map fps_of pts)),
        Rates (map (fun k => rate k P) (0 :: map tps_of pts))) /\
  pts <> [] /\
  StronglySorted below pts /\
  Forall (fun p => fps_of p <= N /\ tps_of p <= P) pts /\
  (forall d, fst (last pts d) = (N, P)) /\
  0 < N /\ 0 < P.
Proof.
  intros Hlen Hb H0 H1 N P pts.
  set (samples := combine y_score (map (fun l => l =? 1) y_true)) in *.
  set (L := by_decreasing_score samples) in *.
  assert (HL : L <> []).
  { intros E. pose proof (by_decreasing_score_perm samples) as Hp.
    fold L in Hp. rewrite E in Hp. apply Permutation_nil in Hp.
    assert (Hl : length samples = length y_true).
    { unfold samples. rewrite length_combine, length_map. lia. }
    rewrite Hp in Hl. destruct y_true; [contradiction | discriminate]. }
  assert (HN : negatives L = N).
  { unfold negatives. rewrite (count_perm _ (by_decreasing_score_perm samples)).
    now apply negatives_samples. }
  assert (HP : positives L = P).
  { unfold positives. rewrite (count_perm _ (by_decreasing_score_perm samples)).
    now apply positives_samples. }
  assert (HNpos : 0 < N) by (apply (@count_positive _ _ y_true 0); auto).
  assert (HPpos : 0 < P) by (apply (@count_positive _ _ y_true 1); auto).
  assert (Hne : pts <> []) by (apply drop_intermediate_nonempty, clf_walk_nonempty, HL).
  assert (Hlast : forall d, fst (last pts d) = (N, P)).
  { intros d. unfold pts. rewrite drop_intermediate_last.
    rewrite clf_walk_last by exact HL. now rewrite HN, HP. }
  repeat split; try assumption.
  - unfold roc_curve, binary_clf_curve.
    rewrite (unique_binary Hb H0 H1).
    change (2 <? length [0; 1]) with false.
    change (pos_label_consistent [0; 1]) with true.
    rewrite Hlen, Nat.eqb_refl. cbn [negb]. cbv iota.
    unfold Py.bind. fold samples. fold L. fold pts.
    unfold normalise.
    change (map (fun p : nat * nat * Q => fst (fst p)) pts) with (map fps_of pts).
    change (map (fun p : nat * nat * Q => snd (fst p)) pts) with (map tps_of pts).
    rewrite (@last_cons_map _ _ fps_of pts 0 (0, 0, 0%Q) Hne).
    rewrite (@last_cons_map _ _ tps_of pts 0 (0, 0, 0%Q) Hne).
    assert (Hf : fps_of (last pts (0, 0, 0%Q)) = N)
      by (unfold fps_of; now rewrite Hlast).
    assert (Ht : tps_of (last pts (0, 0, 0%Q)) = P)
      by (unfold tps_of; now rewrite Hlast).
    rewrite Hf, Ht.
    destruct (N =? 0) eqn:EN; [apply Nat.eqb_eq in EN; lia |].
    destruct (P =? 0) eqn:EP; [apply Nat.eqb_eq in EP; lia |].
    reflexivity.
  - unfold pts. apply drop_intermediate_sorted, clf_walk_sorted.
  - unfold pts. apply drop_intermediate_Forall.
    rewrite <- HN, <- HP. apply (clf_walk_upper L 0 0).
Qed.

(** ** Area under the curve *)

Lemma auc_of_curve (pts : list (nat * nat * Q)) (N P : nat) :
  0 < N -> 0 < P -> pts <> [] ->
  StronglySorted below pts ->
  Forall (fun p => fps_of p <= N /\ tps_of p <= P) pts ->
  (forall d, fst (last pts d) = (N, P)) ->
  exists a,
    auc (Rates (map (fun k => rate k N) (0 :: map fps_of pts)))
        (Rates (map (fun k => rate k P) (0 :: map tps_of pts))) = Ok (fin a) /\
    (0 <= a /\ a <= 1)%Q.
Proof.
  intros HN HP Hne Hs Hb Hlast.
  set (xs := map (fun k => rate k N) (0 :: map fps_of pts)).
  set (ys := map (fun k => rate k P) (0 :: map tps_of pts)).
  assert (Hlen : length xs = length ys).
  { unfold xs, ys. simpl. now rewrite !length_map. }
  assert (Hxs : StronglySorted Qle xs).
  { unfold xs. apply StronglySorted_map with (R := le); [intros a b Hab; apply rate_le; exact Hab |].
    constructor.
    - apply StronglySorted_map with (R := below); [| exact Hs].
      intros a b [H _]. exact H.
    - apply Forall_map, Forall_forall. intros; lia. }
  assert (Hys : Forall (fun y => 0 <= y /\ y <= 1)%Q ys).
  { unfold ys. apply Forall_map. constructor.
    - split; [apply rate_nonneg | apply rate_le_1; lia].
    - apply Forall_map. eapply Forall_impl; [| exact Hb].
      intros p [_ H]. split; [apply rate_nonneg | now apply rate_le_1]. }
  destruct (trapz_bounds Hlen Hxs Hys) as [Hlo Hhi].
  assert (Hlastx : last xs 0%Q = 1%Q).
  { unfold xs. simpl map. rewrite map_map, rate_zero.
    rewrite (@last_cons_map _ _ (fun p => rate (fps_of p) N) pts 0%Q (0, 0, 0%Q) Hne).
    unfold fps_of. rewrite Hlast. simpl. now apply rate_full. }
  assert (Hhd : hd 0%Q xs = 0%Q) by (unfold xs; simpl; apply rate_zero).
  rewrite Hlastx, Hhd in Hhi.
  exists (Qred (trapz ys xs)). split.
  - assert (H2 : (length ys <? 2) = false).
    { apply Nat.ltb_ge. unfold ys. rewrite length_map. simpl. rewrite length_map.
      destruct pts; [congruence | simpl; lia]. }
    unfold auc. fold xs ys.
    change (rates_len (Rates xs)) with (length xs).
    change (rates_len (Rates ys)) with (length ys).
    rewrite Hlen, Nat.eqb_refl, H2. cbn [negb]. cbv iota.
    now rewrite (diff_sorted Hxs).
  - rewrite Qred_correct. split; lra.
Qed.

Lemma label_binarize_binary (y : list nat) :
  Forall (fun l => l <= 1) y -> label_binarize [0; 1] y = y.
Proof.
  intros H. unfold label_binarize. simpl.
  induction H as [| l y Hl Hy IH]; simpl; [reflexivity |].
  rewrite IH. f_equal.
  destruct l as [| [| l]]; simpl; try reflexivity; lia.
Qed.

(** Both classes present: the score is a number between 0 and 1. *)
Lemma roc_auc_score_binary (y_true : list nat) (y_score : list Q) :
  length y_true = length y_score ->
  Forall (fun l => l <= 1) y_true ->
  In 0 y_true -> In 1 y_true ->
  exists a, roc_auc_score y_true y_score = Ok (fin a) /\ (0 <= a /\ a <= 1)%Q.
Proof.
  intros Hlen Hb H0 H1.
  destruct (roc_curve_binary y_score Hlen Hb H0 H1)
    as [Hroc [Hne [Hs [Hbd [Hlast [HN HP]]]]]].
  destruct (auc_of_curve HN HP Hne Hs Hbd Hlast) as [a [Hauc Ha]].
  exists a. split; [| exact Ha].
  unfold roc_auc_score.
  assert (Hnz : (length y_true =? 0) = false).
  { destruct y_true; [contradiction | reflexivity]. }
  rewrite Hnz, (unique_binary Hb H0 H1).
  change (2 <? length [0; 1]) with false. cbv iota.
  rewrite (label_binarize_binary Hb), (unique_binary Hb H0 H1).
  change (negb (length [0; 1] =? 2)) with false. cbv iota.
  rewrite Hroc. exact Hauc.
Qed.

Lemma unique_constant (y : list nat) (c : nat) :
  y <> [] -> Forall (eq c) y -> unique y = [c].
Proof.
  intros Hne Hc.
  pose proof (unique_NoDup y) as Hnd.
  assert (Hin : forall x, In x (unique y) <-> x = c).
  { intros x. rewrite unique_In. split.
    - intros Hx. rewrite Forall_forall in Hc. symmetry. now apply Hc.
    - intros ->. destruct y as [| a y]; [congruence |].
      inversion Hc; subst. now left. }
  destruct (unique y) as [| a [| b l]].
  - exfalso. now apply (proj2 (Hin c)).
  - f_equal. apply Hin. now left.
  - exfalso. inversion Hnd as [| ? ? Hnotin _]; subst. apply Hnotin.
    rewrite (proj1 (Hin a)) by now left.
    left. apply Hin. right. now left.
Qed.

(** A single class in the ground truth: [ValueError], whatever the
    scores. *)
Lemma roc_auc_score_one_class (y_true : list nat) (y_score : list Q) (c : nat) :
  y_true <> [] -> Forall (eq c) y_true ->
  roc_auc_score y_true y_score = Raise only_one_class.
Proof.
  intros Hne Hc. unfold roc_auc_score.
  assert (Hlen : (length y_true =? 0) = false).
  { destruct y_true; [congruence | reflexivity]. }
  rewrite Hlen, (unique_constant Hne Hc).
  change (2 <? length [c]) with false. cbv iota.
  assert (Hbin : label_binarize [c] y_true = map (fun _ => 0) y_true) by reflexivity.
  rewrite Hbin.
  rewrite (@unique_constant (map (fun _ => 0) y_true) 0).
  - reflexivity.
  - destruct y_true; [congruence | discriminate].
  - apply Forall_map, Forall_forall. reflexivity.
Qed.

(** ** The walk is the threshold sweep *)

Lemma squeeze_cons2 (a b : Q) (l : list Q) :
  squeeze (a :: b :: l) = if Qeq_bool a b then squeeze (b :: l) else a :: squeeze (b :: l).
Proof. reflexivity. Qed.

Lemma squeeze_In (l : list Q) (t : Q) : In t (squeeze l) -> In t l.
Proof.
  induction l as [| a l IH]; [contradiction |].
  destruct l as [| b l]; [exact (fun H => H) |].
  rewrite squeeze_cons2. destruct (Qeq_bool a b).
  - intros H. right. now apply IH.
  - intros [-> | H]; [now left | right; now apply IH].
Qed.

Lemma count_none (A : Type) (f : A -> bool) (l : list A) :
  (forall x, In x l -> f x = false) -> count f l = 0.
Proof.
  induction l as [| a l IH]; intros H; [reflexivity |].
  rewrite count_cons, (H a (or_introl eq_refl)), IH; [reflexivity |].
  intros x Hx. apply H. now right.
Qed.

Lemma Qle_bool_refl (s : Q) : Qle_bool s s = true.
Proof. apply Qle_bool_iff, Qle_refl. Qed.

(** On samples in decreasing score order the walk emits, for every
    distinct score [t], the numbers of negative and of positive samples
    with a score of at least [t]. *)
Lemma clf_walk_sweep (L : list (Q * bool)) :
  StronglySorted (fun a b => score_leb b a = true) L ->
  forall fp tp,
    clf_walk fp tp L =
    map (fun t =>
           (fp + count (fun sb => Qle_bool t (fst sb) && negb (snd sb)) L,
            tp + count (fun sb => Qle_bool t (fst sb) && snd sb) L,
            t))
        (squeeze (map fst L)).
Proof.
  induction L as [| [s b] L IH]; intros Hs fp tp; [reflexivity |].
  destruct L as [| [s' b'] L].
  - simpl. rewrite !count_cons. simpl. rewrite Qle_bool_refl. unfold count. simpl.
    destruct b; simpl; repeat f_equal; lia.
  - inversion Hs as [| ? ? Hs' Hall]; subst.
    assert (Htail :
      clf_walk (if b then fp else S fp) (if b then S tp else tp) ((s', b') :: L) =
      map (fun t =>
             (fp + count (fun sb => Qle_bool t (fst sb) && negb (snd sb))
                         ((s, b) :: (s', b') :: L),
              tp + count (fun sb => Qle_bool t (fst sb) && snd sb)
                         ((s, b) :: (s', b') :: L),
              t))
          (squeeze (map fst ((s', b') :: L)))).
    { rewrite (IH Hs'). apply map_ext_in. intros t Ht.
      apply squeeze_In, in_map_iff in Ht. destruct Ht as [x [<- Hx]].
      rewrite Forall_forall in Hall. specialize (Hall x Hx).
      unfold score_leb in Hall. simpl in Hall.
      rewrite (count_cons _ (s, b)), (count_cons (fun sb => Qle_bool (fst x) (fst sb) && snd sb) (s, b)).
      simpl fst. simpl snd. rewrite Hall.
      destruct b; simpl; repeat f_equal; lia. }
    rewrite clf_walk_cons2.
    change (map fst ((s, b) :: (s', b') :: L)) with (s :: s' :: map fst L).
    rewrite squeeze_cons2.
    change (s' :: map fst L) with (map fst ((s', b') :: L)).
    destruct (Qeq_bool s s') eqn:E; [exact Htail |].
    rewrite map_cons, <- Htail. f_equal.
    assert (Hlow : forall x, In x ((s', b') :: L) -> Qle_bool s (fst x) = false).
    { intros x Hx.
      destruct (Qle_bool s (fst x)) eqn:Esx; [| reflexivity].
      exfalso. apply Qle_bool_iff in Esx.
      assert (Hx' : (fst x <= s')%Q).
      { destruct Hx as [<- | Hx]; [apply Qle_refl |].
        inversion Hs' as [| ? ? _ Hall']; subst.
        rewrite Forall_forall in Hall'. specialize (Hall' x Hx).
        now apply Qle_bool_iff in Hall'. }
      assert (Hs's : (s' <= s)%Q).
      { inversion Hall; subst. now apply Qle_bool_iff. }
      assert (Heq : (s == s')%Q) by (apply Qle_antisym; [eapply Qle_trans; eassumption | assumption]).
      apply Qeq_bool_iff in Heq. congruence. }
    rewrite (count_cons _ (s, b)),
            (count_cons (fun sb => Qle_bool s (fst sb) && snd sb) (s, b)).
    simpl fst. simpl snd. rewrite Qle_bool_refl.
    rewrite !count_none.
    + destruct b; simpl; repeat f_equal; lia.
    + intros x Hx. now rewrite (Hlow x Hx).
    + intros x Hx. now rewrite (Hlow x Hx).
Qed.

Lemma score_leb_total (a b : Q * bool) : score_leb a b = true \/ score_leb b a = true.
Proof.
  unfold score_leb. destruct (Qlt_le_dec (fst b) (fst a)) as [H | H].
  - right. apply Qle_bool_iff. now apply Qlt_le_weak.
  - left. now apply Qle_bool_iff.
Qed.

Lemma score_leb_trans (a b c : Q * bool) :
  score_leb a b = true -> score_leb b c = true -> score_leb a c = true.
Proof.
  unfold score_leb. rewrite !Qle_bool_iff. apply Qle_trans.
Qed.

Lemma by_decreasing_score_sorted (l : list (Q * bool)) :
  StronglySorted (fun a b => score_leb b a = true) (by_decreasing_score l).
Proof.
  unfold by_decreasing_score.
  apply (@StronglySorted_rev _ (fun a b => score_leb a b = true)).
  apply sort_sorted; [apply score_leb_total | apply score_leb_trans].
Qed.

Lemma map_fst_insert (x : Q * bool) (l : list (Q * bool)) :
  map fst (insert score_leb x l) = insert Qle_bool (fst x) (map fst l).
Proof.
  induction l as [| y l IH]; [reflexivity |].
  simpl. unfold score_leb at 1. destruct (Qle_bool (fst x) (fst y)); simpl; [reflexivity |].
  now rewrite IH.
Qed.

Lemma map_fst_sort (l : list (Q * bool)) :
  map fst (sort score_leb l) = sort Qle_bool (map fst l).
Proof.
  induction l as [| x l IH]; [reflexivity |].
  simpl. now rewrite map_fst_insert, IH.
Qed.

(** The thresholds the walk visits are the distinct scores, and the
    counts are those of the whole batch. *)
Lemma clf_walk_samples (samples : list (Q * bool)) :
  clf_walk 0 0 (by_decreasing_score samples) =
  map (fun t =>
         (count (fun sb => Qle_bool t (fst sb) && negb (snd sb)) samples,
          count (fun sb => Qle_bool t (fst sb) && snd sb) samples,
          t))
      (distinct_scores (map fst samples)).
Proof.
  rewrite (clf_walk_sweep (by_decreasing_score_sorted samples)).
  unfold distinct_scores, by_decreasing_score at 3.
  rewrite map_rev, map_fst_sort.
  apply map_ext. intros t.
  now rewrite !(count_perm _ (by_decreasing_score_perm samples)).
Qed.

Lemma squeeze_strict (l : list Q) :
  StronglySorted (fun a b => Qle_bool b a = true) l ->
  StronglySorted (fun a b => (b < a)%Q) (squeeze l).
Proof.
  induction l as [| a l IH]; intros Hs; [constructor |].
  destruct l as [| b l]; [constructor; constructor |].
  inversion Hs as [| ? ? Hs' Hall]; subst.
  rewrite squeeze_cons2. destruct (Qeq_bool a b) eqn:E; [now apply IH |].
  constructor; [now apply IH |].
  apply Forall_forall. intros x Hx. apply squeeze_In in Hx.
  assert (Hxb : (x <= b)%Q).
  { destruct Hx as [<- | Hx]; [apply Qle_refl |].
    inversion Hs' as [| ? ? _ Hall']; subst.
    rewrite Forall_forall in Hall'. now apply Qle_bool_iff, Hall'. }
  assert (Hba : (b <= a)%Q) by (inversion Hall; subst; now apply Qle_bool_iff).
  destruct (Qlt_le_dec x a) as [Hlt | Hge]; [exact Hlt |].
  exfalso.
  assert (Heq : (a == b)%Q) by (apply Qle_antisym; [eapply Qle_trans; eassumption | assumption]).
  apply Qeq_bool_iff in Heq. congruence.
Qed.

Lemma distinct_scores_In (y_score : list Q) (t : Q) :
  In t (distinct_scores y_score) -> In t y_score.
Proof.
  unfold distinct_scores. intros H. apply squeeze_In in H.
  apply in_rev in H.
  apply (Permutation_in _ (sort_perm Qle_bool y_score)) in H. exact H.
Qed.

Lemma Qle_bool_total (a b : Q) : Qle_bool a b = true \/ Qle_bool b a = true.
Proof.
  destruct (Qlt_le_dec b a) as [H | H].
  - right. apply Qle_bool_iff. now apply Qlt_le_weak.
  - left. now apply Qle_bool_iff.
Qed.

Lemma Qle_bool_trans (a b c : Q) :
  Qle_bool a b = true -> Qle_bool b c = true -> Qle_bool a c = true.
Proof. rewrite !Qle_bool_iff. apply Qle_trans. Qed.

Lemma distinct_scores_strict (y_score : list Q) :
  StronglySorted (fun a b => (b < a)%Q) (distinct_scores y_score).
Proof.
  unfold distinct_scores. apply squeeze_strict.
  apply (@StronglySorted_rev _ (fun a b => Qle_bool a b = true)).
  apply sort_sorted; [apply Qle_bool_total | apply Qle_bool_trans].
Qed.

(** Binarized predictions carry at most two distinct scores. *)
Lemma distinct_scores_binarized (bc : list nat) :
  Forall (fun l => l <= 1) bc -> length (distinct_scores (as_scores bc)) <= 2.
Proof.
  intros Hb.
  pose proof (distinct_scores_strict (as_scores bc)) as Hs.
  assert (Hin : forall t, In t (distinct_scores (as_scores bc)) -> t = 0%Q \/ t = 1%Q).
  { intros t Ht. apply distinct_scores_In in Ht. unfold as_scores in Ht.
    apply in_map_iff in Ht. destruct Ht as [b [<- Hbin]].
    rewrite Forall_forall in Hb. specialize (Hb b Hbin).
    destruct b as [| [| b]]; [now left | now right | lia]. }
  destruct (distinct_scores (as_scores bc)) as [| a [| b [| c l]]]; simpl; try lia.
  exfalso.
  inversion Hs as [| ? ? Hs' Hall]; subst.
  inversion Hall as [| ? ? Hab Hall']; subst. inversion Hall' as [| ? ? Hac _]; subst.
  inversion Hs' as [| ? ? _ Hall'']; subst. inversion Hall'' as [| ? ? Hbc _]; subst.
  destruct (Hin a) as [-> | ->]; [now left | |];
    (destruct (Hin b) as [-> | ->]; [right; now left | |]);
    (destruct (Hin c) as [-> | ->]; [right; right; now left | |]);
    lra.
Qed.

(** ** The analysis cell on one stored result *)

Lemma analyse_one_ok {helper : CMEpredict} (name : string) (y_test bc : list nat)
      (r_auc : pyfloat) (fpr tpr : rates) (g : Notebook.globals) :
  roc_auc_score y_test (as_scores bc) = Ok r_auc ->
  roc_curve y_test (as_scores bc) = Ok (fpr, tpr) ->
  Notebook.analyse_one (name, (y_test, bc)) g =
  Notebook.bindM (Notebook.call (Notebook.legend name r_auc))
                 (fun label => Notebook.plot fpr tpr label) g.
Proof.
  intros Hauc Hroc. unfold Notebook.analyse_one, Notebook.bindM, Notebook.call.
  now rewrite Hauc, Hroc.
Qed.

Lemma analyse_one_raise {helper : CMEpredict} (name : string) (y_test bc : list nat)
      (e : exception) (g : Notebook.globals) :
  roc_auc_score y_test (as_scores bc) = Raise e ->
  Notebook.analyse_one (name, (y_test, bc)) g = (g, Raise e).
Proof.
  intros Hauc. unfold Notebook.analyse_one, Notebook.bindM, Notebook.call.
  now rewrite Hauc.
Qed.

Lemma as_scores_length (bc : list nat) : length (as_scores bc) = length bc.
Proof. apply length_map. Qed.

(** The curve over 0/1 predictions is the sweep over their (at most two)
    distinct values. *)
Lemma roc_curve_binarized (y_test bc : list nat) :
  length y_test = length bc ->
  Forall (fun l => l <= 1) y_test ->
  In 0 y_test -> In 1 y_test ->
  Forall (fun l => l <= 1) bc ->
  roc_curve y_test (as_scores bc) =
  Ok (Rates (map fst (roc_sweep y_test (as_scores bc))),
      Rates (map snd (roc_sweep y_test (as_scores bc)))).
Proof.
  intros Hlen Hy H0 H1 Hbc.
  assert (Hlen' : length y_test = length (as_scores bc)) by now rewrite as_scores_length.
  destruct (roc_curve_binary (as_scores bc) Hlen' Hy H0 H1) as [Hroc _].
  rewrite Hroc. clear Hroc.
  set (samples := combine (as_scores bc) (map (fun l => l =? 1) y_test)).
  assert (Hfst : map fst samples = as_scores bc).
  { unfold samples. apply map_fst_combine. rewrite length_map. lia. }
  rewrite clf_walk_samples, Hfst.
  rewrite drop_intermediate_short
    by (rewrite length_map; now apply distinct_scores_binarized).
  unfold roc_sweep. fold samples.
  change (count (fun sb : Q * bool => negb (snd sb)) samples) with (negatives samples).
  change (count (fun sb : Q * bool => snd sb) samples) with (positives samples).
  assert (HN : negatives samples = count (fun l => negb (l =? 1)) y_test)
    by apply (negatives_samples _ _ Hlen').
  assert (HP : positives samples = count (fun l => l =? 1) y_test)
    by apply (positives_samples _ _ Hlen').
  rewrite HN, HP.
  simpl map. rewrite !map_map, !rate_zero. reflexivity.
Qed.

(** C2 (as amended): the ROC curve the analysis cell plots for a
    configuration is the threshold sweep over the distinct values of the
    stored 0/1 predictions [bc], not of the raw probabilities: the
    origin followed by at most two points. *)
Theorem roc_sweeps_binarized_predictions :
  forall (helper : CMEpredict) (name : string) (g : Notebook.globals)
         (y_test : list nat) (threshold : Q) (prob : list Q),
    length y_test = length prob ->
    Forall (fun l => l <= 1) y_test ->
    In 0 y_test -> In 1 y_test ->
    let scores := as_scores (bc threshold prob) in
    let fpr := Rates (map fst (roc_sweep y_test scores)) in
    let tpr := Rates (map snd (roc_sweep y_test scores)) in
    roc_curve y_test scores = Ok (fpr, tpr) /\
    length (roc_sweep y_test scores) <= 3 /\
    exists r_auc,
      roc_auc_score y_test scores = Ok r_auc /\
      Notebook.analyse_one (name, (y_test, bc threshold prob)) g =
      Notebook.bindM (Notebook.call (Notebook.legend name r_auc))
                     (fun label => Notebook.plot fpr tpr label) g.
Proof.
  intros helper name g y_test threshold prob Hlen Hy H0 H1 scores fpr tpr.
  assert (Hlen' : length y_test = length (bc threshold prob)) by now rewrite bc_length.
  pose proof (roc_curve_binarized Hlen' Hy H0 H1 (bc_binary threshold prob)) as Hroc.
  fold scores in Hroc. fold fpr tpr in Hroc.
  split; [exact Hroc |]. split.
  - unfold roc_sweep. simpl length. rewrite length_map.
    pose proof (distinct_scores_binarized (bc_binary threshold prob)). fold scores in H. lia.
  - assert (Hlen'' : length y_test = length scores)
      by (unfold scores; now rewrite as_scores_length).
    destruct (roc_auc_score_binary scores Hlen'' Hy H0 H1) as [a [Hauc _]].
    exists (fin a). split; [exact Hauc |].
    now apply analyse_one_ok.
Qed.

Lemma roc_sweeps_binarized_predictions_witness :
  let scores := as_scores (bc (1 # 2) Demo.probabilities) in
  let fpr := Rates (map fst (roc_sweep Demo.labels scores)) in
  let tpr := Rates (map snd (roc_sweep Demo.labels scores)) in
  roc_curve Demo.labels scores = Ok (fpr, tpr) /\
  length (roc_sweep Demo.labels scores) <= 3 /\
  exists r_auc,
    roc_auc_score Demo.labels scores = Ok r_auc /\
    Notebook.analyse_one (helper := Demo.complete)
      ("gru 12"%string, (Demo.labels, bc (1 # 2) Demo.probabilities)) Notebook.fresh =
    Notebook.bindM (Notebook.call (Notebook.legend "gru 12" r_auc))
                   (fun label => Notebook.plot fpr tpr label) Notebook.fresh.
Proof.
  apply (@roc_sweeps_binarized_predictions Demo.complete "gru 12"%string Notebook.fresh
           Demo.labels (1 # 2)%Q Demo.probabilities).
  - reflexivity.
  - unfold Demo.labels. repeat constructor.
  - simpl. auto.
  - simpl. auto.
Defined.

(** C2, as stated, fails: on ground truth [0,1,0,1] with probabilities
    [0.1, 0.9, 0.6, 0.4] and threshold 0.5 the curve the notebook
    computes has three points, the sweep over the four distinct
    probabilities has five. *)
Lemma roc_not_over_raw_probabilities :
  roc_curve Demo.labels (as_scores (bc (1 # 2) Demo.probabilities)) =
    Ok (Rates [0; 1 # 2; 1]%Q, Rates [0; 1 # 2; 1]%Q) /\
  roc_sweep Demo.labels Demo.probabilities =
    [(0, 0); (0, 1 # 2); (1 # 2, 1 # 2); (1 # 2, 1); (1, 1)]%Q /\
  roc_curve Demo.labels (as_scores (bc (1 # 2) Demo.probabilities)) <>
    Ok (Rates (map fst (roc_sweep Demo.labels Demo.probabilities)),
        Rates (map snd (roc_sweep Demo.labels Demo.probabilities))).
Proof.
  split; [reflexivity |]. split; [reflexivity |].
  vm_compute. discriminate.
Qed.

(** C3: with a single class in the ground truth, [roc_auc_score] raises
    [ValueError] (and the analysis cell stops there, plotting nothing
    for that configuration) instead of returning a default value; with
    both classes present the AUROC is a number in [0, 1]. *)
Theorem auroc_flagged_or_in_unit_interval :
  forall (helper : CMEpredict) (name : string) (g : Notebook.globals)
         (y_one : list nat) (c : nat) (bc_one : list nat)
         (y_both : list nat) (score_both : list Q),
    y_one <> [] -> Forall (eq c) y_one ->
    length y_both = length score_both ->
    Forall (fun l => l <= 1) y_both -> In 0 y_both -> In 1 y_both ->
    (roc_auc_score y_one (as_scores bc_one) = Raise only_one_class /\
     Notebook.analyse_one (name, (y_one, bc_one)) g = (g, Raise only_one_class)) /\
    (exists a, roc_auc_score y_both score_both = Ok (fin a) /\ (0 <= a /\ a <= 1)%Q).
Proof.
  intros helper name g y_one c bc_one y_both score_both Hne Hc Hlen Hb H0 H1.
  pose proof (roc_auc_score_one_class (as_scores bc_one) Hne Hc) as Hone.
  split; [split |].
  - exact Hone.
  - now apply analyse_one_raise.
  - now apply roc_auc_score_binary.
Qed.

Lemma auroc_flagged_or_in_unit_interval_witness :
  (roc_auc_score [0; 0; 0; 0] (as_scores [0; 1; 1; 0]) = Raise only_one_class /\
   Notebook.analyse_one (helper := Demo.complete)
     ("gru 12"%string, ([0; 0; 0; 0], [0; 1; 1; 0])) Notebook.fresh =
   (Notebook.fresh, Raise only_one_class)) /\
  (exists a, roc_auc_score [0; 0; 1; 1] [1 # 10; 2 # 10; 8 # 10; 9 # 10]%Q = Ok (fin a) /\
             (0 <= a /\ a <= 1)%Q).
Proof.
  apply (@auroc_flagged_or_in_unit_interval Demo.complete "gru 12"%string Notebook.fresh
           [0; 0; 0; 0] 0 [0; 1; 1; 0] [0; 0; 1; 1] [1 # 10; 2 # 10; 8 # 10; 9 # 10]%Q).
  - discriminate.
  - repeat constructor.
  - reflexivity.
  - repeat constructor.
  - simpl. auto.
  - simpl. auto.
Defined.

(** The AUROC scenarios of the spec. *)
Example scenario_perfect_separation :
  roc_auc_score [0; 0; 1; 1] (as_scores (bc (1 # 2) [1 # 10; 2 # 10; 8 # 10; 9 # 10]%Q))
  = Ok (fin 1).
Proof. reflexivity. Qed.

Example scenario_all_negative :
  roc_auc_score [0; 0; 0; 0] (as_scores (bc (1 # 2) [1 # 10; 2 # 10; 8 # 10; 9 # 10]%Q))
  = Raise only_one_class.
Proof. reflexivity. Qed.

(** ** The legend *)

Lemma upper_app (s1 s2 : string) : upper (s1 ++ s2) = (upper s1 ++ upper s2)%string.
Proof. induction s1 as [| c s1 IH]; simpl; [reflexivity | now rewrite IH]. Qed.

Lemma upper_ascii_percent (c : ascii) :
  Ascii.eqb (upper_ascii c) "%" = Ascii.eqb c "%".
Proof. destruct c as [[] [] [] [] [] [] [] []]; reflexivity. Qed.

Lemma has_percent_upper (s : string) : has_percent (upper s) = has_percent s.
Proof.
  induction s as [| c s IH]; simpl; [reflexivity |].
  now rewrite upper_ascii_percent, IH.
Qed.

Lemma has_percent_app (s1 s2 : string) :
  has_percent (s1 ++ s2) = has_percent s1 || has_percent s2.
Proof.
  induction s1 as [| c s1 IH]; simpl; [reflexivity |].
  now rewrite IH, orb_assoc.
Qed.

Lemma uint_digits (u : Decimal.uint) :
  upper (NilEmpty.string_of_uint u) = NilEmpty.string_of_uint u /\
  has_percent (NilEmpty.string_of_uint u) = false.
Proof.
  induction u as [| u [IH1 IH2] | u [IH1 IH2] | u [IH1 IH2] | u [IH1 IH2] | u [IH1 IH2]
                  | u [IH1 IH2] | u [IH1 IH2] | u [IH1 IH2] | u [IH1 IH2] | u [IH1 IH2]];
    simpl; rewrite ?IH1, ?IH2; split; reflexivity.
Qed.

Lemma upper_str (n : nat) : upper (str n) = str n.
Proof. apply uint_digits. Qed.

Lemma has_percent_str (n : nat) : has_percent (str n) = false.
Proof. apply uint_digits. Qed.

(** Text without [%] is copied by the formatting. *)
Lemma percent_format_prefix (p rest : string) (arg : option pyfloat) :
  has_percent p = false ->
  percent_format (p ++ rest) arg =
  match percent_format rest arg with
  | Ok s => Ok (p ++ s)%string
  | Raise e => Raise e
  end.
Proof.
  induction p as [| c p IH]; simpl; intros H.
  - now destruct (percent_format rest arg).
  - apply orb_false_iff in H. destruct H as [Hc Hp].
    rewrite Hc, (IH Hp). now destruct (percent_format rest arg).
Qed.

Lemma append_assoc (s1 s2 s3 : string) :
  ((s1 ++ s2) ++ s3 = s1 ++ (s2 ++ s3))%string.
Proof. induction s1 as [| c s1 IH]; simpl; [reflexivity | now rewrite IH]. Qed.

Lemma legend_of_config (type : string) (time_window : nat) (r_auc : pyfloat) :
  has_percent type = false ->
  Notebook.legend (Notebook.config_name type time_window) r_auc =
  Ok (upper type ++ " " ++ str time_window ++ " Hour (AUROC = "
        ++ format_0_3f r_auc ++ ")")%string.
Proof.
  intros H. unfold Notebook.legend, Notebook.config_name.
  rewrite !upper_app, upper_str.
  rewrite percent_format_prefix.
  - change (percent_format " Hour (AUROC = %0.3f)" (Some r_auc))
      with (Ok (" Hour (AUROC = " ++ (format_0_3f r_auc ++ ")"))%string).
    cbv iota. f_equal. now rewrite !append_assoc.
  - rewrite !has_percent_app, has_percent_upper, H, has_percent_str. reflexivity.
Qed.

(** Three decimals: a sign, the integer part, a point and exactly three
    digits. *)
Lemma format_0_3f_shape (q : Q) :
  exists (sign : string) (whole d1 d2 d3 : nat),
    format_0_3f (fin q) =
    (sign ++ str whole ++ "." ++
     String (digit d1) (String (digit d2) (String (digit d3) EmptyString)))%string /\
    (sign = EmptyString \/ sign = "-"%string) /\
    d1 < 10 /\ d2 < 10 /\ d3 < 10.
Proof.
  unfold format_0_3f.
  set (m := Z.to_nat (round_milli (Qabs q))).
  exists (if Qle_bool 0 q then EmptyString else "-"%string),
         (m / 1000), (m mod 1000 / 100), ((m mod 1000 / 10) mod 10), (m mod 1000 mod 10).
  split; [reflexivity |]. split; [destruct (Qle_bool 0 q); auto |].
  assert (m mod 1000 < 1000) by (apply Nat.mod_upper_bound; lia).
  repeat split.
  - apply Nat.Div0.div_lt_upper_bound. lia.
  - apply Nat.mod_upper_bound. lia.
  - apply Nat.mod_upper_bound. lia.
Qed.

(** The scaled value is a nearest integer: it differs from [1000 * q] by
    at most one half. *)
Lemma round_milli_nearest (q : Q) :
  (2 * Z.abs (round_milli q * Zpos (Qden q) - 1000 * Qnum q) <= Zpos (Qden q))%Z.
Proof.
  unfold round_milli.
  set (num := (1000 * Qnum q)%Z). set (den := Zpos (Qden q)).
  assert (Hden : (0 < den)%Z) by (unfold den; lia).
  pose proof (Z.div_mod num den ltac:(lia)) as Hdm.
  pose proof (Z.mod_pos_bound num den Hden) as Hr.
  set (k := (num / den)%Z) in *. set (r := (num mod den)%Z) in *.
  destruct (Z.ltb_spec (2 * r) den).
  - replace (k * den - num)%Z with (- r)%Z by lia. lia.
  - destruct (Z.ltb_spec den (2 * r)).
    + replace ((k + 1) * den - num)%Z with (den - r)%Z by lia. lia.
    + destruct (Z.even k).
      * replace (k * den - num)%Z with (- r)%Z by lia. lia.
      * replace ((k + 1) * den - num)%Z with (den - r)%Z by lia. lia.
Qed.

(** What ["%0.3f"] prints: the sign, then [m / 1000] with three
    decimals, for a nearest integer [m] to 1000 times the absolute
    value. *)
Lemma format_0_3f_nearest (a : Q) :
  exists m : nat,
    (2 * Z.abs (Z.of_nat m * Zpos (Qden a) - 1000 * Z.abs (Qnum a)) <= Zpos (Qden a))%Z /\
    format_0_3f (fin a) =
      ((if Qle_bool 0 a then EmptyString else "-") ++
       str (m / 1000) ++ "." ++
       String (digit (m mod 1000 / 100))
         (String (digit ((m mod 1000 / 10) mod 10))
            (String (digit (m mod 1000 mod 10)) EmptyString)))%string.
Proof.
  destruct a as [num den].
  pose proof (round_milli_nearest (Qabs (num # den)%Q)) as Hr.
  change (Qden (Qabs (num # den)%Q)) with den in Hr.
  change (Qnum (Qabs (num # den)%Q)) with (Z.abs num) in Hr.
  set (r := round_milli (Qabs (num # den)%Q)) in *.
  assert (Hr0 : (0 <= r)%Z).
  { destruct (Z_le_gt_dec 0 r) as [Hle | Hgt]; [exact Hle | exfalso].
    assert ((r * Zpos den <= - Zpos den)%Z) by nia. lia. }
  exists (Z.to_nat r). split.
  - change (Qden (num # den)%Q) with den. change (Qnum (num # den)%Q) with num.
    rewrite Z2Nat.id by exact Hr0. exact Hr.
  - reflexivity.
Qed.

(** C8: the legend entry of a configuration is
    "{ALGORITHM} {TIME_WINDOW} Hour (AUROC = x.xxx)": the upper-cased
    algorithm name, the time window, and the AUROC with three
    decimals, that is [m / 1000] (after a minus sign for a negative
    value) for an integer [m] nearest to 1000 times the absolute value
    of the AUROC, so that x.xxx is off by at most 0.0005. *)
Theorem legend_entry_format :
  forall (helper : CMEpredict) (g : Notebook.globals)
         (type : string) (time_window : nat) (y_test bc : list nat)
         (a : Q) (fpr tpr : rates),
    has_percent type = false ->
    roc_auc_score y_test (as_scores bc) = Ok (fin a) ->
    roc_curve y_test (as_scores bc) = Ok (fpr, tpr) ->
    exists m : nat,
      (2 * Z.abs (Z.of_nat m * Zpos (Qden a) - 1000 * Z.abs (Qnum a)) <= Zpos (Qden a))%Z /\
      let x_xxx :=
        ((if Qle_bool 0 a then EmptyString else "-") ++
         str (m / 1000) ++ "." ++
         String (digit (m mod 1000 / 100))
           (String (digit ((m mod 1000 / 10) mod 10))
              (String (digit (m mod 1000 mod 10)) EmptyString)))%string in
      let label := (upper type ++ " " ++ str time_window ++ " Hour (AUROC = "
                      ++ x_xxx ++ ")")%string in
      Notebook.legend (Notebook.config_name type time_window) (fin a) = Ok label /\
      Notebook.analyse_one (Notebook.config_name type time_window, (y_test, bc)) g =
        Notebook.plot fpr tpr label g.
Proof.
  intros helper g type time_window y_test bc a fpr tpr Hp Hauc Hroc.
  destruct (format_0_3f_nearest a) as [m [Hnear Hfmt]].
  exists m. split; [exact Hnear |]. cbv zeta. rewrite <- Hfmt.
  pose proof (legend_of_config type time_window (fin a) Hp) as Hleg.
  split; [exact Hleg |].
  rewrite analyse_one_ok with (r_auc := fin a) (fpr := fpr) (tpr := tpr) by assumption.
  unfold Notebook.bindM, Notebook.call. now rewrite Hleg.
Qed.

Lemma legend_entry_format_witness :
  exists m : nat,
    (2 * Z.abs (Z.of_nat m * Zpos (Qden (1 # 2)) - 1000 * Z.abs (Qnum (1 # 2)))
     <= Zpos (Qden (1 # 2)))%Z /\
    let x_xxx :=
      ((if Qle_bool 0 (1 # 2) then EmptyString else "-") ++
       str (m / 1000) ++ "." ++
       String (digit (m mod 1000 / 100))
         (String (digit ((m mod 1000 / 10) mod 10))
            (String (digit (m mod 1000 mod 10)) EmptyString)))%string in
    let label := ("GRU" ++ " " ++ str 12 ++ " Hour (AUROC = " ++ x_xxx ++ ")")%string in
    Notebook.legend (Notebook.config_name "gru" 12) (fin (1 # 2)) = Ok label /\
    Notebook.analyse_one (helper := Demo.complete)
      (Notebook.config_name "gru" 12, (Demo.labels, [0; 1; 1; 0])) Notebook.fresh =
      Notebook.plot (Rates [0; 1 # 2; 1]%Q) (Rates [0; 1 # 2; 1]%Q) label Notebook.fresh.
Proof.
  apply (@legend_entry_format Demo.complete Notebook.fresh "gru"%string 12
           Demo.labels [0; 1; 1; 0] (1 # 2)%Q
           (Rates [0; 1 # 2; 1]%Q) (Rates [0; 1 # 2; 1]%Q)).
  - reflexivity.
  - reflexivity.
  - reflexivity.
Defined.

(** ** Dictionaries *)

Lemma get_setitem_eq (V : Type) (d : list (string * V)) (k : string) (v : V) :
  get (setitem d k v) k = Some v.
Proof.
  induction d as [| [k' v'] d IH]; simpl.
  - now rewrite String.eqb_refl.
  - destruct (String.eqb k' k) eqn:E; simpl.
    + now rewrite String.eqb_refl.
    + now rewrite E.
Qed.

Lemma get_setitem_ne (V : Type) (d : list (string * V)) (k k' : string) (v : V) :
  k' <> k -> get (setitem d k v) k' = get d k'.
Proof.
  intros Hne. induction d as [| [k0 v0] d IH]; simpl.
  - assert (E : String.eqb k k' = false) by (apply String.eqb_neq; congruence).
    now rewrite E.
  - destruct (String.eqb k0 k) eqn:E; simpl.
    + apply String.eqb_eq in E. subst k0.
      assert (E' : String.eqb k k' = false) by (apply String.eqb_neq; congruence).
      now rewrite E'.
    + destruct (String.eqb k0 k'); [reflexivity | exact IH].
Qed.

Lemma get_None (V : Type) (d : list (string * V)) (k : string) :
  get d k = None <-> ~ In k (map fst d).
Proof.
  induction d as [| [k' v'] d IH]; simpl.
  - tauto.
  - destruct (String.eqb k' k) eqn:E.
    + apply String.eqb_eq in E. split; [discriminate | intros H; exfalso; apply H; now left].
    + apply String.eqb_neq in E. rewrite IH. tauto.
Qed.

Lemma setitem_fresh (V : Type) (d : list (string * V)) (k : string) (v : V) :
  ~ In k (map fst d) -> setitem d k v = d ++ [(k, v)].
Proof.
  induction d as [| [k' v'] d IH]; simpl; intros H; [reflexivity |].
  destruct (String.eqb k' k) eqn:E.
  - apply String.eqb_eq in E. exfalso. apply H. now left.
  - f_equal. apply IH. tauto.
Qed.

Lemma get_In (V : Type) (d : list (string * V)) (k : string) (v : V) :
  NoDup (map fst d) -> In (k, v) d -> get d k = Some v.
Proof.
  induction d as [| [k' v'] d IH]; simpl; intros Hnd Hin; [contradiction |].
  inversion Hnd as [| ? ? Hnotin Hnd']; subst.
  destruct Hin as [Heq | Hin].
  - injection Heq as -> ->. now rewrite String.eqb_refl.
  - destruct (String.eqb k' k) eqn:E; [| now apply IH].
    apply String.eqb_eq in E. subst k'. exfalso. apply Hnotin.
    apply in_map_iff. now exists (k, v).
Qed.

(** ** Loops *)

Section LoopFacts.

Context {helper : CMEpredict}.
Import Notebook.

Lemma for_each_app (A : Type) (xs ys : list A) (body : A -> M unit) (g : globals) :
  for_each (xs ++ ys) body g =
  match for_each xs body g with
  | (g1, Ok _) => for_each ys body g1
  | (g1, Raise e) => (g1, Raise e)
  end.
Proof.
  revert g. induction xs as [| x xs IH]; intros g; simpl.
  - reflexivity.
  - unfold bindM. destruct (body x g) as [g1 [[] | e]]; [apply IH | reflexivity].
Qed.

Lemma for_each_cons_ok (A : Type) (x : A) (xs : list A) (body : A -> M unit)
      (g g' : globals) :
  for_each (x :: xs) body g = (g', Ok tt) ->
  exists g1, body x g = (g1, Ok tt) /\ for_each xs body g1 = (g', Ok tt).
Proof.
  simpl. unfold bindM. destruct (body x g) as [g1 [[] | e]]; [| discriminate].
  intros H. now exists g1.
Qed.

(** *** One iteration of the prediction loop *)

(** Case analysis on the outcome of the next library call of the
    iteration: first the case in which it returns, then the case in
    which it raises. *)
Ltac next_call :=
  cbv zeta;
  match goal with
  | |- context [get_n_features_thresh ?a ?b] =>
      destruct (get_n_features_thresh a b) as [[? ?] | ?]
  | |- context [load_model ?f] =>
      destruct (load_model f) as [? | ?]
  | |- context [load_data ?a ?b ?c ?d ?e ?f ?g] =>
      destruct (load_data a b c d e f g) as [[[? ?] ?] | ?]
  | |- context [predict ?m ?x ?b] =>
      destruct (predict m x b) as [? | ?]
  | |- context [cm ?y ?p] =>
      destruct (cm y p) as [? | ?]
  | |- context [cell_texts ?c] =>
      destruct (cell_texts c) as [? | ?]
  end.

(** The iteration changes [results] exactly when every call up to the
    confusion matrix succeeds, and then by the single assignment
    [results[key] = (y_test, bc)]. *)
Lemma predict_one_results (time_window : nat) (type : string) (g : globals) :
  results (fst (predict_one time_window type g)) =
  match stored_value time_window type with
  | Ok v => setitem (results g) (config_name type time_window) v
  | Raise _ => results g
  end.
Proof.
  unfold predict_one, stored_value, bindM, call, set_model, results_setitem, show, Py.bind.
  do 2 (next_call; [| reflexivity]). simpl.
  do 3 (next_call; [| reflexivity]). simpl.
  next_call; reflexivity.
Qed.

Lemma predict_one_ok (time_window : nat) (type : string) (g g' : globals) :
  predict_one time_window type g = (g', Ok tt) ->
  exists v, stored_value time_window type = Ok v.
Proof.
  unfold predict_one, stored_value, bindM, call, set_model, results_setitem, show, Py.bind.
  do 2 (next_call; [| discriminate]). simpl.
  do 3 (next_call; [| discriminate]).
  intros _. eexists. reflexivity.
Qed.

(** What a stored value is made of. *)
Lemma stored_value_ok (time_window : nat) (type : string) (v : list nat * list nat) :
  stored_value time_window type = Ok v ->
  exists n_features threshold m X_test y_test nb_test prob,
    get_n_features_thresh type time_window = Ok (n_features, threshold) /\
    load_model ("CMEpredict/" ++ type ++ "-" ++ str time_window ++ "-model.h5")%string
      = Ok m /\
    load_data ("CMEpredict/normalized_testing_" ++ str time_window ++ ".csv")%string
              series_len start_feature n_features mask_value type time_window
      = Ok (X_test, y_test, nb_test) /\
    predict m X_test batch_size = Ok prob /\
    length y_test = length prob /\
    v = (y_test, bc threshold prob).
Proof.
  unfold stored_value, Py.bind.
  destruct (get_n_features_thresh type time_window) as [[n_features threshold] | e] eqn:E1;
    [| discriminate].
  destruct (load_model _) as [m | e] eqn:E2; [| discriminate].
  destruct (load_data _ _ _ _ _ _ _) as [[[X_test y_test] nb_test] | e] eqn:E3;
    [| discriminate].
  destruct (predict m X_test batch_size) as [prob | e] eqn:E4; [| discriminate].
  destruct (cm y_test (bc threshold prob)) as [confmat | e] eqn:Ecm; [| discriminate].
  intros H. injection H as <-.
  exists n_features, threshold, m, X_test, y_test, nb_test, prob.
  repeat split; try assumption.
  unfold cm, confusion_matrix in Ecm. rewrite bc_length in Ecm.
  destruct (length y_test =? length prob) eqn:E; [| discriminate].
  now apply Nat.eqb_eq.
Qed.

(** *** The prediction loop *)

(** A run without exception over configurations with pairwise distinct,
    not yet used keys appends one entry per configuration, in order. *)
Lemma predict_all_ok (configs : list (nat * string)) :
  forall g g',
    predict_all configs g = (g', Ok tt) ->
    NoDup (map config_key configs) ->
    (forall c, In c configs -> ~ In (config_key c) (map fst (results g))) ->
    exists vs,
      Forall2 (fun c v => stored_value (fst c) (snd c) = Ok v) configs vs /\
      results g' = results g ++ map (fun cv => (config_key (fst cv), snd cv))
                                    (combine configs vs).
Proof.
  induction configs as [| c configs IH]; intros g g' Hrun Hnd Hfresh.
  - injection Hrun as <-. exists []. split; [constructor | simpl; now rewrite app_nil_r].
  - unfold predict_all in Hrun. apply for_each_cons_ok in Hrun.
    destruct Hrun as [g1 [Hone Hrest]]. fold (predict_all configs) in Hrest.
    destruct (predict_one_ok _ _ _ Hone) as [v Hv].
    pose proof (predict_one_results (fst c) (snd c) g) as Hres.
    rewrite Hone, Hv in Hres. simpl fst in Hres.
    change (config_name (snd c) (fst c)) with (config_key c) in Hres.
    rewrite setitem_fresh in Hres by (apply Hfresh; now left).
    inversion Hnd as [| ? ? Hnotin Hnd']; subst.
    destruct (IH g1 g' Hrest Hnd') as [vs [Hvs Hres']].
    { intros c' Hc'. rewrite Hres, map_app, in_app_iff. simpl.
      intros [H | [H | []]].
      - apply (Hfresh c'); [now right | exact H].
      - apply Hnotin. rewrite H. now apply in_map. }
    exists (v :: vs). split; [now constructor |].
    rewrite Hres', Hres, <- app_assoc. reflexivity.
Qed.

End LoopFacts.

(** ** The prediction grid *)

Lemma grid_explicit :
  Notebook.grid =
  [(12, "gru"); (12, "lstm"); (36, "gru"); (36, "lstm"); (60, "gru"); (60, "lstm")]%string.
Proof. reflexivity. Qed.

Lemma grid_keys :
  map Notebook.config_key Notebook.grid =
  ["gru 12"; "lstm 12"; "gru 36"; "lstm 36"; "gru 60"; "lstm 60"]%string.
Proof. reflexivity. Qed.

Lemma grid_keys_NoDup : NoDup (map Notebook.config_key Notebook.grid).
Proof.
  rewrite grid_keys.
  repeat (constructor; [simpl; intuition discriminate |]). constructor.
Qed.

Lemma NoDup_app_l (A : Type) (l l' : list A) : NoDup (l ++ l') -> NoDup l.
Proof.
  induction l as [| a l IH]; simpl; intros H; [constructor |].
  inversion H as [| ? ? Hnotin Hnd]; subst.
  constructor; [| now apply IH].
  intros Hin. apply Hnotin. apply in_app_iff. now left.
Qed.

Lemma NoDup_app_mid (A : Type) (l l' : list A) (x : A) :
  NoDup (l ++ x :: l') -> ~ In x l.
Proof.
  induction l as [| a l IH]; simpl; intros H; [tauto |].
  inversion H as [| ? ? Hnotin Hnd]; subst.
  intros [-> | Hin].
  - apply Hnotin. apply in_app_iff. right. now left.
  - now apply IH.
Qed.

Lemma stored_keys (V : Type) (configs : list (nat * string)) (vs : list V)
      (R : nat * string -> V -> Prop) :
  Forall2 R configs vs ->
  map fst (map (fun cv => (Notebook.config_key (fst cv), snd cv)) (combine configs vs)) =
  map Notebook.config_key configs.
Proof. induction 1; simpl; [reflexivity | now f_equal]. Qed.

Lemma stored_entry (V : Type) (configs : list (nat * string)) (vs : list V)
      (R : nat * string -> V -> Prop) (c : nat * string) :
  Forall2 R configs vs -> In c configs ->
  exists v, R c v /\
            In (Notebook.config_key c, v)
               (map (fun cv => (Notebook.config_key (fst cv), snd cv)) (combine configs vs)).
Proof.
  induction 1 as [| c' v' configs vs Hcv HF IH]; simpl; intros Hin; [contradiction |].
  destruct Hin as [-> | Hin].
  - exists v'. split; [assumption | now left].
  - destruct (IH Hin) as [v [Hv Hin']]. exists v. split; [assumption | now right].
Qed.

Section GridFacts.

Context {helper : CMEpredict}.
Import Notebook.

(** The state after the first statement of the cell, [results = {}]. *)
Lemma prediction_cell_unfold (g0 : globals) :
  prediction_cell g0 = predict_all grid (fst (set_results [] g0)).
Proof. reflexivity. Qed.

(** A run without exception over a prefix of the grid, started on empty
    [results]: one entry per configuration of the prefix. *)
Lemma prefix_run (pre post : list (nat * string)) (g g1 : globals) :
  grid = pre ++ post ->
  results g = [] ->
  predict_all pre g = (g1, Ok tt) ->
  exists vs,
    Forall2 (fun c v => stored_value (fst c) (snd c) = Ok v) pre vs /\
    results g1 = map (fun cv => (config_key (fst cv), snd cv)) (combine pre vs) /\
    map fst (results g1) = map config_key pre /\
    NoDup (map fst (results g1)).
Proof.
  intros Hgrid Hempty Hrun.
  pose proof grid_keys_NoDup as Hnd. rewrite Hgrid, map_app in Hnd.
  apply NoDup_app_l in Hnd.
  destruct (predict_all_ok pre g Hrun Hnd) as [vs [Hvs Hres]].
  { intros c _. rewrite Hempty. simpl. tauto. }
  rewrite Hempty in Hres. simpl in Hres.
  exists vs. split; [exact Hvs |]. split; [exact Hres |].
  assert (Hkeys : map fst (results g1) = map config_key pre)
    by (rewrite Hres; apply (stored_keys Hvs)).
  split; [exact Hkeys |]. now rewrite Hkeys.
Qed.

Lemma prefix_entries (pre post : list (nat * string)) (g g1 : globals) :
  grid = pre ++ post ->
  results g = [] ->
  predict_all pre g = (g1, Ok tt) ->
  forall c, In c pre ->
            exists v, stored_value (fst c) (snd c) = Ok v /\
                      get (results g1) (config_key c) = Some v.
Proof.
  intros Hgrid Hempty Hrun c Hc.
  destruct (prefix_run pre post g Hgrid Hempty Hrun) as [vs [Hvs [Hres [_ Hnd]]]].
  destruct (stored_entry c Hvs Hc) as [v [Hv Hin]].
  exists v. split; [exact Hv |].
  apply get_In; [exact Hnd | now rewrite Hres].
Qed.

End GridFacts.

(** C9: after a run of the prediction cell without exception, [results]
    has exactly the six keys '{algorithm} {time_window}' of
    {gru, lstm} x {12, 36, 60}; the value under each key is the pair
    (ground-truth labels, 0/1 predictions) of that configuration; and
    every key is assigned once: it is absent until its own iteration. *)
Theorem complete_run_results :
  forall (helper : CMEpredict) (g0 g : Notebook.globals),
    Notebook.prediction_cell g0 = (g, Ok tt) ->
    map fst (Notebook.results g) =
      ["gru 12"; "lstm 12"; "gru 36"; "lstm 36"; "gru 60"; "lstm 60"]%string /\
    (forall time_window type,
        In (time_window, type) Notebook.grid ->
        exists n_features threshold m X_test y_test nb_test prob,
          get_n_features_thresh type time_window = Ok (n_features, threshold) /\
          load_model ("CMEpredict/" ++ type ++ "-" ++ str time_window ++ "-model.h5")%string
            = Ok m /\
          load_data ("CMEpredict/normalized_testing_" ++ str time_window ++ ".csv")%string
                    Notebook.series_len Notebook.start_feature n_features
                    Notebook.mask_value type time_window
            = Ok (X_test, y_test, nb_test) /\
          predict m X_test Notebook.batch_size = Ok prob /\
          get (Notebook.results g) (Notebook.config_name type time_window) =
            Some (y_test, bc threshold prob) /\
          Forall (fun l => l <= 1) (bc threshold prob)) /\
    (forall pre c post,
        Notebook.grid = pre ++ c :: post ->
        exists g1,
          Notebook.predict_all pre (fst (Notebook.set_results [] g0)) = (g1, Ok tt) /\
          get (Notebook.results g1) (Notebook.config_key c) = None).
Proof.
  intros helper g0 g Hrun. rewrite prediction_cell_unfold in Hrun.
  set (g0' := fst (Notebook.set_results [] g0)) in *.
  assert (Hempty : Notebook.results g0' = []) by reflexivity.
  assert (Hgrid : Notebook.grid = Notebook.grid ++ []) by now rewrite app_nil_r.
  split; [| split].
  - destruct (prefix_run Notebook.grid [] g0' Hgrid Hempty Hrun) as [vs [_ [_ [Hkeys _]]]].
    now rewrite Hkeys, grid_keys.
  - intros time_window type Hin.
    destruct (prefix_entries Notebook.grid [] g0' Hgrid Hempty Hrun _ Hin) as [v [Hv Hget]].
    destruct (stored_value_ok _ _ Hv)
      as [n_features [threshold [m [X_test [y_test [nb_test [prob
            [E1 [E2 [E3 [E4 [_ ->]]]]]]]]]]]].
    exists n_features, threshold, m, X_test, y_test, nb_test, prob.
    repeat split; try assumption. apply bc_binary.
  - intros pre c post Hsplit.
    unfold Notebook.predict_all in Hrun. rewrite Hsplit, for_each_app in Hrun.
    destruct (Notebook.for_each pre _ g0') as [g1 [[] | e]] eqn:Hpre; [| discriminate].
    exists g1. split; [exact Hpre |].
    destruct (prefix_run pre (c :: post) g0' Hsplit Hempty Hpre) as [vs [_ [_ [Hkeys _]]]].
    apply get_None. rewrite Hkeys.
    pose proof grid_keys_NoDup as Hnd. rewrite Hsplit, map_app in Hnd. simpl in Hnd.
    now apply NoDup_app_mid in Hnd.
Qed.

Lemma complete_run_results_witness :
  let g := fst (Notebook.prediction_cell (helper := Demo.complete) Notebook.fresh) in
  map fst (Notebook.results g) =
    ["gru 12"; "lstm 12"; "gru 36"; "lstm 36"; "gru 60"; "lstm 60"]%string /\
  get (Notebook.results g) "lstm 36" = Some (Demo.labels, [0; 1; 1; 0]).
Proof.
  intros g.
  assert (Hrun : Notebook.prediction_cell (helper := Demo.complete) Notebook.fresh
                 = (g, Ok tt)) by (vm_compute; reflexivity).
  destruct (@complete_run_results Demo.complete Notebook.fresh g Hrun) as [Hkeys _].
  split; [exact Hkeys | vm_compute; reflexivity].
Defined.

(** C7: when a configuration of the grid fails, the cell stops with that
    exception, and every entry stored by the configurations processed
    before it is still in [results], unchanged: still the value computed
    for its configuration. *)
Theorem failure_keeps_earlier_results :
  forall (helper : CMEpredict) (g0 g1 g2 : Notebook.globals)
         (pre post : list (nat * string)) (k : nat * string) (e : exception),
    Notebook.grid = pre ++ k :: post ->
    Notebook.predict_all pre (fst (Notebook.set_results [] g0)) = (g1, Ok tt) ->
    Notebook.predict_one (fst k) (snd k) g1 = (g2, Raise e) ->
    Notebook.prediction_cell g0 = (g2, Raise e) /\
    (forall name v,
        get (Notebook.results g1) name = Some v ->
        get (Notebook.results g2) name = Some v) /\
    (forall c,
        In c pre ->
        exists v, Notebook.stored_value (fst c) (snd c) = Ok v /\
                  get (Notebook.results g2) (Notebook.config_key c) = Some v).
Proof.
  intros helper g0 g1 g2 pre post k e Hsplit Hpre Hk.
  set (g0' := fst (Notebook.set_results [] g0)) in *.
  assert (Hempty : Notebook.results g0' = []) by reflexivity.
  destruct (prefix_run pre (k :: post) g0' Hsplit Hempty Hpre) as [vs [_ [_ [Hkeys _]]]].
  assert (Hfresh : ~ In (Notebook.config_key k) (map fst (Notebook.results g1))).
  { rewrite Hkeys. pose proof grid_keys_NoDup as Hnd.
    rewrite Hsplit, map_app in Hnd. simpl in Hnd. now apply NoDup_app_mid in Hnd. }
  assert (Hkeep : forall name v,
             get (Notebook.results g1) name = Some v ->
             get (Notebook.results g2) name = Some v).
  { intros name v Hget.
    pose proof (predict_one_results (fst k) (snd k) g1) as Hres.
    rewrite Hk in Hres. simpl fst in Hres. rewrite Hres.
    destruct (Notebook.stored_value (fst k) (snd k)) as [vk | ek]; [| exact Hget].
    rewrite get_setitem_ne; [exact Hget |].
    intros ->. apply Hfresh. apply get_None in Hfresh.
    change (Notebook.config_name (snd k) (fst k)) with (Notebook.config_key k) in Hget.
    congruence. }
  split; [| split].
  - rewrite prediction_cell_unfold. fold g0'.
    unfold Notebook.predict_all in *. rewrite Hsplit, for_each_app, Hpre.
    simpl. unfold Notebook.bindM. now rewrite Hk.
  - exact Hkeep.
  - intros c Hc.
    destruct (prefix_entries pre (k :: post) g0' Hsplit Hempty Hpre c Hc) as [v [Hv Hget]].
    exists v. split; [exact Hv | now apply Hkeep].
Qed.

Lemma failure_keeps_earlier_results_witness :
  let g1 := fst (Notebook.predict_all (helper := Demo.lstm_36_missing)
                   [(12, "gru"); (12, "lstm"); (36, "gru")]%string
                   (fst (Notebook.set_results [] Notebook.fresh))) in
  let g2 := fst (Notebook.predict_one (helper := Demo.lstm_36_missing) 36 "lstm" g1) in
  Notebook.prediction_cell (helper := Demo.lstm_36_missing) Notebook.fresh =
    (g2, Raise Demo.no_such_file) /\
  map fst (Notebook.results g2) = ["gru 12"; "lstm 12"; "gru 36"]%string /\
  (forall name v,
      get (Notebook.results g1) name = Some v ->
      get (Notebook.results g2) name = Some v).
Proof.
  intros g1 g2.
  assert (Hpre : Notebook.predict_all (helper := Demo.lstm_36_missing)
                   [(12, "gru"); (12, "lstm"); (36, "gru")]%string
                   (fst (Notebook.set_results [] Notebook.fresh)) = (g1, Ok tt))
    by (vm_compute; reflexivity).
  assert (Hk : Notebook.predict_one (helper := Demo.lstm_36_missing) 36 "lstm" g1
               = (g2, Raise Demo.no_such_file))
    by (vm_compute; reflexivity).
  destruct (@failure_keeps_earlier_results Demo.lstm_36_missing Notebook.fresh g1 g2
              [(12, "gru"); (12, "lstm"); (36, "gru")]%string
              [(60, "gru"); (60, "lstm")]%string (36, "lstm"%string)
              Demo.no_such_file eq_refl Hpre Hk) as [Hcell [Hkeep _]].
  split; [exact Hcell |]. split; [vm_compute; reflexivity | exact Hkeep].
Defined.

(** ** The analysis loop *)

Section AnalysisFacts.

Context {helper : CMEpredict}.
Import Notebook.

(** One iteration plots the line computed from its own item, or raises
    and plots nothing. *)
Lemma analyse_one_line (item : string * (list nat * list nat)) (g : globals) :
  analyse_one item g =
  match line_of item with
  | Ok (fpr, tpr, label) => plot fpr tpr label g
  | Raise e => (g, Raise e)
  end.
Proof.
  destruct item as [name [y_test bc]].
  unfold line_of, metrics, analyse_one, bindM, call, Py.bind.
  destruct (roc_auc_score y_test (as_scores bc)) as [r_auc | e]; [| reflexivity].
  destruct (roc_curve y_test (as_scores bc)) as [[fpr tpr] | e]; [| reflexivity].
  destruct (legend name r_auc) as [label | e]; reflexivity.
Qed.

(** The lines a run adds are those of the items it got through, in
    order; it ends without exception exactly when every item has a
    line. *)
Lemma analyse_run (items : list (string * (list nat * list nat))) :
  forall g g1 r,
    analyse items g = (g1, r) ->
    exists lines,
      roc_lines g1 = roc_lines g ++ lines /\
      map Ok lines = map line_of (firstn (length lines) items) /\
      (r = Ok tt -> length lines = length items) /\
      (r = Ok tt <-> Forall (fun item => exists line, line_of item = Ok line) items).
Proof.
  induction items as [| item items IH]; intros g g1 r Hrun.
  - injection Hrun as <- <-. exists []. rewrite app_nil_r.
    repeat split; auto.
  - unfold analyse in Hrun. simpl in Hrun. unfold bindM in Hrun.
    rewrite analyse_one_line in Hrun.
    destruct (line_of item) as [[[fpr tpr] label] | e] eqn:Hline.
    + simpl in Hrun. fold (analyse items) in Hrun.
      destruct (IH _ _ _ Hrun) as [lines [Hlines [Hmap [Hlen Hiff]]]].
      simpl in Hlines.
      exists ((fpr, tpr, label) :: lines).
      split; [now rewrite Hlines, <- app_assoc |].
      split; [simpl; now rewrite Hline, Hmap |].
      split; [intros Hr; simpl; now rewrite (Hlen Hr) |].
      rewrite Hiff. split.
      * intros HF. constructor; [now exists (fpr, tpr, label) | exact HF].
      * intros HF. now inversion HF.
    + injection Hrun as <- <-. exists []. rewrite app_nil_r.
      repeat split; try discriminate; auto.
      intros HF. inversion HF as [| ? ? [line Hl] _]; subst. congruence.
Qed.

End AnalysisFacts.

Lemma map_Ok_inj (A : Type) (l l' : list A) :
  map (@Ok A) l = map (@Ok A) l' -> l = l'.
Proof.
  revert l'. induction l as [| a l IH]; intros [| a' l'] H; simpl in H; try discriminate.
  - reflexivity.
  - injection H as -> H. f_equal. now apply IH.
Qed.

Lemma metrics_all_computed (items : list (string * (list nat * list nat))) :
  Forall (fun item => exists m, Notebook.metrics item = Ok m) items ->
  exists ms, map Ok ms = map Notebook.metrics items.
Proof.
  induction 1 as [| item items [m Hm] _ [ms Hms]].
  - now exists [].
  - exists (m :: ms). simpl. now rewrite Hm, Hms.
Qed.

Lemma lines_of_metrics (items : list (string * (list nat * list nat))) :
  forall ms,
    map Ok ms = map Notebook.metrics items ->
    map Notebook.line_of items = map Ok (map snd ms).
Proof.
  induction items as [| item items IH]; intros [| [a line] ms] H; simpl in H;
    try discriminate; [reflexivity |].
  injection H as Hm H. simpl. unfold Notebook.line_of at 1. rewrite <- Hm.
  now rewrite (IH ms H).
Qed.

(** A run over items whose metrics can all be computed ends without
    exception and plots the line of each item, in order. *)
Lemma analyse_all_computed (helper : CMEpredict) (g : Notebook.globals)
      (items : list (string * (list nat * list nat)))
      (ms : list (pyfloat * (rates * rates * string))) :
  map Ok ms = map Notebook.metrics items ->
  snd (Notebook.analyse items g) = Ok tt /\
  Notebook.roc_lines (fst (Notebook.analyse items g)) =
    Notebook.roc_lines g ++ map snd ms.
Proof.
  intros Hms. pose proof (lines_of_metrics items ms Hms) as Hlines.
  destruct (Notebook.analyse items g) as [g1 r] eqn:Hrun.
  destruct (analyse_run _ _ Hrun) as [lines [Hl [Hm [Hlen Hiff]]]].
  assert (Hr : r = Ok tt).
  { apply Hiff. clear - Hlines. revert ms Hlines.
    induction items as [| item items IH]; intros ms H; [constructor |].
    destruct ms as [| m ms]; [discriminate |]. cbn [map] in H. injection H as H1 H2.
    constructor; [eexists; exact H1 | now apply IH with ms]. }
  split; [exact Hr |]. simpl.
  rewrite (Hlen Hr), firstn_all, Hlines in Hm.
  apply map_Ok_inj in Hm. now rewrite Hl, Hm.
Qed.

(** C6: for stored results whose metrics can all be computed,
    evaluating them in another order changes no configuration's
    metrics: in either order the loop ends without exception and has
    plotted exactly one line per item, the line of the metrics (AUROC,
    ROC points, legend) computed from that item alone, so that the two
    orders give the same metrics, up to the order of the lines. *)
Theorem analysis_order_independent :
  forall (helper : CMEpredict) (g : Notebook.globals)
         (items items' : list (string * (list nat * list nat))),
    Permutation items items' ->
    Forall (fun item => exists m, Notebook.metrics item = Ok m) items ->
    exists ms ms',
      map Ok ms = map Notebook.metrics items /\
      map Ok ms' = map Notebook.metrics items' /\
      Permutation ms ms' /\
      snd (Notebook.analyse items g) = Ok tt /\
      snd (Notebook.analyse items' g) = Ok tt /\
      Notebook.roc_lines (fst (Notebook.analyse items g)) =
        Notebook.roc_lines g ++ map snd ms /\
      Notebook.roc_lines (fst (Notebook.analyse items' g)) =
        Notebook.roc_lines g ++ map snd ms'.
Proof.
  intros helper g items items' Hperm Hall.
  destruct (metrics_all_computed Hall) as [ms Hms].
  destruct (metrics_all_computed (Permutation_Forall Hperm Hall)) as [ms' Hms'].
  exists ms, ms'.
  destruct (@analyse_all_computed helper g items ms Hms) as [Hr Hl].
  destruct (@analyse_all_computed helper g items' ms' Hms') as [Hr' Hl'].
  repeat split; try assumption.
  pose proof (Permutation_map Notebook.metrics Hperm) as Hp.
  rewrite <- Hms, <- Hms' in Hp.
  apply Permutation_map_inv in Hp. destruct Hp as [l3 [Heq Hp3]].
  apply map_Ok_inj in Heq. subst l3. now apply Permutation_sym.
Qed.

Lemma analysis_order_independent_witness :
  let items := [("gru 12"%string, (Demo.labels, [0; 1; 1; 0]));
                ("lstm 12"%string, ([0; 0; 1; 1], [0; 0; 1; 1]))] in
  let items' := [("lstm 12"%string, ([0; 0; 1; 1], [0; 0; 1; 1]));
                 ("gru 12"%string, (Demo.labels, [0; 1; 1; 0]))] in
  let g := Notebook.fresh (helper := Demo.complete) in
  exists ms ms',
    map Ok ms = map Notebook.metrics items /\
    map Ok ms' = map Notebook.metrics items' /\
    Permutation ms ms' /\
    snd (Notebook.analyse items g) = Ok tt /\
    snd (Notebook.analyse items' g) = Ok tt /\
    Notebook.roc_lines (fst (Notebook.analyse items g)) =
      Notebook.roc_lines g ++ map snd ms /\
    Notebook.roc_lines (fst (Notebook.analyse items' g)) =
      Notebook.roc_lines g ++ map snd ms'.
Proof.
  intros items items' g.
  apply (@analysis_order_independent Demo.complete g items items' (perm_swap _ _ [])).
  repeat constructor; eexists; vm_compute; reflexivity.
Defined.

(** C6, as stated for any set of stored results, fails: when the ground
    truth of one stored result has a single class, the loop stops at
    that item, so whether another item gets its metrics depends on the
    order.  With the single-class item last, the line of the first
    item is plotted; with the single-class item first, nothing is. *)
Lemma analysis_order_matters_with_single_class :
  let good := ("gru 12"%string, (Demo.labels, [0; 1; 1; 0])) in
  let bad := ("lstm 12"%string, ([0; 0], [0; 0])) in
  let g := Notebook.fresh (helper := Demo.complete) in
  Permutation [good; bad] [bad; good] /\
  Notebook.analyse [good; bad] g =
    (fst (Notebook.plot (Rates [0; 1 # 2; 1]%Q) (Rates [0; 1 # 2; 1]%Q)
                        "GRU 12 Hour (AUROC = 0.500)" g),
     Raise only_one_class) /\
  Notebook.roc_lines (fst (Notebook.analyse [good; bad] g)) =
    [(Rates [0; 1 # 2; 1]%Q, Rates [0; 1 # 2; 1]%Q, "GRU 12 Hour (AUROC = 0.500)"%string)] /\
  Notebook.analyse [bad; good] g = (g, Raise only_one_class) /\
  Notebook.roc_lines (fst (Notebook.analyse [bad; good] g)) = [] /\
  ~ Permutation (Notebook.roc_lines (fst (Notebook.analyse [good; bad] g)))
                (Notebook.roc_lines (fst (Notebook.analyse [bad; good] g))).
Proof.
  intros good bad g.
  split; [apply perm_swap |].
  split; [vm_compute; reflexivity |].
  split; [vm_compute; reflexivity |].
  split; [vm_compute; reflexivity |].
  split; [vm_compute; reflexivity |].
  intros Hp. apply Permutation_sym in Hp.
  assert (E : Notebook.roc_lines (fst (Notebook.analyse [bad; good] g)) = [])
    by (vm_compute; reflexivity).
  rewrite E in Hp. apply Permutation_nil in Hp.
  revert Hp. vm_compute. discriminate.
Qed.

(** ** The training cell *)

Section TrainingFacts.

Context {helper : CMEpredict}.
Import Notebook.

(** Once the data are loaded, the cell is the dispatch followed by the
    training statements. *)
Lemma training_cell_loaded (lit_lstm lit_gru type : pystr) (time_window : nat)
      (g : globals) (n_features : nat) (thresh : Q) (X_train : Tensor)
      (y_train : list nat) (nb_train : nat) (class_weights : list Q) (w0 w1 : Q) :
  get_n_features_thresh (value type) time_window = Ok (n_features, thresh) ->
  load_data ("CMEpredict/normalized_training_" ++ str time_window ++ ".csv")%string
            series_len start_feature n_features mask_value (value type) time_window
    = Ok (X_train, y_train, nb_train) ->
  compute_class_weight y_train = Ok class_weights ->
  getitem class_weights 0 = Ok w0 ->
  getitem class_weights 1 = Ok w1 ->
  training_cell lit_lstm lit_gru time_window type g =
  bindM (build_model lit_lstm lit_gru type n_features)
        (fun _ => train_and_save time_window type X_train y_train (w0, w1)) g.
Proof.
  intros E1 E2 E3 E4 E5. unfold training_cell, bindM at 1 2 3 4 5, call.
  now rewrite E1, E2, E3, E4, E5.
Qed.

End TrainingFacts.

(** C10 (as amended): in the training cell a model is constructed only
    when the object bound to [type] is identical ([is]) to the literal
    ['lstm'] (an LSTM) or ['gru'] (a GRU); otherwise no branch assigns
    [model] and there is no fallback construction: the training
    statements then run on whatever the name [model] is already bound to
    in the notebook, and raise [NameError] when it is unbound. *)
Theorem training_dispatch_by_identity :
  forall (helper : CMEpredict) (lit_lstm lit_gru type : pystr) (time_window : nat)
         (g : Notebook.globals) (n_features : nat) (thresh : Q) (X_train : Tensor)
         (y_train : list nat) (nb_train : nat) (class_weights : list Q) (w0 w1 : Q),
    get_n_features_thresh (value type) time_window = Ok (n_features, thresh) ->
    load_data ("CMEpredict/normalized_training_" ++ str time_window ++ ".csv")%string
              Notebook.series_len Notebook.start_feature n_features Notebook.mask_value
              (value type) time_window
      = Ok (X_train, y_train, nb_train) ->
    compute_class_weight y_train = Ok class_weights ->
    getitem class_weights 0 = Ok w0 ->
    getitem class_weights 1 = Ok w1 ->
    Notebook.training_cell lit_lstm lit_gru time_window type g =
    if is_ type lit_lstm then
      match lstm n_features Notebook.series_len with
      | Ok m => Notebook.fit_and_save m time_window type X_train y_train (w0, w1)
                                      (fst (Notebook.set_model m g))
      | Raise e => (g, Raise e)
      end
    else if is_ type lit_gru then
      match gru n_features Notebook.series_len with
      | Ok m => Notebook.fit_and_save m time_window type X_train y_train (w0, w1)
                                      (fst (Notebook.set_model m g))
      | Raise e => (g, Raise e)
      end
    else
      match Notebook.model g with
      | Some m0 => Notebook.fit_and_save m0 time_window type X_train y_train (w0, w1) g
      | None => (g, Raise (NameError "model"))
      end.
Proof.
  intros helper lit_lstm lit_gru type time_window g n_features thresh X_train y_train
         nb_train class_weights w0 w1 E1 E2 E3 E4 E5.
  rewrite (training_cell_loaded lit_lstm lit_gru type time_window g E1 E2 E3 E4 E5).
  unfold Notebook.build_model, Notebook.train_and_save, Notebook.bindM at 1.
  destruct (is_ type lit_lstm); [| destruct (is_ type lit_gru)].
  - unfold Notebook.bindM, Notebook.call, Notebook.name_model.
    destruct (lstm n_features Notebook.series_len); reflexivity.
  - unfold Notebook.bindM, Notebook.call, Notebook.name_model.
    destruct (gru n_features Notebook.series_len); reflexivity.
  - unfold Notebook.ret, Notebook.bindM at 1, Notebook.name_model.
    destruct (Notebook.model g); reflexivity.
Qed.

Lemma training_dispatch_by_identity_witness :
  let lit_lstm := {| oid := 1; value := "lstm" |} in
  let lit_gru := {| oid := 2; value := "gru" |} in
  let g := Notebook.fresh (helper := Demo.complete) in
  Notebook.training_cell lit_lstm lit_gru 12 {| oid := 3; value := "rnn" |} g =
    (g, Raise (NameError "model")) /\
  Notebook.model (fst (Notebook.training_cell lit_lstm lit_gru 12 lit_gru g)) = Some "gru"%string.
Proof.
  intros lit_lstm lit_gru g. split.
  - rewrite (@training_dispatch_by_identity Demo.complete lit_lstm lit_gru
               {| oid := 3; value := "rnn" |} 12 g 18 (1 # 2)%Q
               Demo.probabilities Demo.labels 4 [1%Q; 1%Q] 1%Q 1%Q
               eq_refl eq_refl eq_refl eq_refl eq_refl).
    reflexivity.
  - rewrite (@training_dispatch_by_identity Demo.complete lit_lstm lit_gru
               lit_gru 12 g 18 (1 # 2)%Q
               Demo.probabilities Demo.labels 4 [1%Q; 1%Q] 1%Q 1%Q
               eq_refl eq_refl eq_refl eq_refl eq_refl).
    reflexivity.
Defined.

(** C10, as stated, fails: after the prediction cell has run, the name
    [model] is bound to the model loaded last; a [type] that is not
    identical to either literal (here a string equal to 'lstm' that is
    another object) then builds nothing, raises no [NameError], and the
    cell fits and saves the model left by the prediction cell. *)
Lemma training_without_name_error :
  let lit_lstm := {| oid := 1; value := "lstm" |} in
  let lit_gru := {| oid := 2; value := "gru" |} in
  let type := {| oid := 3; value := "lstm" |} in
  let g := fst (Notebook.prediction_cell (helper := Demo.complete) Notebook.fresh) in
  is_ type lit_lstm = false /\
  is_ type lit_gru = false /\
  Notebook.model g = Some "CMEpredict/lstm-60-model.h5"%string /\
  snd (Notebook.training_cell lit_lstm lit_gru 12 type g) = Ok tt /\
  snd (Notebook.training_cell lit_lstm lit_gru 12 type g) <> Raise (NameError "model").
Proof.
  vm_compute. repeat split; discriminate.
Qed.

(** * Further properties of the cells *)

(** ** Thresholding is monotone *)

Lemma classify_le (p p' t t' : Q) :
  (p <= p')%Q -> (t' <= t)%Q -> classify p t <= classify p' t'.
Proof.
  intros Hp Ht. unfold classify.
  destruct (Qle_bool t p) eqn:E; [| lia].
  apply Qle_bool_iff in E.
  assert (H : Qle_bool t' p' = true).
  { apply Qle_bool_iff. apply Qle_trans with t; [exact Ht |].
    now apply Qle_trans with p. }
  now rewrite H.
Qed.

(** X1: a sample classified positive stays positive when its probability
    rises or the threshold is lowered, so lowering the threshold never
    lowers the number of samples predicted positive. *)
Theorem lower_threshold_more_positives :
  forall (p p' t t' : Q) (prob : list Q),
    (p <= p')%Q -> (t' <= t)%Q ->
    (classify p t = 1 -> classify p' t' = 1) /\
    predicted_positives (bc t prob) <= predicted_positives (bc t' prob).
Proof.
  intros p p' t t' prob Hp Ht. split.
  - intros H1. pose proof (classify_le Hp Ht) as Hle. rewrite H1 in Hle.
    unfold classify in *. destruct (Qle_bool t' p'); [reflexivity | lia].
  - unfold predicted_positives, bc.
    induction prob as [| q prob IH]; simpl; [lia |].
    pose proof (@classify_le q q t t' (Qle_refl q) Ht). lia.
Qed.

Lemma lower_threshold_more_positives_witness :
  (classify (6 # 10) (1 # 2) = 1 -> classify (9 # 10) (2 # 5) = 1) /\
  predicted_positives (bc (1 # 2) Demo.probabilities)
  <= predicted_positives (bc (2 # 5) Demo.probabilities).
Proof.
  apply (@lower_threshold_more_positives (6 # 10) (9 # 10) (1 # 2) (2 # 5)
           Demo.probabilities).
  - unfold Qle. simpl. lia.
  - unfold Qle. simpl. lia.
Defined.

(** ** Keys of the results *)

Lemma occurs_app (c : ascii) (s1 s2 : string) :
  occurs c (s1 ++ s2) = occurs c s1 || occurs c s2.
Proof.
  induction s1 as [| a s1 IH]; simpl; [reflexivity |].
  now rewrite IH, orb_assoc.
Qed.

Lemma uint_no_space (u : Decimal.uint) :
  occurs " " (NilEmpty.string_of_uint u) = false.
Proof. induction u; simpl; auto. Qed.

Lemma str_no_space (n : nat) : occurs " " (str n) = false.
Proof. apply uint_no_space. Qed.

Lemma str_inj (n m : nat) : str n = str m -> n = m.
Proof.
  unfold str. intros H.
  assert (Hu : Nat.to_uint n = Nat.to_uint m).
  { pose proof (NilEmpty.usu (Nat.to_uint n)) as Hn.
    pose proof (NilEmpty.usu (Nat.to_uint m)) as Hm.
    rewrite H in Hn. congruence. }
  rewrite <- (Unsigned.of_to n), <- (Unsigned.of_to m). now rewrite Hu.
Qed.

(** The last space of a key separates the algorithm from the digits. *)
Lemma split_at_last_space (s1 s2 d1 d2 : string) :
  occurs " " d1 = false -> occurs " " d2 = false ->
  (s1 ++ " " ++ d1 = s2 ++ " " ++ d2)%string ->
  s1 = s2 /\ d1 = d2.
Proof.
  intros H1 H2. revert s2.
  induction s1 as [| c s1 IH]; intros [| c' s2] H; simpl in H.
  - injection H as H. now split.
  - injection H as Hc H. exfalso. rewrite H, occurs_app in H1. simpl in H1.
    now rewrite orb_true_r in H1.
  - injection H as Hc H. exfalso. rewrite <- H, occurs_app in H2. simpl in H2.
    now rewrite orb_true_r in H2.
  - injection H as -> H. destruct (IH s2 H) as [-> ->]. now split.
Qed.

(** X2: the key f'{type} {time_window}' determines the configuration:
    two configurations with the same key have the same algorithm name
    and the same time window, whatever the names are. *)
Theorem config_name_injective :
  forall (type type' : string) (time_window time_window' : nat),
    Notebook.config_name type time_window = Notebook.config_name type' time_window' ->
    type = type' /\ time_window = time_window'.
Proof.
  intros type type' tw tw' H. unfold Notebook.config_name in H.
  destruct (split_at_last_space type type' _ _ (str_no_space tw) (str_no_space tw') H)
    as [-> Hs].
  split; [reflexivity | now apply str_inj].
Qed.

Lemma config_name_injective_witness :
  "gru"%string = "gru"%string /\ 12 = 12.
Proof.
  apply (@config_name_injective "gru" "gru" 12 12). reflexivity.
Defined.

Lemma config_key_inj (c c' : nat * string) :
  Notebook.config_key c = Notebook.config_key c' -> c = c'.
Proof.
  destruct c as [tw ty], c' as [tw' ty']. unfold Notebook.config_key. simpl.
  intros H. unfold Notebook.config_name in H.
  destruct (split_at_last_space ty ty' _ _ (str_no_space tw) (str_no_space tw') H)
    as [-> Hs].
  apply str_inj in Hs. now subst.
Qed.

Lemma config_keys_NoDup (configs : list (nat * string)) :
  NoDup configs -> NoDup (map Notebook.config_key configs).
Proof.
  induction 1 as [| c configs Hnotin Hnd IH]; simpl; constructor; [| exact IH].
  intros Hin. apply in_map_iff in Hin. destruct Hin as [c' [Hk Hc']].
  apply config_key_inj in Hk. now subst.
Qed.

(** ** The prediction loop on any list of configurations *)

Section MoreLoopFacts.

Context {helper : CMEpredict}.
Import Notebook.

(** Case analysis on the outcome of the next library call of an
    iteration of the prediction loop. *)
Ltac step_call :=
  cbv zeta;
  match goal with
  | |- context [get_n_features_thresh ?a ?b] =>
      destruct (get_n_features_thresh a b) as [[? ?] | ?] eqn:?
  | |- context [load_model ?f] =>
      destruct (load_model f) as [? | ?] eqn:?
  | |- context [load_data ?a ?b ?c ?d ?e ?f ?g] =>
      destruct (load_data a b c d e f g) as [[[? ?] ?] | ?] eqn:?
  | |- context [predict ?m ?x ?b] =>
      destruct (predict m x b) as [? | ?] eqn:?
  | |- context [cm ?y ?p] =>
      destruct (cm y p) as [? | ?] eqn:?
  | |- context [cell_texts ?c] =>
      destruct (cell_texts c) as [? | ?] eqn:?
  end.

(** After an iteration without exception, [model] is the model loaded
    from the file of its configuration. *)
Lemma predict_one_model (time_window : nat) (type : string) (g g' : globals) :
  predict_one time_window type g = (g', Ok tt) ->
  exists m,
    load_model ("CMEpredict/" ++ type ++ "-" ++ str time_window ++ "-model.h5")%string
      = Ok m /\
    model g' = Some m.
Proof.
  unfold predict_one, bindM, call, set_model, results_setitem, show.
  do 2 (step_call; [| discriminate]). simpl.
  do 3 (step_call; [| discriminate]). simpl.
  step_call; [| discriminate].
  intros H. injection H as <-. eexists. split; reflexivity.
Qed.

Lemma predict_all_cons (c : nat * string) (configs : list (nat * string)) (g : globals) :
  predict_all (c :: configs) g =
  match predict_one (fst c) (snd c) g with
  | (g1, Ok _) => predict_all configs g1
  | (g1, Raise e) => (g1, Raise e)
  end.
Proof. reflexivity. Qed.

(** Every entry [results] holds after the loop, however the loop ends,
    was there before the loop or was written by one of its iterations
    with the value computed for that configuration. *)
Lemma predict_all_entries (configs : list (nat * string)) :
  forall g k v,
    get (results (fst (predict_all configs g))) k = Some v ->
    get (results g) k = Some v \/
    exists c, In c configs /\ k = config_key c /\ stored_value (fst c) (snd c) = Ok v.
Proof.
  induction configs as [| c configs IH]; intros g k v Hget.
  - now left.
  - rewrite predict_all_cons in Hget.
    pose proof (predict_one_results (fst c) (snd c) g) as Hr.
    destruct (predict_one (fst c) (snd c) g) as [g1 r1]. simpl in Hr.
    assert (Hone : get (results g1) k = Some v ->
                   get (results g) k = Some v \/
                   (k = config_key c /\ stored_value (fst c) (snd c) = Ok v)).
    { rewrite Hr. destruct (stored_value (fst c) (snd c)) as [v0 | e]; [| now left].
      destruct (string_dec k (config_key c)) as [-> | Hne].
      - unfold config_key. rewrite get_setitem_eq. intros H. injection H as ->.
        right. now split.
      - unfold config_key in Hne. rewrite get_setitem_ne by exact Hne. now left. }
    assert (Hcases : get (results g1) k = Some v \/
                     exists c', In c' configs /\ k = config_key c' /\
                                stored_value (fst c') (snd c') = Ok v).
    { destruct r1 as [[] | e]; [now apply IH | now left]. }
    destruct Hcases as [H1 | [c' [Hin [Hk Hv]]]].
    + destruct (Hone H1) as [H | [Hk Hv]]; [now left |].
      right. exists c. repeat split; [now left | exact Hk | exact Hv].
    + right. exists c'. repeat split; [now right | exact Hk | exact Hv].
Qed.

Lemma setitem_keys (V : Type) (d : list (string * V)) (k x : string) (v : V) :
  In x (map fst (setitem d k v)) -> x = k \/ In x (map fst d).
Proof.
  induction d as [| [k' v'] d IH]; simpl.
  - intros [<- | []]. now left.
  - destruct (String.eqb k' k) eqn:E; simpl.
    + apply String.eqb_eq in E. subst k'. intros [<- | H]; auto.
    + intros [<- | H]; [auto |]. destruct (IH H); auto.
Qed.

End MoreLoopFacts.

(** X3: for any list of pairwise distinct configurations (for instance
    after [time_windows] has been edited to other hours), a run of the
    loop without exception, started on empty [results], stores exactly
    one entry per configuration, in the order of the list, each the
    value computed for its configuration. *)
Theorem distinct_configs_one_entry_each :
  forall (helper : CMEpredict) (configs : list (nat * string))
         (g g' : Notebook.globals),
    NoDup configs ->
    Notebook.results g = [] ->
    Notebook.predict_all configs g = (g', Ok tt) ->
    map fst (Notebook.results g') = map Notebook.config_key configs /\
    NoDup (map fst (Notebook.results g')) /\
    (forall c,
        In c configs ->
        exists v, Notebook.stored_value (fst c) (snd c) = Ok v /\
                  get (Notebook.results g') (Notebook.config_key c) = Some v).
Proof.
  intros helper configs g g' Hnd Hempty Hrun.
  pose proof (config_keys_NoDup Hnd) as Hkd.
  destruct (predict_all_ok configs g Hrun Hkd) as [vs [Hvs Hres]].
  { intros c _. rewrite Hempty. simpl. tauto. }
  rewrite Hempty in Hres. simpl in Hres.
  assert (Hkeys : map fst (Notebook.results g') = map Notebook.config_key configs)
    by (rewrite Hres; apply (stored_keys Hvs)).
  split; [exact Hkeys |]. split; [now rewrite Hkeys |].
  intros c Hc. destruct (stored_entry c Hvs Hc) as [v [Hv Hin]].
  exists v. split; [exact Hv |].
  apply get_In; [now rewrite Hkeys | now rewrite Hres].
Qed.

Lemma distinct_configs_one_entry_each_witness :
  let configs := [(24, "gru"); (48, "lstm"); (48, "gru")]%string in
  let g' := fst (Notebook.predict_all (helper := Demo.complete) configs Notebook.fresh) in
  map fst (Notebook.results g') = ["gru 24"; "lstm 48"; "gru 48"]%string /\
  NoDup (map fst (Notebook.results g')).
Proof.
  intros configs g'.
  assert (Hnd : NoDup configs).
  { unfold configs. repeat (constructor; [simpl; intuition discriminate |]). constructor. }
  assert (Hrun : Notebook.predict_all (helper := Demo.complete) configs Notebook.fresh
                 = (g', Ok tt)) by (vm_compute; reflexivity).
  destruct (@distinct_configs_one_entry_each Demo.complete configs Notebook.fresh g'
              Hnd eq_refl Hrun) as [Hkeys [Hkd _]].
  split; [exact Hkeys | exact Hkd].
Defined.

(** X4: the loop does not continue after an exception: when the
    iteration of configuration [k] raises, the loop ends with that
    exception and [results] has no entry for any configuration that
    comes after [k]. *)
Theorem no_results_after_failure :
  forall (helper : CMEpredict) (pre post : list (nat * string)) (k : nat * string)
         (g g1 g2 : Notebook.globals) (e : exception),
    NoDup (pre ++ k :: post) ->
    Notebook.results g = [] ->
    Notebook.predict_all pre g = (g1, Ok tt) ->
    Notebook.predict_one (fst k) (snd k) g1 = (g2, Raise e) ->
    Notebook.predict_all (pre ++ k :: post) g = (g2, Raise e) /\
    (forall c, In c post -> get (Notebook.results g2) (Notebook.config_key c) = None).
Proof.
  intros helper pre post k g g1 g2 e Hnd Hempty Hpre Hk. split.
  - unfold Notebook.predict_all in *. rewrite for_each_app, Hpre.
    simpl. unfold Notebook.bindM. now rewrite Hk.
  - intros c Hc. apply get_None. intros Hin.
    pose proof (config_keys_NoDup Hnd) as Hkd.
    rewrite map_app in Hkd. simpl in Hkd.
    assert (Hpre_keys : map fst (Notebook.results g1) = map Notebook.config_key pre).
    { destruct (predict_all_ok pre g Hpre (NoDup_app_l _ _ Hkd)) as [vs [Hvs Hres]].
      - intros c' _. rewrite Hempty. simpl. tauto.
      - rewrite Hres, Hempty. simpl. apply (stored_keys Hvs). }
    assert (Hin' : Notebook.config_key c = Notebook.config_key k \/
                   In (Notebook.config_key c) (map Notebook.config_key pre)).
    { pose proof (predict_one_results (fst k) (snd k) g1) as Hres.
      rewrite Hk in Hres. simpl fst in Hres. rewrite Hres in Hin.
      destruct (Notebook.stored_value (fst k) (snd k)).
      - apply setitem_keys in Hin. rewrite Hpre_keys in Hin. exact Hin.
      - right. now rewrite <- Hpre_keys. }
    assert (Hc' : In (Notebook.config_key c) (map Notebook.config_key post))
      by now apply in_map.
    destruct Hin' as [Heq | Hin'].
    + apply NoDup_remove_2 in Hkd. apply Hkd. apply in_app_iff. right.
      now rewrite <- Heq.
    + clear - Hkd Hin' Hc'.
      induction pre as [| p pre IH]; simpl in *; [contradiction |].
      inversion Hkd as [| ? ? Hnotin Hkd']; subst.
      destruct Hin' as [Heq | Hin'].
      * apply Hnotin. rewrite Heq. apply in_app_iff. right. now right.
      * now apply IH.
Qed.

Lemma no_results_after_failure_witness :
  let pre := [(12, "gru"); (12, "lstm"); (36, "gru")]%string in
  let post := [(60, "gru"); (60, "lstm")]%string in
  let g := fst (Notebook.set_results (helper := Demo.lstm_36_missing) [] Notebook.fresh) in
  let g1 := fst (Notebook.predict_all pre g) in
  let g2 := fst (Notebook.predict_one 36 "lstm" g1) in
  Notebook.predict_all (pre ++ (36, "lstm"%string) :: post) g = (g2, Raise Demo.no_such_file) /\
  (forall c, In c post -> get (Notebook.results g2) (Notebook.config_key c) = None).
Proof.
  intros pre post g g1 g2.
  assert (Hnd : NoDup (pre ++ (36, "lstm"%string) :: post)).
  { unfold pre, post. simpl.
    repeat (constructor; [simpl; intuition discriminate |]). constructor. }
  assert (Hpre : Notebook.predict_all pre g = (g1, Ok tt)) by (vm_compute; reflexivity).
  assert (Hk : Notebook.predict_one 36 "lstm" g1 = (g2, Raise Demo.no_such_file))
    by (vm_compute; reflexivity).
  apply (@no_results_after_failure Demo.lstm_36_missing pre post (36, "lstm"%string)
           g g1 g2 Demo.no_such_file Hnd eq_refl Hpre Hk).
Defined.

(** X5: the prediction cell starts from [results = {}]: whatever
    [results] held before the cell, and whether the cell raises or not,
    every entry [results] holds afterwards was written by this run, under
    the key of a configuration of the grid and with the value computed
    for that configuration; no entry of an earlier run survives. *)
Theorem prediction_cell_results_from_this_run :
  forall (helper : CMEpredict) (g0 : Notebook.globals)
         (k : string) (v : list nat * list nat),
    get (Notebook.results (fst (Notebook.prediction_cell g0))) k = Some v ->
    exists c,
      In c Notebook.grid /\ k = Notebook.config_key c /\
      Notebook.stored_value (fst c) (snd c) = Ok v.
Proof.
  intros helper g0 k v Hget. rewrite prediction_cell_unfold in Hget.
  apply predict_all_entries in Hget. destruct Hget as [Hold | Hnew]; [| exact Hnew].
  discriminate Hold.
Qed.

Lemma prediction_cell_results_from_this_run_witness :
  let g0 := fst (Notebook.set_results (helper := Demo.lstm_36_missing)
                   [("lstm 60"%string, ([1], [1])); ("gru 12"%string, ([1], [1]))]
                   Notebook.fresh) in
  snd (Notebook.prediction_cell g0) = Raise Demo.no_such_file /\
  get (Notebook.results (fst (Notebook.prediction_cell g0))) "lstm 60" = None /\
  exists c,
    In c Notebook.grid /\ "gru 12"%string = Notebook.config_key c /\
    Notebook.stored_value (helper := Demo.lstm_36_missing) (fst c) (snd c)
      = Ok (Demo.labels, [0; 1; 1; 0]).
Proof.
  intros g0.
  split; [vm_compute; reflexivity |].
  split; [vm_compute; reflexivity |].
  apply (@prediction_cell_results_from_this_run Demo.lstm_36_missing g0 "gru 12"%string
           (Demo.labels, [0; 1; 1; 0])).
  vm_compute. reflexivity.
Defined.

(** X6: after a run of the prediction cell without exception the name
    [model] is bound to the model loaded for the last configuration of
    the grid, the LSTM for 60 hours. *)
Theorem prediction_cell_leaves_last_model :
  forall (helper : CMEpredict) (g0 g : Notebook.globals),
    Notebook.prediction_cell g0 = (g, Ok tt) ->
    exists m,
      load_model "CMEpredict/lstm-60-model.h5" = Ok m /\
      Notebook.model g = Some m.
Proof.
  intros helper g0 g Hrun. rewrite prediction_cell_unfold in Hrun.
  unfold Notebook.predict_all in Hrun.
  change Notebook.grid
    with ([(12, "gru"); (12, "lstm"); (36, "gru"); (36, "lstm"); (60, "gru")]%string
            ++ [(60, "lstm"%string)]) in Hrun.
  rewrite for_each_app in Hrun.
  destruct (Notebook.for_each _ _ (fst (Notebook.set_results [] g0)))
    as [g1 [[] | e]]; [| discriminate].
  apply for_each_cons_ok in Hrun. destruct Hrun as [g2 [Hlast Hnil]].
  injection Hnil as <-.
  apply predict_one_model in Hlast. exact Hlast.
Qed.

Lemma prediction_cell_leaves_last_model_witness :
  exists m,
    load_model (CMEpredict := Demo.complete) "CMEpredict/lstm-60-model.h5" = Ok m /\
    Notebook.model (fst (Notebook.prediction_cell (helper := Demo.complete) Notebook.fresh))
    = Some m.
Proof.
  apply (@prediction_cell_leaves_last_model Demo.complete Notebook.fresh).
  vm_compute. reflexivity.
Defined.

(** ** The figure of one iteration *)

Lemma unique_at_most_one (l : list nat) :
  Forall (fun x => x <= 1) l -> ~ (In 0 l /\ In 1 l) -> length (unique l) <= 1.
Proof.
  intros Hb Hnot.
  pose proof (unique_sorted l) as Hs.
  assert (Hin : forall x, In x (unique l) -> In x l /\ x <= 1).
  { intros x Hx. apply (proj1 (unique_In l x)) in Hx. split; [exact Hx |].
    rewrite Forall_forall in Hb. now apply Hb. }
  destruct (unique l) as [| a [| b r]]; simpl; try lia.
  exfalso. apply Hnot.
  inversion Hs as [| ? ? _ Hall]; subst. inversion Hall as [| ? ? Hab _]; subst.
  destruct (Hin a (or_introl eq_refl)) as [Ha Ha1].
  destruct (Hin b (or_intror (or_introl eq_refl))) as [Hb' Hb1].
  assert (a = 0) by lia. assert (b = 1) by lia. subst. now split.
Qed.

Section FigureFacts.

Context {helper : CMEpredict}.
Import Notebook.

Ltac step_call :=
  cbv zeta;
  match goal with
  | |- context [get_n_features_thresh ?a ?b] =>
      destruct (get_n_features_thresh a b) as [[? ?] | ?] eqn:?
  | |- context [load_model ?f] =>
      destruct (load_model f) as [? | ?] eqn:?
  | |- context [load_data ?a ?b ?c ?d ?e ?f ?g] =>
      destruct (load_data a b c d e f g) as [[[? ?] ?] | ?] eqn:?
  | |- context [predict ?m ?x ?b] =>
      destruct (predict m x b) as [? | ?] eqn:?
  | |- context [cm ?y ?p] =>
      destruct (cm y p) as [? | ?] eqn:?
  end.

(** When the value of a configuration can be computed, its iteration
    stores it and then draws the texts of the matrix. *)
Lemma predict_one_stored (time_window : nat) (type : string) (g : globals)
      (y_test bc : list nat) :
  stored_value time_window type = Ok (y_test, bc) ->
  exists confmat,
    cm y_test bc = Ok confmat /\
    snd (predict_one time_window type g) =
      match cell_texts confmat with
      | Ok _ => Ok tt
      | Raise e => Raise e
      end /\
    figures (fst (predict_one time_window type g)) =
      match cell_texts confmat with
      | Ok texts =>
          figures g ++
          [((upper type ++ " " ++ str time_window ++ " Hour Confusion Matrix")%string,
            texts)]
      | Raise _ => figures g
      end.
Proof.
  unfold predict_one, stored_value, bindM, call, set_model, results_setitem, show, Py.bind.
  do 2 (step_call; [| discriminate]). simpl.
  do 3 (step_call; [| discriminate]). simpl.
  intros H. injection H as <- <-.
  eexists. split; [eassumption |].
  destruct (cell_texts _); split; reflexivity.
Qed.

End FigureFacts.

(** X7: when both labels occur in a batch with labels in {0, 1}, the
    iteration ends without exception and shows one figure, titled
    '{TYPE} {time_window} Hour Confusion Matrix', whose four texts are
    the TN, FP, FN and TP counts of the batch, which add up to the
    number of samples. *)
Theorem figure_of_two_label_batch :
  forall (helper : CMEpredict) (time_window : nat) (type : string)
         (g : Notebook.globals) (y_test bc : list nat),
    Notebook.stored_value time_window type = Ok (y_test, bc) ->
    Forall (fun l => l <= 1) y_test ->
    Forall (fun l => l <= 1) bc ->
    In 0 (y_test ++ bc) -> In 1 (y_test ++ bc) ->
    let tn := count_pairs 0 0 (combine y_test bc) in
    let fp := false_positives y_test bc in
    let fn := count_pairs 1 0 (combine y_test bc) in
    let tp := true_positives y_test bc in
    snd (Notebook.predict_one time_window type g) = Ok tt /\
    Notebook.figures (fst (Notebook.predict_one time_window type g)) =
      Notebook.figures g ++
      [((upper type ++ " " ++ str time_window ++ " Hour Confusion Matrix")%string,
        ["TN = " ++ str tn; "FP = " ++ str fp; "FN = " ++ str fn; "TP = " ++ str tp]%string)] /\
    tn + fp + fn + tp = length y_test.
Proof.
  intros helper time_window type g y_test bc Hv Hy Hb H0 H1 tn fp fn tp.
  destruct (predict_one_stored time_window type g Hv) as [confmat [Hcm [Hst Hfig]]].
  assert (Hlen : length y_test = length bc).
  { unfold Notebook.cm, confusion_matrix in Hcm.
    destruct (length y_test =? length bc) eqn:E; [now apply Nat.eqb_eq | discriminate]. }
  pose proof (confusion_matrix_binary Hlen Hy Hb H0 H1) as Hbin.
  unfold Notebook.cm in Hcm. rewrite Hbin in Hcm. injection Hcm as <-.
  split; [exact Hst |]. split; [exact Hfig |].
  destruct (confusion_matrix_total y_test bc Hlen) as [confmat [Hcm Hsum]].
  rewrite Hbin in Hcm. injection Hcm as <-.
  unfold sum_cells in Hsum. simpl in Hsum.
  unfold tn, fp, fn, tp, false_positives, true_positives. lia.
Qed.

Lemma figure_of_two_label_batch_witness :
  let g := Notebook.fresh (helper := Demo.complete) in
  snd (Notebook.predict_one 12 "gru" g) = Ok tt /\
  Notebook.figures (fst (Notebook.predict_one 12 "gru" g)) =
    [("GRU 12 Hour Confusion Matrix"%string,
      ["TN = 1"; "FP = 1"; "FN = 1"; "TP = 1"]%string)].
Proof.
  intros g.
  destruct (@figure_of_two_label_batch Demo.complete 12 "gru"%string g
              Demo.labels [0; 1; 1; 0]) as [Hst [Hfig _]].
  - reflexivity.
  - unfold Demo.labels. repeat constructor.
  - repeat constructor.
  - simpl. auto.
  - simpl. auto.
  - split; [exact Hst | exact Hfig].
Defined.

(** The texts of a figure that is shown are those the loops have drawn
    when they end without exception, and the loops raise what reading
    the cells raises. *)
Lemma cell_texts_draw_texts (confmat : list (list nat)) :
  Notebook.cell_texts confmat =
  match draw_texts confmat with
  | (texts, Ok _) => Ok texts
  | (_, Raise e) => Raise e
  end.
Proof.
  unfold Notebook.cell_texts, draw_texts, Py.bind. cbn [seq list_prod map app draw_cells].
  destruct (Notebook.cell_text confmat 0 0); [| reflexivity].
  destruct (Notebook.cell_text confmat 0 1); [| reflexivity].
  destruct (Notebook.cell_text confmat 1 0); [| reflexivity].
  destruct (Notebook.cell_text confmat 1 1); reflexivity.
Qed.

(** The matrix of a non-empty batch in which a single label occurs has
    the single cell N. *)
Lemma single_label_matrix (y_test bc : list nat) (confmat : list (list nat)) :
  y_test <> [] ->
  Forall (fun l => l <= 1) (y_test ++ bc) ->
  ~ (In 0 (y_test ++ bc) /\ In 1 (y_test ++ bc)) ->
  Notebook.cm y_test bc = Ok confmat ->
  confmat = [[length y_test]].
Proof.
  intros Hne Hb Hnot Hcm.
  assert (Hlen : length y_test = length bc).
  { unfold Notebook.cm, confusion_matrix in Hcm.
    destruct (length y_test =? length bc) eqn:E; [| discriminate].
    now apply Nat.eqb_eq. }
  destruct (confusion_matrix_total y_test bc Hlen) as [confmat' [Hcm' Hsum]].
  unfold Notebook.cm in Hcm. rewrite Hcm' in Hcm. injection Hcm as ->.
  unfold confusion_matrix in Hcm'. rewrite Hlen, Nat.eqb_refl in Hcm'.
  injection Hcm' as Hcm'. unfold unique_labels in Hcm'.
  pose proof (unique_at_most_one Hb Hnot) as Hone.
  assert (Hin : exists x, In x (unique (y_test ++ bc))).
  { destruct y_test as [| x y]; [congruence |].
    exists x. apply unique_In. now left. }
  destruct (unique (y_test ++ bc)) as [| a [| b r]].
  - destruct Hin as [x []].
  - simpl in Hcm'. subst confmat. unfold sum_cells in Hsum. simpl in Hsum.
    do 2 f_equal. lia.
  - simpl in Hone. lia.
Qed.

(** X8: when a single label occurs among the ground truth and the
    predictions of a non-empty batch, the iteration stores its result
    and then raises [IndexError] in the loops over the four cells: the
    matrix has the single cell N, the loops draw the text 'TN = N'
    (also when every sample is positive) and raise reading
    [confmat[0][1]], so the other three texts are never drawn. *)
Theorem single_label_batch_raises :
  forall (helper : CMEpredict) (time_window : nat) (type : string)
         (g : Notebook.globals) (y_test bc : list nat),
    Notebook.stored_value time_window type = Ok (y_test, bc) ->
    y_test <> [] ->
    Forall (fun l => l <= 1) y_test ->
    Forall (fun l => l <= 1) bc ->
    ~ (In 0 (y_test ++ bc) /\ In 1 (y_test ++ bc)) ->
    (exists msg, snd (Notebook.predict_one time_window type g) = Raise (IndexError msg)) /\
    get (Notebook.results (fst (Notebook.predict_one time_window type g)))
        (Notebook.config_name type time_window) = Some (y_test, bc) /\
    Notebook.cm y_test bc = Ok [[length y_test]] /\
    (exists msg,
        draw_texts [[length y_test]] =
        (["TN = " ++ str (length y_test)]%string, Raise (IndexError msg))).
Proof.
  intros helper time_window type g y_test bc Hv Hne Hy Hb Hnot.
  destruct (predict_one_stored time_window type g Hv) as [confmat [Hcm [Hst _]]].
  assert (Hall : Forall (fun l => l <= 1) (y_test ++ bc)) by (apply Forall_app; now split).
  pose proof (@single_label_matrix y_test bc confmat Hne Hall Hnot Hcm) as ->.
  split; [| split; [| split]].
  - rewrite Hst. eexists. reflexivity.
  - rewrite predict_one_results, Hv. apply get_setitem_eq.
  - exact Hcm.
  - eexists. reflexivity.
Qed.

Lemma single_label_batch_raises_witness :
  let g := Notebook.fresh (helper := Demo.all_negative) in
  (exists msg, snd (Notebook.predict_one 12 "gru" g) = Raise (IndexError msg)) /\
  get (Notebook.results (fst (Notebook.predict_one 12 "gru" g))) "gru 12"
  = Some ([0; 0], [0; 0]) /\
  Notebook.cm [0; 0] [0; 0] = Ok [[2]] /\
  (exists msg, draw_texts [[2]] = (["TN = 2"%string], Raise (IndexError msg))).
Proof.
  intros g.
  apply (@single_label_batch_raises Demo.all_negative 12 "gru"%string g [0; 0] [0; 0]).
  - reflexivity.
  - discriminate.
  - repeat constructor.
  - repeat constructor.
  - simpl. intros [_ [H | [H | [H | [H | []]]]]]; discriminate.
Defined.

(** ** The curve and the AUROC of 0/1 predictions *)

Lemma squeeze_represents (l : list Q) (t : Q) :
  In t l -> exists t', In t' (squeeze l) /\ (t == t')%Q.
Proof.
  revert t. induction l as [| a l IH]; intros t; [contradiction |].
  destruct l as [| b l].
  - intros [<- | []]. exists a. split; [now left | apply Qeq_refl].
  - rewrite squeeze_cons2. intros Hin. destruct (Qeq_bool a b) eqn:E.
    + destruct Hin as [<- | Hin].
      * destruct (IH b (or_introl eq_refl)) as [t' [Ht' Hq]].
        exists t'. split; [exact Ht' |].
        apply Qeq_bool_iff in E. now apply Qeq_trans with b.
      * now apply IH.
    + destruct Hin as [<- | Hin].
      * exists a. split; [now left | apply Qeq_refl].
      * destruct (IH t Hin) as [t' [Ht' Hq]]. exists t'. split; [now right | exact Hq].
Qed.

Lemma as_scores_In (bc : list nat) (b : nat) :
  Forall (fun l => l <= 1) bc -> b <= 1 ->
  (In (inject_Z (Z.of_nat b)) (as_scores bc) <-> In b bc).
Proof.
  intros Hbc Hb. unfold as_scores. rewrite in_map_iff. split.
  - intros [b' [Heq Hin]].
    rewrite Forall_forall in Hbc. specialize (Hbc b' Hin).
    destruct b as [| [| b]], b' as [| [| b']]; try lia; try discriminate; exact Hin.
  - intros Hin. now exists b.
Qed.

Lemma distinct_scores_values (bc : list nat) (t : Q) :
  Forall (fun l => l <= 1) bc ->
  In t (distinct_scores (as_scores bc)) -> t = 0%Q \/ t = 1%Q.
Proof.
  intros Hb Ht. apply distinct_scores_In in Ht. unfold as_scores in Ht.
  apply in_map_iff in Ht. destruct Ht as [b [<- Hbin]].
  rewrite Forall_forall in Hb. specialize (Hb b Hbin).
  destruct b as [| [| b]]; [now left | now right | lia].
Qed.

Lemma distinct_scores_has (bc : list nat) (b : nat) :
  Forall (fun l => l <= 1) bc -> b <= 1 ->
  (In (inject_Z (Z.of_nat b)) (distinct_scores (as_scores bc)) <-> In b bc).
Proof.
  intros Hbc Hb. split.
  - intros H. apply distinct_scores_In in H. now apply as_scores_In in H.
  - intros H. apply (as_scores_In Hbc Hb) in H.
    apply (Permutation_in _ (Permutation_sym (sort_perm Qle_bool (as_scores bc)))) in H.
    apply (proj1 (in_rev _ _)) in H.
    destruct (squeeze_represents _ _ H) as [t' [Ht' Hq]].
    fold (distinct_scores (as_scores bc)) in Ht'.
    destruct (distinct_scores_values t' Hbc Ht') as [-> | ->];
      destruct b as [| [| b]]; try lia; try exact Ht';
      exfalso; revert Hq; unfold Qeq; simpl; lia.
Qed.

(** The distinct scores of 0/1 predictions: 1 if some sample is
    predicted positive, then 0 if some sample is predicted negative. *)
Lemma distinct_scores_cases (bc : list nat) :
  Forall (fun l => l <= 1) bc ->
  distinct_scores (as_scores bc) =
  (if existsb (fun b => b =? 1) bc then [1%Q] else []) ++
  (if existsb (fun b => b =? 0) bc then [0%Q] else []).
Proof.
  intros Hb.
  pose proof (distinct_scores_strict (as_scores bc)) as Hs.
  pose proof (@distinct_scores_values bc) as Hv.
  pose proof (distinct_scores_has Hb (Nat.le_0_l 1)) as H0.
  pose proof (distinct_scores_has Hb (Nat.le_refl 1)) as H1.
  change (inject_Z (Z.of_nat 0)) with 0%Q in H0.
  change (inject_Z (Z.of_nat 1)) with 1%Q in H1.
  assert (E1 : existsb (fun b => b =? 1) bc = true <-> In 1 bc).
  { rewrite existsb_exists. split.
    - intros [x [Hx Hq]]. apply Nat.eqb_eq in Hq. now subst.
    - intros H. exists 1. now split. }
  assert (E0 : existsb (fun b => b =? 0) bc = true <-> In 0 bc).
  { rewrite existsb_exists. split.
    - intros [x [Hx Hq]]. apply Nat.eqb_eq in Hq. now subst.
    - intros H. exists 0. now split. }
  rewrite <- H1 in E1. rewrite <- H0 in E0. clear H0 H1.
  destruct (distinct_scores (as_scores bc)) as [| a [| b [| c r]]].
  - destruct (existsb (fun b => b =? 1) bc); [exfalso; now apply (proj1 E1) |].
    destruct (existsb (fun b => b =? 0) bc); [exfalso; now apply (proj1 E0) |].
    reflexivity.
  - destruct (Hv a Hb (or_introl eq_refl)) as [-> | ->].
    + destruct (existsb (fun b => b =? 1) bc).
      * exfalso. destruct (proj1 E1 eq_refl) as [H | []]. discriminate.
      * destruct (existsb (fun b => b =? 0) bc); [reflexivity |].
        exfalso. assert (false = true) by (apply E0; now left). discriminate.
    + destruct (existsb (fun b => b =? 0) bc).
      * exfalso. destruct (proj1 E0 eq_refl) as [H | []]. discriminate.
      * destruct (existsb (fun b => b =? 1) bc); [reflexivity |].
        exfalso. assert (false = true) by (apply E1; now left). discriminate.
  - inversion Hs as [| ? ? _ Hall]; subst. inversion Hall as [| ? ? Hab _]; subst.
    destruct (Hv a Hb (or_introl eq_refl)) as [-> | ->];
      destruct (Hv b Hb (or_intror (or_introl eq_refl))) as [-> | ->];
      try (exfalso; revert Hab; unfold Qlt; simpl; lia).
    assert (X1 : existsb (fun b => b =? 1) bc = true) by (apply E1; now left).
    assert (X0 : existsb (fun b => b =? 0) bc = true) by (apply E0; right; now left).
    now rewrite X1, X0.
  - exfalso. pose proof (distinct_scores_binarized Hb) as Hlen.
    assert (Hd : distinct_scores (as_scores bc) = distinct_scores (as_scores bc))
      by reflexivity.
    clear Hd. revert Hlen.
    inversion Hs as [| ? ? Hs' Hall]; subst.
    inversion Hall as [| ? ? Hab Hall']; subst. inversion Hall' as [| ? ? Hac _]; subst.
    inversion Hs' as [| ? ? _ Hall'']; subst. inversion Hall'' as [| ? ? Hbc _]; subst.
    intros _.
    destruct (Hv a Hb (or_introl eq_refl)) as [-> | ->];
      destruct (Hv b Hb (or_intror (or_introl eq_refl))) as [-> | ->];
      destruct (Hv c Hb (or_intror (or_intror (or_introl eq_refl)))) as [-> | ->];
      revert Hab Hac Hbc; unfold Qlt; simpl; lia.
Qed.

Lemma count_ext_in (A : Type) (f g : A -> bool) (l : list A) :
  (forall x, In x l -> f x = g x) -> count f l = count g l.
Proof.
  induction l as [| a l IH]; intros H; [reflexivity |].
  rewrite !count_cons, (H a (or_introl eq_refl)), IH; [reflexivity |].
  intros x Hx. apply H. now right.
Qed.

Lemma count_le (A : Type) (f g : A -> bool) (l : list A) :
  (forall x, In x l -> f x = true -> g x = true) -> count f l <= count g l.
Proof.
  induction l as [| a l IH]; intros H; [unfold count; simpl; lia |].
  rewrite !count_cons.
  assert (IH' : count f l <= count g l) by (apply IH; intros x Hx; apply H; now right).
  pose proof (H a (or_introl eq_refl)) as Ha.
  destruct (f a); [rewrite (Ha eq_refl) |]; destruct (g a); lia.
Qed.

(** At threshold 1 the sweep counts the false and the true positives of
    the stored predictions. *)
Lemma sweep_counts_at_one (y_test bc : list nat) :
  Forall (fun l => l <= 1) y_test ->
  Forall (fun l => l <= 1) bc ->
  count (fun sb => Qle_bool 1 (fst sb) && negb (snd sb))
        (combine (as_scores bc) (map (fun l => l =? 1) y_test))
    = false_positives y_test bc /\
  count (fun sb => Qle_bool 1 (fst sb) && snd sb)
        (combine (as_scores bc) (map (fun l => l =? 1) y_test))
    = true_positives y_test bc.
Proof.
  intros Hy. revert bc.
  unfold false_positives, true_positives.
  induction Hy as [| l y Hl Hy IH]; intros bc Hb.
  - destruct bc; simpl; split; reflexivity.
  - destruct Hb as [| b bc Hb1 Hb]; [simpl; split; reflexivity |].
    destruct (IH bc Hb) as [IHf IHt].
    simpl combine. rewrite !count_pairs_cons, !count_cons, IHf, IHt.
    destruct l as [| [| l]], b as [| [| b]]; try lia; split; reflexivity.
Qed.

(** At threshold 0 it counts every sample. *)
Lemma sweep_counts_at_zero (y_test bc : list nat) :
  count (fun sb => Qle_bool 0 (fst sb) && negb (snd sb))
        (combine (as_scores bc) (map (fun l => l =? 1) y_test))
    = negatives (combine (as_scores bc) (map (fun l => l =? 1) y_test)) /\
  count (fun sb => Qle_bool 0 (fst sb) && snd sb)
        (combine (as_scores bc) (map (fun l => l =? 1) y_test))
    = positives (combine (as_scores bc) (map (fun l => l =? 1) y_test)).
Proof.
  assert (H : forall sb, In sb (combine (as_scores bc) (map (fun l => l =? 1) y_test)) ->
                         Qle_bool 0 (fst sb) = true).
  { intros [s b] Hin. apply in_combine_l in Hin. unfold as_scores in Hin.
    apply in_map_iff in Hin. destruct Hin as [n [<- _]].
    apply Qle_bool_iff. unfold Qle. simpl. lia. }
  unfold negatives, positives. split; apply count_ext_in; intros sb Hsb;
    now rewrite (H sb Hsb).
Qed.

(** The curve of 0/1 predictions, point by point. *)
Lemma roc_curve_binarized_points (y_test bc : list nat) :
  length y_test = length bc ->
  Forall (fun l => l <= 1) y_test ->
  In 0 y_test -> In 1 y_test ->
  Forall (fun l => l <= 1) bc ->
  roc_curve y_test (as_scores bc) =
  Ok (Rates (0%Q ::
             (if existsb (fun b => b =? 1) bc then [false_positive_rate y_test bc] else []) ++
             (if existsb (fun b => b =? 0) bc then [1%Q] else [])),
      Rates (0%Q ::
             (if existsb (fun b => b =? 1) bc then [true_positive_rate y_test bc] else []) ++
             (if existsb (fun b => b =? 0) bc then [1%Q] else []))).
Proof.
  intros Hlen Hy H0 H1 Hb.
  rewrite (roc_curve_binarized Hlen Hy H0 H1 Hb).
  assert (Hlen' : length y_test = length (as_scores bc)) by now rewrite as_scores_length.
  unfold roc_sweep.
  set (samples := combine (as_scores bc) (map (fun l => l =? 1) y_test)).
  change (count (fun sb : Q * bool => negb (snd sb)) samples) with (negatives samples).
  change (count (fun sb : Q * bool => snd sb) samples) with (positives samples).
  destruct (sweep_counts_at_one Hy Hb) as [F1 T1].
  destruct (sweep_counts_at_zero y_test bc) as [F0 T0].
  fold samples in F1, T1, F0, T0.
  assert (HN : negatives samples = actual_negatives y_test)
    by apply (negatives_samples _ _ Hlen').
  assert (HP : positives samples = actual_positives y_test)
    by apply (positives_samples _ _ Hlen').
  assert (HNpos : 0 < actual_negatives y_test)
    by (apply (@count_positive _ _ y_test 0); auto).
  assert (HPpos : 0 < actual_positives y_test)
    by (apply (@count_positive _ _ y_test 1); auto).
  rewrite (distinct_scores_cases Hb).
  unfold false_positive_rate, true_positive_rate.
  destruct (existsb (fun b => b =? 1) bc), (existsb (fun b => b =? 0) bc);
    simpl; rewrite ?F1, ?T1, ?F0, ?T0, ?HN, ?HP, ?rate_full by assumption;
    reflexivity.
Qed.

(** X9: when the stored predictions of a configuration contain both a
    0 and a 1, the ROC curve the analysis cell plots is the origin, the
    single operating point (FP / negatives, TP / positives) of the
    thresholded predictions, and (1, 1). *)
Theorem roc_curve_is_one_operating_point :
  forall (y_test bc : list nat),
    length y_test = length bc ->
    Forall (fun l => l <= 1) y_test ->
    In 0 y_test -> In 1 y_test ->
    Forall (fun l => l <= 1) bc ->
    In 0 bc -> In 1 bc ->
    roc_curve y_test (as_scores bc) =
    Ok (Rates [0%Q; false_positive_rate y_test bc; 1%Q],
        Rates [0%Q; true_positive_rate y_test bc; 1%Q]).
Proof.
  intros y_test bc Hlen Hy H0 H1 Hb B0 B1.
  rewrite (roc_curve_binarized_points Hlen Hy H0 H1 Hb).
  assert (E1 : existsb (fun b => b =? 1) bc = true)
    by (apply existsb_exists; exists 1; now split).
  assert (E0 : existsb (fun b => b =? 0) bc = true)
    by (apply existsb_exists; exists 0; now split).
  now rewrite E1, E0.
Qed.

Lemma roc_curve_is_one_operating_point_witness :
  roc_curve Demo.labels (as_scores [0; 1; 1; 0]) =
  Ok (Rates [0%Q; false_positive_rate Demo.labels [0; 1; 1; 0]; 1%Q],
      Rates [0%Q; true_positive_rate Demo.labels [0; 1; 1; 0]; 1%Q]).
Proof.
  apply (@roc_curve_is_one_operating_point Demo.labels [0; 1; 1; 0]).
  - reflexivity.
  - unfold Demo.labels. repeat constructor.
  - simpl. auto.
  - simpl. auto.
  - repeat constructor.
  - simpl. auto.
  - simpl. auto.
Defined.

Lemma roc_auc_score_via_curve (y_true : list nat) (y_score : list Q) :
  Forall (fun l => l <= 1) y_true ->
  In 0 y_true -> In 1 y_true ->
  roc_auc_score y_true y_score =
  match roc_curve y_true y_score with
  | Ok (fpr, tpr) => auc fpr tpr
  | Raise e => Raise e
  end.
Proof.
  intros Hb H0 H1. unfold roc_auc_score.
  assert (Hnz : (length y_true =? 0) = false).
  { destruct y_true; [contradiction | reflexivity]. }
  rewrite Hnz, (unique_binary Hb H0 H1).
  change (2 <? length [0; 1]) with false. cbv iota.
  rewrite (label_binarize_binary Hb), (unique_binary Hb H0 H1).
  change (negb (length [0; 1] =? 2)) with false. cbv iota.
  unfold Py.bind. destruct (roc_curve y_true y_score) as [[fpr tpr] | e]; reflexivity.
Qed.

Lemma auc_sorted (xs ys : list Q) :
  StronglySorted Qle xs -> length xs = length ys -> 2 <= length xs ->
  auc (Rates xs) (Rates ys) = Ok (fin (Qred (trapz ys xs))).
Proof.
  intros Hs Hlen H2. unfold auc.
  change (rates_len (Rates xs)) with (length xs).
  change (rates_len (Rates ys)) with (length ys).
  rewrite Hlen, Nat.eqb_refl. cbn [negb]. cbv iota.
  assert (E : (length ys <? 2) = false) by (apply Nat.ltb_ge; lia).
  rewrite E. now rewrite (diff_sorted Hs).
Qed.

Lemma false_positives_le (y_test bc : list nat) :
  length y_test = length bc ->
  Forall (fun l => l <= 1) y_test ->
  Forall (fun l => l <= 1) bc ->
  false_positives y_test bc <= actual_negatives y_test /\
  true_positives y_test bc <= actual_positives y_test.
Proof.
  intros Hlen Hy Hb.
  assert (Hlen' : length y_test = length (as_scores bc)) by now rewrite as_scores_length.
  destruct (sweep_counts_at_one Hy Hb) as [<- <-].
  unfold actual_negatives, actual_positives.
  rewrite <- (negatives_samples _ _ Hlen'), <- (positives_samples _ _ Hlen').
  unfold negatives, positives. split; apply count_le; intros sb _ H;
    apply andb_true_iff in H; tauto.
Qed.

(** When no sample is predicted negative every negative is a false
    positive and every positive a true positive; when none is predicted
    positive there are neither. *)
Lemma one_sided_predictions (y_test bc : list nat) :
  length y_test = length bc ->
  Forall (fun l => l <= 1) y_test ->
  Forall (fun l => l <= 1) bc ->
  (existsb (fun b => b =? 0) bc = false ->
   false_positives y_test bc = actual_negatives y_test /\
   true_positives y_test bc = actual_positives y_test) /\
  (existsb (fun b => b =? 1) bc = false ->
   false_positives y_test bc = 0 /\ true_positives y_test bc = 0).
Proof.
  intros Hlen Hy Hb.
  assert (Hlen' : length y_test = length (as_scores bc)) by now rewrite as_scores_length.
  destruct (sweep_counts_at_one Hy Hb) as [<- <-].
  set (samples := combine (as_scores bc) (map (fun l => l =? 1) y_test)).
  assert (Hscore : forall sb, In sb samples -> exists b, In b bc /\ b <= 1 /\
                                                         fst sb = inject_Z (Z.of_nat b)).
  { intros [s c] Hin. apply in_combine_l in Hin. unfold as_scores in Hin.
    apply in_map_iff in Hin. destruct Hin as [b [<- Hbin]].
    exists b. rewrite Forall_forall in Hb. repeat split; auto. }
  split; intros E.
  - unfold actual_negatives, actual_positives.
    rewrite <- (negatives_samples _ _ Hlen'), <- (positives_samples _ _ Hlen').
    fold samples. unfold negatives, positives.
    split; apply count_ext_in; intros sb Hsb;
      destruct (Hscore sb Hsb) as [b [Hbin [Hb1 ->]]];
      (destruct b as [| [| b]]; [| reflexivity | lia]);
      exfalso;
      (assert (X : existsb (fun b => b =? 0) bc = true)
         by (apply existsb_exists; exists 0; now split));
      congruence.
  - split; apply count_none; intros sb Hsb;
      destruct (Hscore sb Hsb) as [b [Hbin [Hb1 ->]]];
      (destruct b as [| [| b]]; [reflexivity | | lia]);
      exfalso;
      (assert (X : existsb (fun b => b =? 1) bc = true)
         by (apply existsb_exists; exists 1; now split));
      congruence.
Qed.

(** X10: the number the analysis cell reports as AUROC is computed from
    the thresholded predictions, and is the mean of the true positive
    rate and the true negative rate of those predictions:
    (1 + TPR - FPR) / 2. *)
Theorem auroc_of_thresholded_predictions :
  forall (y_test bc : list nat),
    length y_test = length bc ->
    Forall (fun l => l <= 1) y_test ->
    In 0 y_test -> In 1 y_test ->
    Forall (fun l => l <= 1) bc ->
    exists a,
      roc_auc_score y_test (as_scores bc) = Ok (fin a) /\
      (a == (1 + true_positive_rate y_test bc - false_positive_rate y_test bc) / 2)%Q.
Proof.
  intros y_test bc Hlen Hy H0 H1 Hb.
  rewrite (roc_auc_score_via_curve _ Hy H0 H1).
  rewrite (roc_curve_binarized_points Hlen Hy H0 H1 Hb).
  destruct (false_positives_le Hlen Hy Hb) as [Hfp Htp].
  destruct (one_sided_predictions Hlen Hy Hb) as [Hall1 Hall0].
  assert (HNpos : 0 < actual_negatives y_test)
    by (apply (@count_positive _ _ y_test 0); auto).
  assert (HPpos : 0 < actual_positives y_test)
    by (apply (@count_positive _ _ y_test 1); auto).
  assert (Hf : (0 <= false_positive_rate y_test bc /\ false_positive_rate y_test bc <= 1)%Q).
  { unfold false_positive_rate. split; [apply rate_nonneg | now apply rate_le_1]. }
  unfold Qdiv. change (/ 2)%Q with (1 # 2)%Q.
  destruct (existsb (fun b => b =? 1) bc) eqn:E1;
    destruct (existsb (fun b => b =? 0) bc) eqn:E0; simpl app.
  - set (f := false_positive_rate y_test bc) in *.
    set (t := true_positive_rate y_test bc) in *.
    rewrite auc_sorted.
    + eexists. split; [reflexivity |]. rewrite Qred_correct.
      change (trapz [0; t; 1] [0; f; 1])%Q
        with ((f - 0) * ((t + 0) / 2) + ((1 - f) * ((1 + t) / 2) + 0))%Q.
      unfold Qdiv. change (/ 2)%Q with (1 # 2)%Q. ring.
    + repeat constructor; try tauto. apply Qle_refl || (unfold Qle; simpl; lia).
    + reflexivity.
    + simpl. lia.
  - destruct (Hall1 eq_refl) as [Ef Et].
    unfold false_positive_rate, true_positive_rate. rewrite Ef, Et.
    rewrite !rate_full by assumption.
    eexists. split; [reflexivity |]. vm_compute. reflexivity.
  - destruct (Hall0 eq_refl) as [Ef Et].
    unfold false_positive_rate, true_positive_rate. rewrite Ef, Et.
    rewrite !rate_zero.
    eexists. split; [reflexivity |]. vm_compute. reflexivity.
  - exfalso. destruct bc as [| b bc].
    + destruct y_test; [contradiction | discriminate].
    + inversion Hb; subst. simpl in E1, E0.
      destruct b as [| [| b]]; simpl in *; try discriminate; lia.
Qed.

Lemma auroc_of_thresholded_predictions_witness :
  let tpr := true_positive_rate [0; 0; 1; 1; 1] [0; 1; 1; 1; 0] in
  let fpr := false_positive_rate [0; 0; 1; 1; 1] [0; 1; 1; 1; 0] in
  exists a,
    roc_auc_score [0; 0; 1; 1; 1] (as_scores [0; 1; 1; 1; 0]) = Ok (fin a) /\
    (a == (1 + tpr - fpr) / 2)%Q.
Proof.
  apply (@auroc_of_thresholded_predictions [0; 0; 1; 1; 1] [0; 1; 1; 1; 0]).
  - reflexivity.
  - repeat constructor.
  - simpl. auto.
  - simpl. auto.
  - repeat constructor.
Defined.

(** ** What the cells leave alone *)

Section FrameFacts.

Context {helper : CMEpredict}.
Import Notebook.

Lemma analyse_frame (items : list (string * (list nat * list nat))) :
  forall g,
    results (fst (analyse items g)) = results g /\
    model (fst (analyse items g)) = model g /\
    figures (fst (analyse items g)) = figures g.
Proof.
  induction items as [| item items IH]; intros g; [now repeat split |].
  unfold analyse. simpl. unfold bindM. rewrite analyse_one_line.
  destruct (line_of item) as [[[fpr tpr] label] | e]; [| now repeat split].
  unfold plot. fold (analyse items).
  match goal with
  | |- context [analyse items ?g'] => destruct (IH g') as [H1 [H2 H3]]
  end.
  rewrite H1, H2, H3. now repeat split.
Qed.

End FrameFacts.

(** X11: the analysis cell only reads [results]: whatever happens in
    it, [results], [model] and the confusion-matrix figures are as
    before, so it can be run again on the same predictions. *)
Theorem analysis_cell_only_reads :
  forall (helper : CMEpredict) (g : Notebook.globals),
    Notebook.results (fst (Notebook.analysis_cell g)) = Notebook.results g /\
    Notebook.model (fst (Notebook.analysis_cell g)) = Notebook.model g /\
    Notebook.figures (fst (Notebook.analysis_cell g)) = Notebook.figures g.
Proof.
  intros helper g. unfold Notebook.analysis_cell. apply analyse_frame.
Qed.

Section TrainingFrame.

Context {helper : CMEpredict}.
Import Notebook.

Lemma build_model_frame (lit_lstm lit_gru type : pystr) (n_features : nat) (g : globals) :
  results (fst (build_model lit_lstm lit_gru type n_features g)) = results g.
Proof.
  unfold build_model, bindM, call, set_model, ret.
  destruct (is_ type lit_lstm); [| destruct (is_ type lit_gru)].
  - destruct (lstm n_features series_len); reflexivity.
  - destruct (gru n_features series_len); reflexivity.
  - reflexivity.
Qed.

Lemma fit_and_save_frame (m : Model) (time_window : nat) (type : pystr)
      (X_train : Tensor) (y_train : list nat) (w : Q * Q) (g : globals) :
  results (fst (fit_and_save m time_window type X_train y_train w g)) = results g.
Proof.
  unfold fit_and_save, bindM, call, set_model.
  destruct (compile m) as [m1 | e]; [| reflexivity].
  destruct (fit m1 X_train y_train epochs batch_size w) as [m2 | e]; [| reflexivity].
  reflexivity.
Qed.

Lemma train_and_save_frame (time_window : nat) (type : pystr)
      (X_train : Tensor) (y_train : list nat) (w : Q * Q) (g : globals) :
  results (fst (train_and_save time_window type X_train y_train w g)) = results g.
Proof.
  unfold train_and_save, bindM at 1, name_model.
  destruct (model g) as [m |]; [apply fit_and_save_frame | reflexivity].
Qed.

End TrainingFrame.

(** X12: the training cell never touches [results]: after it has run,
    whether it raised or not, [results] still holds the predictions of
    the models loaded earlier, until the prediction cell is run again. *)
Theorem training_cell_keeps_results :
  forall (helper : CMEpredict) (lit_lstm lit_gru type : pystr) (time_window : nat)
         (g : Notebook.globals),
    Notebook.results (fst (Notebook.training_cell lit_lstm lit_gru time_window type g))
    = Notebook.results g.
Proof.
  intros helper lit_lstm lit_gru type time_window g.
  unfold Notebook.training_cell, Notebook.bindM at 1 2 3 4 5 6, Notebook.call.
  destruct (get_n_features_thresh _ _) as [[n thresh] | e]; [| reflexivity].
  destruct (load_data _ _ _ _ _ _ _) as [[[X y] nb] | e]; [| reflexivity].
  destruct (compute_class_weight y) as [ws | e]; [| reflexivity].
  destruct (getitem ws 0) as [w0 | e]; [| reflexivity].
  destruct (getitem ws 1) as [w1 | e]; [| reflexivity].
  pose proof (build_model_frame lit_lstm lit_gru type n g) as Hb.
  destruct (Notebook.build_model lit_lstm lit_gru type n g) as [g1 [[] | e]];
    simpl in Hb; [| exact Hb].
  rewrite train_and_save_frame. exact Hb.
Qed.

(** X13: training needs a weight for both classes: when
    [compute_class_weight] returns fewer than two weights (training
    labels of a single class), building [class_weight_] raises
    [IndexError] before any model is constructed: the name [model] is
    still bound to what it was bound to before the cell, if anything. *)
Theorem training_needs_two_class_weights :
  forall (helper : CMEpredict) (lit_lstm lit_gru type : pystr) (time_window : nat)
         (g : Notebook.globals) (n_features : nat) (thresh : Q) (X_train : Tensor)
         (y_train : list nat) (nb_train : nat) (class_weights : list Q),
    get_n_features_thresh (value type) time_window = Ok (n_features, thresh) ->
    load_data ("CMEpredict/normalized_training_" ++ str time_window ++ ".csv")%string
              Notebook.series_len Notebook.start_feature n_features Notebook.mask_value
              (value type) time_window
      = Ok (X_train, y_train, nb_train) ->
    compute_class_weight y_train = Ok class_weights ->
    length class_weights < 2 ->
    (exists msg,
        snd (Notebook.training_cell lit_lstm lit_gru time_window type g)
        = Raise (IndexError msg)) /\
    Notebook.model (fst (Notebook.training_cell lit_lstm lit_gru time_window type g))
    = Notebook.model g.
Proof.
  intros helper lit_lstm lit_gru type time_window g n_features thresh X_train y_train
         nb_train class_weights E1 E2 E3 Hlen.
  assert (Hrun : exists msg,
             Notebook.training_cell lit_lstm lit_gru time_window type g =
             (g, Raise (IndexError msg))).
  { unfold Notebook.training_cell, Notebook.bindM at 1 2 3 4 5, Notebook.call.
    rewrite E1, E2, E3.
    destruct class_weights as [| w0 [| w1 ws]];
      [eexists; reflexivity | eexists; reflexivity |].
    simpl in Hlen. lia. }
  destruct Hrun as [msg Hrun]. rewrite Hrun.
  split; [now exists msg | reflexivity].
Qed.

Lemma training_needs_two_class_weights_witness :
  let lit_lstm := {| oid := 1; value := "lstm" |} in
  let lit_gru := {| oid := 2; value := "gru" |} in
  let g := Notebook.fresh (helper := Demo.all_negative) in
  (exists msg,
      snd (Notebook.training_cell lit_lstm lit_gru 12 lit_lstm g) = Raise (IndexError msg)) /\
  Notebook.model (fst (Notebook.training_cell lit_lstm lit_gru 12 lit_lstm g)) = None.
Proof.
  intros lit_lstm lit_gru g.
  apply (@training_needs_two_class_weights Demo.all_negative lit_lstm lit_gru lit_lstm 12 g
           18 (1 # 2)%Q [1 # 10; 2 # 10]%Q [0; 0] 2 [1%Q]).
  - reflexivity.
  - reflexivity.
  - reflexivity.
  - simpl. lia.
Defined.

(** ** The analysis loop stops at a single-class configuration *)

(** X14: the analysis loop stops at the first configuration whose
    ground truth has a single class: it raises the [ValueError] of
    [roc_auc_score] there, and no line is plotted for that
    configuration or for any configuration after it. *)
Theorem analysis_stops_at_single_class :
  forall (helper : CMEpredict) (g g1 : Notebook.globals)
         (pre post : list (string * (list nat * list nat)))
         (name : string) (y_test bc : list nat) (c : nat),
    Notebook.analyse pre g = (g1, Ok tt) ->
    y_test <> [] -> Forall (eq c) y_test ->
    Notebook.analyse (pre ++ (name, (y_test, bc)) :: post) g = (g1, Raise only_one_class).
Proof.
  intros helper g g1 pre post name y_test bc c Hpre Hne Hc.
  unfold Notebook.analyse in *. rewrite for_each_app, Hpre.
  cbn [Notebook.for_each]. unfold Notebook.bindM at 1.
  rewrite (analyse_one_raise name y_test bc g1
             (roc_auc_score_one_class (as_scores bc) Hne Hc)).
  reflexivity.
Qed.

Lemma analysis_stops_at_single_class_witness :
  let g := Notebook.fresh (helper := Demo.complete) in
  let pre := [("gru 12"%string, (Demo.labels, [0; 1; 1; 0]))] in
  let g1 := fst (Notebook.analyse pre g) in
  Notebook.analyse
    (pre ++ ("lstm 12"%string, ([0; 0; 0; 0], [0; 1; 1; 0]))
         :: [("gru 36"%string, (Demo.labels, [0; 1; 1; 0]))]) g
  = (g1, Raise only_one_class) /\
  length (Notebook.roc_lines g1) = 1.
Proof.
  intros g pre g1.
  assert (Hpre : Notebook.analyse pre g = (g1, Ok tt)) by (vm_compute; reflexivity).
  split.
  - apply (@analysis_stops_at_single_class Demo.complete g g1 pre
             [("gru 36"%string, (Demo.labels, [0; 1; 1; 0]))]
             "lstm 12"%string [0; 0; 0; 0] [0; 1; 1; 0] 0 Hpre).
    + discriminate.
    + repeat constructor.
  - vm_compute. reflexivity.
Defined.

(** ** From the predictions to the plot *)

Lemma legend_plain (name : string) (r_auc : pyfloat) :
  has_percent name = false ->
  Notebook.legend name r_auc =
  Ok (upper name ++ " Hour (AUROC = " ++ format_0_3f r_auc ++ ")")%string.
Proof.
  intros H. unfold Notebook.legend.
  rewrite percent_format_prefix by now rewrite has_percent_upper.
  reflexivity.
Qed.

Lemma Forall2_combine_In (A B : Type) (R : A -> B -> Prop) (l : list A) (l' : list B)
      (a : A) (b : B) :
  Forall2 R l l' -> In (a, b) (combine l l') -> R a b.
Proof.
  induction 1 as [| x y l l' Hxy HF IH]; simpl; [contradiction |].
  intros [Heq | Hin]; [injection Heq as <- <-; exact Hxy | now apply IH].
Qed.

Section PipelineFacts.

Context {helper : CMEpredict}.
Import Notebook.

(** The loop runs through when every stored result has both classes in
    its ground truth, as many predictions as labels, and a key without
    [%]. *)
Lemma analyse_all_ok (items : list (string * (list nat * list nat))) :
  (forall name y_test bc,
      In (name, (y_test, bc)) items ->
      has_percent name = false /\ length y_test = length bc /\
      Forall (fun l => l <= 1) y_test /\ In 0 y_test /\ In 1 y_test) ->
  forall g,
  exists g' lines,
    analyse items g = (g', Ok tt) /\
    roc_lines g' = roc_lines g ++ lines /\
    Forall2 plotted_for items lines.
Proof.
  induction items as [| [name [y_test bc]] items IH]; intros Hall g.
  - exists g, []. rewrite app_nil_r. repeat split. constructor.
  - destruct (Hall name y_test bc (or_introl eq_refl)) as [Hp [Hlen [Hy [H0 H1]]]].
    assert (Hlen' : length y_test = length (as_scores bc))
      by now rewrite as_scores_length.
    destruct (roc_auc_score_binary (as_scores bc) Hlen' Hy H0 H1) as [a [Hauc Ha]].
    destruct (roc_curve_binary (as_scores bc) Hlen' Hy H0 H1) as [Hroc _].
    pose proof (@analyse_one_ok helper name y_test bc _ _ _ g Hauc Hroc) as Hone.
    unfold bindM, call in Hone. rewrite (legend_plain name (fin a) Hp) in Hone.
    match type of Hone with _ = plot ?f ?t ?l g =>
      set (fpr := f) in *; set (tpr := t) in *; set (label := l) in *
    end.
    destruct (IH (fun n y b Hin => Hall n y b (or_intror Hin)) (fst (plot fpr tpr label g)))
      as [g' [lines [Hrun [Hlines HF]]]].
    exists g', ((fpr, tpr, label) :: lines). split; [| split].
    + unfold analyse. cbn [for_each]. unfold bindM at 1. rewrite Hone. exact Hrun.
    + rewrite Hlines. simpl. now rewrite <- app_assoc.
    + constructor; [| exact HF].
      exists a. simpl. repeat split; try tauto; assumption.
Qed.

End PipelineFacts.

(** X15: from the predictions to the plot: after a run of the
    prediction cell without exception, if every configuration's ground
    truth has both classes, the analysis cell runs without exception
    and plots six lines, one per configuration in the order of the
    grid, each labelled with the upper-cased key and an AUROC between 0
    and 1. *)
Theorem analysis_after_complete_prediction :
  forall (helper : CMEpredict) (g0 g : Notebook.globals),
    Notebook.prediction_cell g0 = (g, Ok tt) ->
    (forall name y_test bc,
        In (name, (y_test, bc)) (Notebook.results g) ->
        Forall (fun l => l <= 1) y_test /\ In 0 y_test /\ In 1 y_test) ->
    exists g' lines,
      Notebook.analysis_cell g = (g', Ok tt) /\
      Notebook.roc_lines g' = Notebook.roc_lines g ++ lines /\
      length lines = 6 /\
      Forall2 plotted_for (Notebook.results g) lines.
Proof.
  intros helper g0 g Hrun Hboth. rewrite prediction_cell_unfold in Hrun.
  set (g0' := fst (Notebook.set_results [] g0)) in *.
  assert (Hempty : Notebook.results g0' = []) by reflexivity.
  assert (Hgrid : Notebook.grid = Notebook.grid ++ []) by now rewrite app_nil_r.
  destruct (prefix_run Notebook.grid [] g0' Hgrid Hempty Hrun)
    as [vs [Hvs [Hres [Hkeys _]]]].
  destruct (analyse_all_ok (Notebook.results g)) with (g := g)
    as [g' [lines [Hana [Hlines HF]]]].
  { intros name y_test bc Hin.
    destruct (Hboth name y_test bc Hin) as [Hy [H0 H1]].
    assert (Hname : In name (map fst (Notebook.results g))).
    { apply in_map_iff. now exists (name, (y_test, bc)). }
    rewrite Hres in Hin. apply in_map_iff in Hin.
    destruct Hin as [[c v] [Heq Hcv]]. simpl in Heq. injection Heq as _ Hv.
    pose proof (@Forall2_combine_In _ _ _ _ _ c v Hvs Hcv) as Hstored. simpl in Hstored.
    destruct (stored_value_ok _ _ Hstored)
      as [n [th [m [X [y [nb [prob [_ [_ [_ [_ [Hlen Hv']]]]]]]]]]]].
    rewrite Hv in Hv'. injection Hv' as -> ->.
    split; [| split; [now rewrite bc_length | tauto]].
    rewrite Hkeys, grid_keys in Hname. simpl in Hname.
    repeat (destruct Hname as [<- | Hname]; [reflexivity |]). contradiction. }
  exists g', lines. split; [exact Hana |]. split; [exact Hlines |]. split; [| exact HF].
  apply Forall2_length in HF. rewrite <- HF.
  rewrite <- (length_map fst), Hkeys, grid_keys. reflexivity.
Qed.

Lemma analysis_after_complete_prediction_witness :
  let g := fst (Notebook.prediction_cell (helper := Demo.complete) Notebook.fresh) in
  exists g' lines,
    Notebook.analysis_cell g = (g', Ok tt) /\
    Notebook.roc_lines g' = Notebook.roc_lines g ++ lines /\
    length lines = 6 /\
    Forall2 plotted_for (Notebook.results g) lines.
Proof.
  intros g.
  assert (Hrun : Notebook.prediction_cell (helper := Demo.complete) Notebook.fresh
                 = (g, Ok tt)) by (vm_compute; reflexivity).
  apply (@analysis_after_complete_prediction Demo.complete Notebook.fresh g Hrun).
  intros name y_test bc Hin. vm_compute in Hin.
  repeat (destruct Hin as [Heq | Hin];
          [injection Heq as _ <- _; repeat split;
           [repeat constructor | simpl; auto | simpl; auto] |]).
  contradiction.
Defined.

(** ** The figures of a run *)

Lemma cell_texts_four (confmat : list (list nat)) (texts : list string) :
  Notebook.cell_texts confmat = Ok texts -> length texts = 4.
Proof.
  unfold Notebook.cell_texts, Py.bind.
  destruct (Notebook.cell_text confmat 0 0); [| discriminate].
  destruct (Notebook.cell_text confmat 0 1); [| discriminate].
  destruct (Notebook.cell_text confmat 1 0); [| discriminate].
  destruct (Notebook.cell_text confmat 1 1); [| discriminate].
  intros H. injection H as <-. reflexivity.
Qed.

Section TitleFacts.

Context {helper : CMEpredict}.
Import Notebook.

Lemma predict_one_figure (c : nat * string) (g g' : globals) :
  predict_one (fst c) (snd c) g = (g', Ok tt) ->
  exists texts,
    figures g' = figures g ++ [(figure_title c, texts)] /\ length texts = 4.
Proof.
  unfold predict_one, bindM, call, set_model, results_setitem, show, figure_title.
  cbv zeta.
  destruct (get_n_features_thresh _ _) as [[n th] | e]; [| discriminate].
  destruct (load_model _) as [m | e]; [| discriminate]. simpl.
  destruct (load_data _ _ _ _ _ _ _) as [[[X y] nb] | e]; [| discriminate].
  destruct (predict m X batch_size) as [prob | e]; [| discriminate].
  destruct (cm y (bc th prob)) as [confmat | e]; [| discriminate]. simpl.
  destruct (cell_texts confmat) as [texts | e] eqn:Et; [| discriminate].
  intros H. injection H as <-. exists texts. split; [reflexivity |].
  now apply cell_texts_four with confmat.
Qed.

End TitleFacts.

(** X16: a run of the loop without exception shows exactly one figure
    per configuration, in the order of the configurations, titled
    '{TYPE} {time_window} Hour Confusion Matrix' and carrying four
    texts. *)
Theorem one_figure_per_configuration :
  forall (helper : CMEpredict) (configs : list (nat * string))
         (g g' : Notebook.globals),
    Notebook.predict_all configs g = (g', Ok tt) ->
    exists figs,
      Notebook.figures g' = Notebook.figures g ++ figs /\
      map fst figs = map figure_title configs /\
      Forall (fun fig => length (snd fig) = 4) figs.
Proof.
  intros helper configs. induction configs as [| c configs IH]; intros g g' Hrun.
  - injection Hrun as <-. exists []. rewrite app_nil_r. repeat split. constructor.
  - unfold Notebook.predict_all in Hrun. apply for_each_cons_ok in Hrun.
    destruct Hrun as [g1 [Hone Hrest]]. fold (Notebook.predict_all configs) in Hrest.
    destruct (predict_one_figure c g Hone) as [texts [Hfig Hlen]].
    destruct (IH g1 g' Hrest) as [figs [Hfigs [Htitles Hfour]]].
    exists ((figure_title c, texts) :: figs). split; [| split].
    + rewrite Hfigs, Hfig, <- app_assoc. reflexivity.
    + simpl. now rewrite Htitles.
    + constructor; [exact Hlen | exact Hfour].
Qed.

Lemma one_figure_per_configuration_witness :
  let g := Notebook.fresh (helper := Demo.complete) in
  let g' := fst (Notebook.predict_all Notebook.grid g) in
  exists figs,
    Notebook.figures g' = Notebook.figures g ++ figs /\
    map fst figs = map figure_title Notebook.grid /\
    Forall (fun fig => length (snd fig) = 4) figs.
Proof.
  intros g g'.
  apply (@one_figure_per_configuration Demo.complete Notebook.grid g g').
  vm_compute. reflexivity.
Defined.

(** ** The AUROC in the legend *)

(** X17: for an AUROC between 0 and 1 the number in the legend is
    [m / 1000] written with three decimals, where [m], between 0 and
    1000, is a nearest integer to 1000 times the AUROC: the text runs
    from 0.000 to 1.000 and is off by at most 0.0005. *)
Theorem legend_auroc_nearest_thousandth :
  forall a : Q,
    (0 <= a)%Q -> (a <= 1)%Q ->
    exists m : nat,
      m <= 1000 /\
      format_0_3f (fin a) =
        (str (m / 1000) ++ "." ++
         String (digit (m mod 1000 / 100))
           (String (digit ((m mod 1000 / 10) mod 10))
              (String (digit (m mod 1000 mod 10)) EmptyString)))%string /\
      (2 * Z.abs (Z.of_nat m * Zpos (Qden a) - 1000 * Qnum a) <= Zpos (Qden a))%Z.
Proof.
  intros [num den] H0 H1.
  assert (Hn0 : (0 <= num)%Z) by (revert H0; unfold Qle; simpl; lia).
  assert (Hn1 : (num <= Zpos den)%Z) by (revert H1; unfold Qle; simpl; lia).
  assert (Habs : Qabs (num # den)%Q = (num # den)%Q).
  { unfold Qabs. now rewrite Z.abs_eq. }
  pose proof (round_milli_nearest (num # den)%Q) as Hr.
  change (Qden (num # den)%Q) with den in Hr.
  change (Qnum (num # den)%Q) with num in Hr.
  set (r := round_milli (num # den)%Q) in *.
  assert (Hd : (0 < Zpos den)%Z) by lia.
  assert (Hlo : (- Zpos den <= 2 * (r * Zpos den - 1000 * num))%Z) by lia.
  assert (Hhi : (2 * (r * Zpos den - 1000 * num) <= Zpos den)%Z) by lia.
  assert (Hr0 : (0 <= r)%Z).
  { destruct (Z_le_gt_dec 0 r) as [Hle | Hgt]; [exact Hle | exfalso].
    assert ((r * Zpos den <= - Zpos den)%Z) by nia. lia. }
  assert (Hr1 : (r <= 1000)%Z).
  { destruct (Z_le_gt_dec r 1000) as [Hle | Hgt]; [exact Hle | exfalso].
    assert ((1001 * Zpos den <= r * Zpos den)%Z) by nia. lia. }
  exists (Z.to_nat r). split; [lia |]. split.
  - unfold format_0_3f. rewrite Habs. fold r.
    assert (Hs : Qle_bool 0 (num # den)%Q = true) by now apply Qle_bool_iff.
    now rewrite Hs.
  - change (Qden (num # den)%Q) with den. change (Qnum (num # den)%Q) with num.
    rewrite Z2Nat.id by exact Hr0. exact Hr.
Qed.

Lemma legend_auroc_nearest_thousandth_witness :
  exists m : nat,
    m <= 1000 /\
    format_0_3f (fin (2 # 3)%Q) =
      (str (m / 1000) ++ "." ++
       String (digit (m mod 1000 / 100))
         (String (digit ((m mod 1000 / 10) mod 10))
            (String (digit (m mod 1000 mod 10)) EmptyString)))%string /\
    (2 * Z.abs (Z.of_nat m * Zpos (Qden (2 # 3)%Q) - 1000 * Qnum (2 # 3)%Q) <= Zpos (Qden (2 # 3)%Q))%Z.
Proof.
  apply (@legend_auroc_nearest_thousandth (2 # 3)%Q).
  - unfold Qle. simpl. lia.
  - unfold Qle. simpl. lia.
Defined.
